(** * PDF-to-HTML conversion service: a shallow embedding of [main.py]

    The service is a FastAPI application in one module.  Its Python
    functions are embedded as Rocq functions: pure helpers directly,
    request handlers in a state-and-exception monad over a world that
    records the local file system and every call made to an outside
    collaborator (the Gemini File API, the generative model, the clock). *)

From Stdlib Require Import ZArith String Ascii List Lia Bool.
From Stdlib Require Import PrimFloat Uint63.
From stdpp Require Import base gmap strings list pretty.

Import ListNotations.
Set Warnings "-inexact-float".
Local Open Scope string_scope.
Local Open Scope Z_scope.
Local Open Scope list_scope.

(** ** Python strings

    A Python [str] is modelled by [string]; [len] counts its characters
    and slices are taken character by character. *)

Module PyStr.

(** [len(s)] *)
Definition len (s : string) : Z := Z.of_nat (String.length s).

Fixpoint take (n : nat) (s : string) : string :=
  match n, s with
  | O, _ => EmptyString
  | S _, EmptyString => EmptyString
  | S n', String c s' => String c (take n' s')
  end.

Fixpoint drop (n : nat) (s : string) : string :=
  match n, s with
  | O, _ => s
  | S _, EmptyString => EmptyString
  | S n', String _ s' => drop n' s'
  end.

(** A slice bound [k] as Python resolves it on a sequence of length
    [n]: negative bounds count from the end, and the result is clipped
    to [0..n]. *)
Definition bound (n : nat) (k : Z) : nat :=
  if k <? 0 then Z.to_nat (Z.of_nat n + k) else Z.to_nat k.

(** [s[:k]] *)
Definition slice_to (s : string) (k : Z) : string :=
  take (bound (String.length s) k) s.

(** [s[k:]] *)
Definition slice_from (s : string) (k : Z) : string :=
  drop (bound (String.length s) k) s.

(** [s.rfind(c)] for a one-character needle: the highest index at which
    [c] occurs, or [-1]. *)
Fixpoint rfind (c : ascii) (s : string) : Z :=
  match s with
  | EmptyString => -1
  | String a s' =>
      let r := rfind c s' in
      if 0 <=? r then r + 1
      else if Ascii.eqb a c then 0 else -1
  end.

(** [s[i:i+1]], the character at index [i] as a string (empty when out
    of range). *)
Definition char_at (s : string) (i : Z) : string :=
  take 1 (slice_from s i).

(** [needle in s] *)
Fixpoint contains (needle s : string) : bool :=
  if String.prefix needle s then true
  else match s with
       | EmptyString => false
       | String _ s' => contains needle s'
       end.

End PyStr.

(** ** [os.path.splitext] (POSIX flavour)

  The standard library's [genericpath._splitext] with [sep = '/'],
  no alternative separator and [extsep = '.']: the extension starts at
  the last dot of the last path component, unless that component
  consists of leading dots only up to there. *)

Module OsPath.

Definition sep : ascii := "/"%char.
Definition extsep : ascii := "."%char.

(** The [while filenameIndex < dotIndex] loop: it looks for a character
    other than the dot between the start of the last component and the
    last dot.  [fuel] bounds the number of iterations by the distance
    still to cover. *)
Fixpoint skip_leading_dots (fuel : nat) (p : string)
    (filenameIndex dotIndex : Z) : bool :=
  match fuel with
  | O => false
  | S fuel' =>
      if filenameIndex <? dotIndex then
        if negb (String.eqb (PyStr.char_at p filenameIndex) (String extsep EmptyString))
        then true
        else skip_leading_dots fuel' p (filenameIndex + 1) dotIndex
      else false
  end.

Definition splitext (p : string) : string * string :=
  let sepIndex := PyStr.rfind sep p in
  let dotIndex := PyStr.rfind extsep p in
  if sepIndex <? dotIndex then
    let filenameIndex := sepIndex + 1 in
    if skip_leading_dots (Z.to_nat (dotIndex - filenameIndex)) p filenameIndex dotIndex
    then (PyStr.slice_to p dotIndex, PyStr.slice_from p dotIndex)
    else (p, PyStr.slice_to p 0)
  else (p, PyStr.slice_to p 0).

End OsPath.

(** ** [shorten_filename] *)

Definition shorten_filename (filename : string) (max_length : Z) : string :=
  if PyStr.len filename <=? max_length then filename
  else
    let '(name, ext) := OsPath.splitext filename in
    let max_name_length := max_length - PyStr.len ext in
    if max_name_length <=? 0 then PyStr.slice_to filename max_length
    else PyStr.slice_to name max_name_length +:+ ext.

(** ** Exceptions

    Every exception the service handles is a Python [Exception]; the
    handlers tell [HTTPException] and [JWTError] apart from the rest. *)

Inductive Exn :=
| HTTPException (status_code : Z) (detail : string)
                (headers : option (list (string * string)))
| JWTError (message : string)
| Error (message : string).

(** [str(e)].  Starlette prints an [HTTPException] as its status code
    and detail. *)
Definition exn_str (e : Exn) : string :=
  match e with
  | HTTPException status_code detail _ => pretty status_code +:+ ": " +:+ detail
  | JWTError message => message
  | Error message => message
  end.

(** ** The world outside the handlers *)

(** A file held by the File API, as [genai.upload_file] returns it. *)
Record RemoteFile := { uri : string }.

(** A model response; reading [response.text] can itself raise. *)
Record GenerateContentResponse := { text : Exn + string }.

(** Every call that leaves the process, in the order it is made. *)
Inductive Event :=
| Configure (api_key : string)
| ListModels
| ListFiles
| ReadUpload (filename : string)
| Uuid4
| NamedTemporaryFile (suffix : string)
| GenaiUploadFile (path display_name mime_type : string)
| GenerateContent (content : RemoteFile) (prompt : string)
                  (temperature : option float)
| Sleep (seconds : Z)
| Print (line : string).

(** The collaborators.  Each answers from the history of calls made
    before it and its own arguments, so a collaborator may behave
    differently on its first and on its fourth call. *)
Record Env := {
  list_models : list Event -> Exn + unit;
  list_files : list Event -> Exn + list string;
  read_upload : list Event -> string -> Exn + string;
  uuid4 : list Event -> string;
  temp_name : list Event -> string;
  upload_file : list Event -> string -> string -> string -> Exn + RemoteFile;
  generate_content :
    list Event -> RemoteFile -> string -> option float -> Exn + GenerateContentResponse
}.

(** The background task [convert_files] hands to [BackgroundTasks]:
    [process_pdf_from_paths] with its keyword arguments. *)
Record Task := {
  task_temp_file_paths : list string;
  task_filenames : list string;
  task_prompt : string;
  task_api_key : string;
  task_store_files : bool
}.

Record World := {
  clock : Z;                 (* [datetime.utcnow()], microseconds since the epoch *)
  fs : gset string;          (* paths of the local files that exist *)
  trace : list Event;        (* calls made so far, oldest first *)
  background_tasks : list Task
}.

(** ** The handler monad: state, and exceptions that keep the state *)

Definition M (A : Type) : Type := World -> (Exn + A) * World.

Definition ret {A} (a : A) : M A := fun w => (inr a, w).
Definition raise {A} (e : Exn) : M A := fun w => (inl e, w).

Definition bind {A B} (m : M A) (k : A -> M B) : M B :=
  fun w => match m w with
           | (inr a, w') => k a w'
           | (inl e, w') => (inl e, w')
           end.

(** [try: m] with the outcome handed to the caller ([except Exception]). *)
Definition try {A} (m : M A) : M (Exn + A) :=
  fun w => let '(r, w') := m w in (inr r, w').

(** [try: m finally: f]. *)
Definition finally {A} (m : M A) (f : M unit) : M A :=
  fun w => match m w with
           | (r, w') =>
               match f w' with
               | (inr _, w'') => (r, w'')
               | (inl e, w'') => (inl e, w'')
               end
           end.

Declare Scope py_scope.
Delimit Scope py_scope with py.
Notation "x <- m ;; k" := (bind m (fun x => k))
  (at level 100, m at next level, right associativity) : py_scope.
Notation "m ;;; k" := (bind m (fun _ => k))
  (at level 100, right associativity) : py_scope.
Local Open Scope py_scope.

Definition log (ev : Event) (w : World) : World :=
  {| clock := clock w; fs := fs w; trace := trace w ++ [ev];
     background_tasks := background_tasks w |}.

Definition advance (seconds : Z) (w : World) : World :=
  {| clock := clock w + seconds * 1000000; fs := fs w; trace := trace w;
     background_tasks := background_tasks w |}.

Definition emit (ev : Event) : M unit := fun w => (inr tt, log ev w).

(** A call to a collaborator: its answer is drawn from the history, then
    the call is recorded. *)
Definition call {A} (answer : list Event -> Exn + A) (ev : Event) : M A :=
  fun w => (answer (trace w), log ev w).

Definition lift {A} (r : Exn + A) : M A := fun w => (r, w).

(** [asyncio.sleep(seconds)] *)
Definition sleep (seconds : Z) : M unit :=
  fun w => (inr tt, log (Sleep seconds) (advance seconds w)).

(** ** [generate_with_retry] *)

Definition alternative_prompt_0 : string := "
                        Convert this PDF to clean HTML. Rather than copying the content verbatim:
                        - Reformat and restructure the content while preserving the meaning
                        - Maintain heading hierarchies and overall document structure
                        - Convert tables to HTML table format but adjust formatting slightly
                        - Focus on preserving the information hierarchy rather than exact reproduction
                        - Use your own words where appropriate while maintaining the document's integrity
                        - Completely ignore and omit all images - do not include any img tags or image references
                        ".

Definition alternative_prompt_1 : string := "
                        Extract and organize the key information from this document.
                        Create an HTML summary that captures the main points, structure, and data,
                        without reproducing the exact text. Implement proper HTML tables for any tabular data.
                        Do not include any images, image tags, or image references in the output.
                        ".

Definition alternative_prompt_2 : string := "
                        Create an HTML representation of this document that preserves 
                        the structure and information, but rephrases and restructures content
                        to avoid direct reproduction while maintaining accuracy.
                        Exclude all images and image references from the HTML output.
                        ".

Definition alternative_prompt (attempt : Z) : string :=
  if attempt =? 0 then alternative_prompt_0
  else if attempt =? 1 then alternative_prompt_1
  else alternative_prompt_2.

(** [0.4 + (attempt * 0.2)] in binary64, the integer converted first. *)
Definition retry_temperature (attempt : Z) : float :=
  (0.4 + PrimFloat.of_uint63 (Uint63.of_Z attempt) * 0.2)%float.

(** The test on the text of the first failure. *)
Definition is_recitation (error_str : string) : bool :=
  PyStr.contains "RECITATION" error_str
  || (PyStr.contains "finish_reason" error_str && PyStr.contains "4" error_str).

Definition content_flagged (error_str : string) : Exn :=
  HTTPException 422
    ("Content flagged as potentially copyrighted. Try using a different file or customizing the prompt. Original error: " +:+ error_str)
    None.

Definition model_generate (env : Env) (content : RemoteFile) (prompt : string)
    (temperature : option float) : M GenerateContentResponse :=
  call (fun h => generate_content env h content prompt temperature)
       (GenerateContent content prompt temperature).

(** [for attempt in range(max_retries)], entered at [attempt] with
    [remaining] iterations to go.  [Some response] is the [return] inside
    the loop, [None] is the loop running off its end. *)
Fixpoint escalate (env : Env) (content : RemoteFile) (error_str : string)
    (max_retries : Z) (remaining : nat) (attempt : Z)
    : M (option GenerateContentResponse) :=
  match remaining with
  | O => ret None
  | S remaining' =>
      r <- try (model_generate env content (alternative_prompt attempt)
                      (Some (retry_temperature attempt))) ;;
      match r with
      | inr response => ret (Some response)
      | inl retry_e =>
          if attempt =? max_retries - 1 then raise (content_flagged error_str)
          else sleep 1 ;;; escalate env content error_str max_retries remaining' (attempt + 1)
      end
  end.

Definition generate_with_retry (env : Env) (content : RemoteFile)
    (prompt : string) (max_retries : Z) : M GenerateContentResponse :=
  r <- try (model_generate env content prompt None) ;;
  match r with
  | inr response => ret response
  | inl e =>
      let error_str := exn_str e in
      if is_recitation error_str then
        o <- escalate env content error_str max_retries (Z.to_nat max_retries) 0 ;;
        match o with
        | Some response => ret response
        | None => raise e
        end
      else raise e
  end.

(** The calls that are counted: generation calls and uploads. *)
Definition is_generate (ev : Event) : bool :=
  match ev with GenerateContent _ _ _ => true | _ => false end.

Definition is_upload (ev : Event) : bool :=
  match ev with GenaiUploadFile _ _ _ => true | _ => false end.

Fixpoint count_events (p : Event -> bool) (h : list Event) : nat :=
  match h with
  | [] => O
  | ev :: h' => (if p ev then 1 else 0) + count_events p h'
  end%nat.

Definition generation_calls (h : list Event) : nat := count_events is_generate h.
Definition upload_calls (h : list Event) : nat := count_events is_upload h.

(** What [n] failed escalation attempts from [attempt] on leave in the
    trace: the call, then the one-second pause before the next one. *)
Fixpoint escalation_trace (content : RemoteFile) (attempt : Z) (n : nat)
    : list Event :=
  match n with
  | O => []
  | S n' =>
      GenerateContent content (alternative_prompt attempt)
        (Some (retry_temperature attempt))
      :: Sleep 1 :: escalation_trace content (attempt + 1) n'
  end.

(** ** Local files *)

Definition set_fs (files : gset string) (w : World) : World :=
  {| clock := clock w; fs := files; trace := trace w;
     background_tasks := background_tasks w |}.

(** A file is created at [path], or written over: it exists afterwards. *)
Definition write_file (path : string) : M unit :=
  fun w => (inr tt, set_fs ({[path]} ∪ fs w) w).

(** What [open(path, "wb")] raises for the path of a saved upload, which
    holds a name chosen by the caller.  A path with a NUL character in it
    is refused with a [ValueError].  The saved uploads go into the working
    directory under a name that begins with [temp_] and a fresh UUID, and
    the service creates no directory: a path with a separator in it
    points into a directory that does not exist, and [open] raises
    [FileNotFoundError]. *)
Definition open_error (path : string) : option Exn :=
  if PyStr.contains (String Ascii.zero EmptyString) path
  then Some (Error "embedded null byte")
  else if PyStr.contains (String OsPath.sep EmptyString) path
  then Some (Error ("[Errno 2] No such file or directory: '" +:+ path +:+ "'"))
  else None.

(** A string that can go into the name of a file in the working
    directory: it holds neither a NUL character nor a separator. *)
Definition plain (s : string) : Prop :=
  PyStr.contains (String Ascii.zero EmptyString) s = false
  /\ PyStr.contains (String OsPath.sep EmptyString) s = false.

(** [with open(path, "wb") as f: f.write(contents)] *)
Definition open_and_write (path : string) : M unit :=
  match open_error path with
  | Some e => raise e
  | None => write_file path
  end.

(** [os.path.exists(path)] *)
Definition os_path_exists (path : string) : M bool :=
  fun w => (inr (bool_decide (path ∈ fs w)), w).

(** [os.remove(path)], which raises when there is no such file. *)
Definition os_remove (path : string) : M unit :=
  fun w =>
    if bool_decide (path ∈ fs w) then (inr tt, set_fs (fs w ∖ {[path]}) w)
    else (inl (Error ("[Errno 2] No such file or directory: '" +:+ path +:+ "'")), w).

(** [if os.path.exists(path): os.remove(path)] *)
Definition remove_if_exists (path : string) : M unit :=
  b <- os_path_exists path ;;
  if b : bool then os_remove path else ret tt.

(** [tempfile.NamedTemporaryFile(delete=False, suffix=suffix)], written
    and closed: the file stays on disk under the name it was given. *)
Definition named_temporary_file (env : Env) (suffix : string) : M string :=
  stem <- call (fun h => inr (temp_name env h)) (NamedTemporaryFile suffix) ;;
  let name := stem +:+ suffix in
  write_file name ;;;
  ret name.

(** ** The File API *)

Definition genai_configure (api_key : string) : M unit := emit (Configure api_key).

Definition genai_upload_file (env : Env) (path display_name mime_type : string)
    : M RemoteFile :=
  call (fun h => upload_file env h path display_name mime_type)
       (GenaiUploadFile path display_name mime_type).

(** [file_exists_in_api]: any failure of the listing counts as absence. *)
Definition file_exists_in_api (env : Env) (display_name api_key : string) : M bool :=
  r <- try (genai_configure api_key ;;;
            files_list <- call (list_files env) ListFiles ;;
            ret (existsb (String.eqb display_name) files_list)) ;;
  match r with
  | inr found => ret found
  | inl _ => ret false
  end.

(** ** [convert_files] *)

(** A submitted document, as FastAPI hands it over. *)
Record UploadFile := { filename : string }.

Record ConsolidatedResponse := {
  message : string;
  filenames : list string;
  html : option (list string);
  file_uris : option (list string)
}.

Definition default_prompt : string := "Convert this PDF document to well-formatted HTML. Preserve headers, lists, tables, and other formatting. Ignore page numbers, footers, and all images. Do not convert or include images in the HTML output - omit all img tags and image references. Ensure tables are properly structured with <table>, <tr>, <th>, and <td> tags.".

(** [prompt if prompt else <default>] *)
Definition effective_prompt (prompt : string) : string :=
  if String.eqb prompt "" then default_prompt else prompt.

Definition duplicate_name (shortened_filename : string) : Exn :=
  HTTPException 400
    ("A file with name '" +:+ shortened_filename
     +:+ "' already exists in the File API. Please use a different filename.")
    None.

(** [for path in temp_file_paths: if os.path.exists(path): os.remove(path)] *)
Fixpoint remove_all (paths : list string) : M unit :=
  match paths with
  | [] => ret tt
  | path :: rest => remove_if_exists path ;;; remove_all rest
  end.

(** The body of the [try] in the first loop of [convert_files]: the
    collision check against the File API, then the document is read and
    saved under a fresh local name. *)
Definition save_upload (env : Env) (api_key : string) (file : UploadFile)
    (shortened_filename : string) : M string :=
  found <- file_exists_in_api env shortened_filename api_key ;;
  if found : bool then raise (duplicate_name shortened_filename)
  else
    contents <- call (fun h => read_upload env h (filename file))
                     (ReadUpload (filename file)) ;;
    u <- call (fun h => inr (uuid4 env h)) Uuid4 ;;
    let temp_file_path := "temp_" +:+ u +:+ "_" +:+ shortened_filename in
    open_and_write temp_file_path ;;;
    ret temp_file_path.

(** The first loop of [convert_files]: every document is named, checked
    and saved before any of them is processed.  [filenames] and
    [temp_file_paths] are the two lists the loop appends to. *)
Fixpoint save_uploads (env : Env) (api_key : string) (files : list UploadFile)
    (filenames temp_file_paths : list string) : M (list string * list string) :=
  match files with
  | [] => ret (filenames, temp_file_paths)
  | file :: rest =>
      let original_filename := filename file in
      let shortened_filename := shorten_filename original_filename 40 in
      let filenames := filenames ++ [shortened_filename] in
      r <- try (save_upload env api_key file shortened_filename) ;;
      match r with
      | inr temp_file_path =>
          save_uploads env api_key rest filenames (temp_file_paths ++ [temp_file_path])
      | inl e =>
          remove_all temp_file_paths ;;;
          raise (HTTPException 500
                   ("Error processing " +:+ filename file +:+ ": " +:+ exn_str e) None)
      end
  end.

(** The steps both processing loops share, from the upload of the PDF to
    the removal of the HTML file written for the second upload.  It
    returns the generated HTML and the URI of the stored HTML file. *)
Definition generate_and_store (env : Env) (prompt temp_file_path shortened_filename : string)
    : M (string * string) :=
  sample_file <- genai_upload_file env temp_file_path shortened_filename "application/pdf" ;;
  response <- generate_with_retry env sample_file (effective_prompt prompt) 3 ;;
  html_content <- lift (text response) ;;
  let html_filename := fst (OsPath.splitext shortened_filename) +:+ ".html" in
  html_temp_path <- named_temporary_file env ".html" ;;
  html_file <- genai_upload_file env html_temp_path html_filename "text/html" ;;
  os_remove html_temp_path ;;;
  ret (html_content, uri html_file).

(** The [UnboundLocalError] for a local variable read before it was bound,
    with the text CPython gives it since version 3.11. *)
Definition unbound_local (name : string) : Exn :=
  Error ("cannot access local variable '" +:+ name
         +:+ "' where it is not associated with a value").

(** [filenames[i]] *)
Definition index (l : list string) (i : nat) : M string :=
  match l !! i with
  | Some x => ret x
  | None => raise (Error "list index out of range")
  end.

(** The synchronous loop of [convert_files].  [shortened_filename] is the
    function-level variable of that name: the [except] clause reads
    whatever it was last bound to. *)
Fixpoint convert_each (env : Env) (prompt : string) (return_html : bool)
    (filenames : list string) (i : nat) (temp_file_paths : list string)
    (shortened_filename : option string) (html_results file_uris : list string)
    : M (list string * list string) :=
  match temp_file_paths with
  | [] => ret (html_results, file_uris)
  | temp_file_path :: rest =>
      let bound_name :=
        match filenames !! i with Some x => Some x | None => shortened_filename end in
      r <- finally
             (r <- try (name <- index filenames i ;;
                        generate_and_store env prompt temp_file_path name) ;;
              match r with
              | inr (html_content, html_uri) => ret (html_content, html_uri)
              | inl (HTTPException status_code detail headers) =>
                  raise (HTTPException status_code detail headers)
              | inl e =>
                  match bound_name with
                  | Some name =>
                      raise (HTTPException 500
                               ("Error processing " +:+ name +:+ ": " +:+ exn_str e) None)
                  | None => raise (unbound_local "shortened_filename")
                  end
              end)
             (remove_if_exists temp_file_path) ;;
      let '(html_content, html_uri) := r in
      convert_each env prompt return_html filenames (S i) rest bound_name
        (if return_html then html_results ++ [html_content] else html_results)
        (file_uris ++ [html_uri])
  end.

(** [process_pdf_from_paths], the background task: the same steps, with
    every failure printed and the loop carried on. *)
Fixpoint process_each (env : Env) (prompt : string) (filenames : list string)
    (i : nat) (temp_file_paths : list string) (shortened_filename : option string)
    : M unit :=
  match temp_file_paths with
  | [] => ret tt
  | temp_file_path :: rest =>
      let bound_name :=
        match filenames !! i with Some x => Some x | None => shortened_filename end in
      finally
        (r <- try (name <- index filenames i ;;
                   generate_and_store env prompt temp_file_path name) ;;
         match r with
         | inr _ => ret tt
         | inl e =>
             match bound_name with
             | Some name =>
                 emit (Print ("Error processing file " +:+ name +:+ ": " +:+ exn_str e))
             | None => raise (unbound_local "shortened_filename")
             end
         end)
        (remove_if_exists temp_file_path) ;;;
      process_each env prompt filenames (S i) rest bound_name
  end.

Definition process_pdf_from_paths (env : Env) (temp_file_paths filenames : list string)
    (prompt api_key : string) (store_files : bool) : M unit :=
  genai_configure api_key ;;;
  process_each env prompt filenames 0 temp_file_paths None.

(** Running a scheduled task, which the framework does once the response
    has been sent. *)
Definition run_task (env : Env) (t : Task) : M unit :=
  process_pdf_from_paths env (task_temp_file_paths t) (task_filenames t)
    (task_prompt t) (task_api_key t) (task_store_files t).

(** The world in which a task that was started in [w] takes up its
    document number [k], counted from 0: the world the task reaches when
    it is given its first [k] paths only. *)
Definition before_document (env : Env) (t : Task) (k : nat) (w : World) : World :=
  snd (process_pdf_from_paths env (take k (task_temp_file_paths t)) (task_filenames t)
         (task_prompt t) (task_api_key t) (task_store_files t) w).

(** [background_tasks.add_task(...)] *)
Definition add_task (t : Task) : M unit :=
  fun w => (inr tt, {| clock := clock w; fs := fs w; trace := trace w;
                       background_tasks := background_tasks w ++ [t] |}).

Definition convert_files (env : Env) (files : list UploadFile) (prompt : string)
    (background return_html : bool) (api_key : string) : M ConsolidatedResponse :=
  match files with
  | [] => raise (HTTPException 400 "No files uploaded." None)
  | _ =>
      saved <- save_uploads env api_key files [] [] ;;
      let '(filenames, temp_file_paths) := saved in
      if background then
        add_task {| task_temp_file_paths := temp_file_paths;
                    task_filenames := filenames;
                    task_prompt := prompt;
                    task_api_key := api_key;
                    task_store_files := true |} ;;;
        ret {| message := "Files submitted for background processing. HTML files will be available in the File API once processing is complete. Use /list_files/ to view all stored files.";
               filenames := filenames; html := None; file_uris := None |}
      else
        genai_configure api_key ;;;
        results <- convert_each env prompt return_html filenames 0 temp_file_paths
                     (last filenames) [] [] ;;
        let '(html_results, file_uris) := results in
        ret {| message := "Files processed successfully. HTML files are available in the File API.";
               filenames := filenames;
               html := if return_html then Some html_results else None;
               file_uris := Some file_uris |}
  end.

(** ** Tokens *)

Definition SECRET_KEY : string :=
  "09d25e094faa6ca2556c818166b7a9563b93f7099f6f0f4caa6cf63b88e8d3e7".
Definition ALGORITHM : string := "HS256".
Definition ACCESS_TOKEN_EXPIRE_MINUTES : Z := 30.

(** A claim value: a string, an integer, or a [datetime] (microseconds
    since the epoch, in UTC). *)
Inductive Value :=
| VStr (s : string)
| VInt (n : Z)
| VDatetime (t : Z).

(** [timedelta(minutes=m)], in microseconds. *)
Definition timedelta_minutes (m : Z) : Z := m * 60 * 1000000.

(** [datetime.min] and [datetime.max]: the first microsecond of year 1
    and the last of year 9999. *)
Definition datetime_min : Z := -62135596800 * 1000000.
Definition datetime_max : Z := 253402300799 * 1000000 + 999999.

(** The instants a [datetime] can hold. *)
Definition representable (t : Z) : Prop := datetime_min <= t <= datetime_max.

(** Modelled from the spec: the JWT library behind [jwt.encode] and
    [jwt.decode] (python-jose) is not part of the repository.  Following
    sections 3 and 4.2, a token is a signed envelope of claims that is
    valid only if its signature verifies under the key it is checked
    against and the current time is before its expiry; a bad signature, a
    malformed structure and an expired token are all reported by the one
    error class [JWTError].  Signing is modelled symbolically: a signed
    token records the key and the algorithm it was signed with, and the
    signature verifies exactly when the same key is presented with an
    accepted algorithm.  Timestamps travel as whole seconds, and the
    subject of a token, when there is one, travels as a string. *)
Module Jose.

Inductive jws :=
| Signed (claims : gmap string Value) (key : string) (algorithm : string)
| Malformed (raw : string).

(** Whole seconds since the epoch. *)
Definition timegm (t : Z) : Z := t / 1000000.

Definition to_json (v : Value) : Value :=
  match v with
  | VDatetime t => VInt (timegm t)
  | _ => v
  end.

Definition encode (claims : gmap string Value) (key algorithm : string) : jws :=
  Signed (to_json <$> claims) key algorithm.

Definition validate_exp (now : Z) (claims : gmap string Value) : Exn + unit :=
  match claims !! "exp" with
  | None => inr tt
  | Some (VInt exp) =>
      if timegm now <? exp then inr tt
      else inl (JWTError "Signature has expired.")
  | Some _ => inl (JWTError "Expiration Time claim (exp) must be an integer.")
  end.

Definition validate_sub (claims : gmap string Value) : Exn + unit :=
  match claims !! "sub" with
  | None => inr tt
  | Some (VStr _) => inr tt
  | Some _ => inl (JWTError "Subject must be a string.")
  end.

(** [jwt.decode(token, key, algorithms=algorithms)] at time [now]. *)
Definition decode (now : Z) (token : jws) (key : string) (algorithms : list string)
    : Exn + gmap string Value :=
  match token with
  | Malformed _ => inl (JWTError "Not enough segments")
  | Signed claims signing_key algorithm =>
      if negb (existsb (String.eqb algorithm) algorithms)
      then inl (JWTError "The specified alg value is not allowed")
      else if negb (String.eqb signing_key key)
      then inl (JWTError "Signature verification failed.")
      else
        match validate_exp now claims with
        | inl e => inl e
        | inr _ =>
            match validate_sub claims with
            | inl e => inl e
            | inr _ => inr claims
            end
        end
  end.

End Jose.

(** The response model of [/token]. *)
Record Token := { access_token : Jose.jws; token_type : string }.

(** [datetime.utcnow()] *)
Definition utcnow : M Z := fun w => (inr (clock w), w).

(** [if expires_delta:] holds for a [timedelta] that is given and is not
    zero.  Instants are not bounded here, where Python keeps a
    [datetime] within the years 1 to 9999 and raises [OverflowError] when
    [utcnow() + expires_delta] leaves them: a statement about a lifetime
    other than the 30 minutes of [get_access_token] assumes the expiry
    [representable]. *)
Definition create_access_token (data : gmap string Value) (expires_delta : option Z)
    : M Jose.jws :=
  let to_encode := data in
  now <- utcnow ;;
  let expire :=
    match expires_delta with
    | Some delta =>
        if negb (delta =? 0) then now + delta
        else now + timedelta_minutes ACCESS_TOKEN_EXPIRE_MINUTES
    | None => now + timedelta_minutes ACCESS_TOKEN_EXPIRE_MINUTES
    end in
  let to_encode := <["exp" := VDatetime expire]> to_encode in
  let encoded_jwt := Jose.encode to_encode SECRET_KEY ALGORITHM in
  ret encoded_jwt.

Definition credentials_exception : Exn :=
  HTTPException 401 "Could not validate credentials"
    (Some [("WWW-Authenticate", "Bearer")]).

(** [TokenData(api_key=api_key)]: the field is declared as a string. *)
Definition TokenData (api_key : Value) : M string :=
  match api_key with
  | VStr s => ret s
  | _ => raise (Error "1 validation error for TokenData")
  end.

Definition get_current_api_key (credentials : Jose.jws) : M string :=
  r <- try (let token := credentials in
            now <- utcnow ;;
            payload <- lift (Jose.decode now token SECRET_KEY [ALGORITHM]) ;;
            match payload !! "sub" with
            | None => raise credentials_exception
            | Some api_key => TokenData api_key
            end) ;;
  match r with
  | inr token_data => ret token_data
  | inl (JWTError _) => raise credentials_exception
  | inl e => raise e
  end.

(** [POST /token] *)
Definition get_access_token (env : Env) (api_key : string) : M Token :=
  r <- try (genai_configure api_key ;;;
            call (list_models env) ListModels) ;;
  match r with
  | inl e =>
      raise (HTTPException 401 "Invalid API key"
               (Some [("WWW-Authenticate", "Bearer")]))
  | inr models =>
      let access_token_expires := timedelta_minutes ACCESS_TOKEN_EXPIRE_MINUTES in
      access_token <- create_access_token {["sub" := VStr api_key]}
                        (Some access_token_expires) ;;
      ret {| access_token := access_token; token_type := "bearer" |}
  end.

(** ** Scripted collaborators

    Small concrete environments, used to run the handlers on examples. *)

Definition empty_world : World :=
  {| clock := 0; fs := ∅; trace := []; background_tasks := [] |}.

(** The display names of the files uploaded in a history. *)
Fixpoint uploaded_names (h : list Event) : list string :=
  match h with
  | [] => []
  | GenaiUploadFile _ display_name _ :: h' => display_name :: uploaded_names h'
  | _ :: h' => uploaded_names h'
  end.

(** A File API that holds the files [existing] and every file uploaded
    since, accepts everything, and a model that answers every prompt with
    the same page. *)
Definition file_api (existing : list string) : Env :=
  {| list_models := fun _ => inr tt;
     list_files := fun h => inr (existing ++ uploaded_names h);
     read_upload := fun _ _ => inr "%PDF-1.7";
     uuid4 := fun h => pretty (Z.of_nat (length h));
     temp_name := fun h => "/tmp/tmp" +:+ pretty (Z.of_nat (length h));
     upload_file := fun _ _ display_name _ => inr {| uri := "files/" +:+ display_name |};
     generate_content := fun _ _ _ _ => inr {| text := inr "<html></html>" |} |}.

Definition obliging_env : Env := file_api [].

Definition with_generate
    (g : list Event -> RemoteFile -> string -> option float -> Exn + GenerateContentResponse)
    (env : Env) : Env :=
  {| list_models := list_models env; list_files := list_files env;
     read_upload := read_upload env; uuid4 := uuid4 env;
     temp_name := temp_name env; upload_file := upload_file env;
     generate_content := g |}.

Definition recitation_error : Exn :=
  Error "Invalid operation: finish_reason is RECITATION".

(** A model that refuses every call on recitation grounds. *)
Definition refusing_env : Env :=
  with_generate (fun _ _ _ _ => inl recitation_error) obliging_env.

(** A model that refuses until it has been called [n] times. *)
Definition refusing_until (n : nat) : Env :=
  with_generate
    (fun h _ _ _ =>
       if (generation_calls h <? n)%nat then inl recitation_error
       else inr {| text := inr "<html></html>" |})
    obliging_env.

(** An error that has nothing to do with recitation: the candidate was
    stopped on safety grounds.  Its text names the finish reason and holds
    a digit 4, in a count of tokens. *)
Definition safety_stop : Exn :=
  Error "The candidate stopped with finish_reason: SAFETY after 1024 tokens".

(** A model that stops its first candidate on safety grounds and answers
    every later call. *)
Definition stopped_once : Env :=
  with_generate
    (fun h _ _ _ =>
       if (generation_calls h <? 1)%nat then inl safety_stop
       else inr {| text := inr "<html></html>" |})
    obliging_env.

(** A model that stops every candidate on safety grounds. *)
Definition stopped_env : Env :=
  with_generate (fun _ _ _ _ => inl safety_stop) obliging_env.

(** A model whose service is down. *)
Definition unavailable_env : Env :=
  with_generate (fun _ _ _ _ => inl (Error "503 Service Unavailable")) obliging_env.

(** A File API that takes PDFs but fails every upload of an HTML file. *)
Definition html_store_down : Env :=
  {| list_models := list_models obliging_env;
     list_files := list_files obliging_env;
     read_upload := read_upload obliging_env;
     uuid4 := uuid4 obliging_env;
     temp_name := temp_name obliging_env;
     upload_file := fun h path display_name mime_type =>
       if String.eqb mime_type "text/html"
       then inl (Error "503 Service Unavailable")
       else upload_file obliging_env h path display_name mime_type;
     generate_content := generate_content obliging_env |}.

(** [n] in unary: an identifier that differs from one call to the next. *)
Fixpoint strokes (n : nat) : string :=
  match n with
  | O => EmptyString
  | S n' => String "i"%char (strokes n')
  end.

(** A File API whose listing fails every time. *)
Definition listing_down : Env :=
  {| list_models := list_models obliging_env;
     list_files := fun _ => inl (Error "503 Service Unavailable");
     read_upload := read_upload obliging_env;
     uuid4 := fun h => strokes (length h);
     temp_name := temp_name obliging_env;
     upload_file := upload_file obliging_env;
     generate_content := generate_content obliging_env |}.

(** A File API whose listing holds the files [existing] and no others,
    whatever is uploaded. *)
Definition fixed_listing (existing : list string) : Env :=
  {| list_models := list_models obliging_env;
     list_files := fun _ => inr existing;
     read_upload := read_upload obliging_env;
     uuid4 := fun h => strokes (length h);
     temp_name := temp_name obliging_env;
     upload_file := upload_file obliging_env;
     generate_content := generate_content obliging_env |}.

Definition sample_file : RemoteFile := {| uri := "files/report.pdf" |}.

(** ** What a handler can add to the trace

    [emits P m]: running [m] only appends events, and every event it
    appends satisfies [P]. *)

Definition emits (P : Event -> Prop) {A} (m : M A) : Prop :=
  forall w, exists evs, trace (snd (m w)) = trace w ++ evs /\ Forall P evs.

(** The events of the pre-flight loop: anything but an upload to the
    File API or a generation call. *)
Definition local_event (ev : Event) : Prop :=
  is_upload ev = false /\ is_generate ev = false.

Definition is_list_files (ev : Event) : bool :=
  match ev with ListFiles => true | _ => false end.

(** The refusal the specification describes for a request with two
    documents of one name: the request is refused with an HTTP 400 and
    nothing has been uploaded. *)
Definition refused_as_duplicate (env : Env) (files : list UploadFile) (prompt : string)
    (background return_html : bool) (api_key : string) (w : World) : Prop :=
  let out := convert_files env files prompt background return_html api_key w in
  (exists detail headers, fst out = inl (HTTPException 400 detail headers))
  /\ upload_calls (trace (snd out)) = upload_calls (trace w).

(** An upload made under one of the names [names]: a PDF stored under the
    name itself, or an HTML file stored under the name with its extension
    replaced. *)
Definition names_uploads (names : list string) (ev : Event) : Prop :=
  match ev with
  | GenaiUploadFile _ display_name mime_type =>
      (mime_type = "application/pdf" /\ display_name ∈ names)
      \/ (mime_type = "text/html"
          /\ exists name, name ∈ names
                          /\ display_name = fst (OsPath.splitext name) +:+ ".html")
  | _ => True
  end.

(** The display names under which files of type [mime_type] were
    uploaded in a stretch of the trace, in the order of the uploads. *)
Fixpoint uploads_of (mime_type : string) (h : list Event) : list string :=
  match h with
  | [] => []
  | GenaiUploadFile _ display_name m :: h' =>
      if String.eqb m mime_type then display_name :: uploads_of mime_type h'
      else uploads_of mime_type h'
  | _ :: h' => uploads_of mime_type h'
  end.

(** The display name given to the HTML made from the document that is
    stored under [shortened_filename]. *)
Definition html_name (shortened_filename : string) : string :=
  fst (OsPath.splitext shortened_filename) +:+ ".html".

(** An upload made under the shortened name of one of the documents
    [files]. *)
Definition under_shortened_name (files : list UploadFile) (ev : Event) : Prop :=
  match ev with
  | GenaiUploadFile _ display_name _ =>
      exists file, file ∈ files /\ display_name = shorten_filename (filename file) 40
  | _ => True
  end.

(** What the specification says of the uploads of a request: every one
    of them is made under the shortened name of one of its documents. *)
Definition uploads_under_shortened_names (env : Env) (files : list UploadFile)
    (prompt : string) (background return_html : bool) (api_key : string) (w : World)
    : Prop :=
  exists evs,
    trace (snd (convert_files env files prompt background return_html api_key w))
    = trace w ++ evs
    /\ Forall (under_shortened_name files) evs.

(** The ways a token can be invalid at time [now].  A token is valid
    only while the time is before its expiry, so it counts as expired
    from the second of its expiry on. *)
Inductive Invalid (now : Z) : Jose.jws -> Prop :=
| bad_signature claims key algorithm :
    key <> SECRET_KEY -> Invalid now (Jose.Signed claims key algorithm)
| malformed raw :
    Invalid now (Jose.Malformed raw)
| expired claims key algorithm exp :
    claims !! "exp" = Some (VInt exp) -> exp <= Jose.timegm now ->
    Invalid now (Jose.Signed claims key algorithm)
| missing_subject claims key algorithm :
    claims !! "sub" = None -> Invalid now (Jose.Signed claims key algorithm).

(** ** What a handler leaves alone

    [keeps R m]: every run of [m] takes a world to one related to it by
    [R]. *)

Definition keeps (R : World -> World -> Prop) {A} (m : M A) : Prop :=
  forall w, R w (snd (m w)).

(** Neither the local files nor the scheduled tasks have changed. *)
Definition same_disk (w w' : World) : Prop :=
  fs w' = fs w /\ background_tasks w' = background_tasks w.

(** The scheduled tasks have not changed. *)
Definition same_tasks (w w' : World) : Prop :=
  background_tasks w' = background_tasks w.

(** [at_most p n m]: a run of [m] appends no more than [n] events that
    satisfy [p]. *)
Definition at_most (p : Event -> bool) (n : nat) {A} (m : M A) : Prop :=
  forall w,
    (count_events p (trace (snd (m w))) <= count_events p (trace w) + n)%nat.

(** The events of one run of the retry policy on [content]: the call
    with the caller's prompt at the default temperature, the escalation
    calls below [max_retries] with their own prompt and temperature, and
    the one-second pauses. *)
Definition retry_event (content : RemoteFile) (prompt : string) (max_retries : Z)
    (ev : Event) : Prop :=
  match ev with
  | GenerateContent c p t =>
      c = content
      /\ ((p = prompt /\ t = None)
          \/ exists attempt, 0 <= attempt < max_retries
                             /\ p = alternative_prompt attempt
                             /\ t = Some (retry_temperature attempt))
  | Sleep seconds => seconds = 1
  | _ => False
  end.

Definition is_sleep (ev : Event) : bool :=
  match ev with Sleep _ => true | _ => false end.

(** The local path a document is saved under: [temp_], a UUID, and the
    shortened name. *)
Definition saved_as (path : string) (file : UploadFile) : Prop :=
  exists u, path = "temp_" +:+ u +:+ "_" +:+ shorten_filename (filename file) 40.

(** The error the first loop of [convert_files] raises for [file]. *)
Definition preflight_error (file : UploadFile) (e : Exn) : Exn :=
  HTTPException 500
    ("Error processing " +:+ filename file +:+ ": " +:+ exn_str e) None.

(** A generation call as a request with the instruction [prompt] makes
    it: with the caller's instruction, or the built-in one when that is
    empty, at the default temperature; or with one of the three
    alternative prompts at its own temperature. *)
Definition asks_with (prompt : string) (ev : Event) : Prop :=
  match ev with
  | GenerateContent _ p t =>
      (p = effective_prompt prompt /\ t = None)
      \/ exists attempt, 0 <= attempt < 3
                         /\ p = alternative_prompt attempt
                         /\ t = Some (retry_temperature attempt)
  | _ => True
  end.

(** * Properties *)

Example splitext_pdf : OsPath.splitext "report.final.pdf" = ("report.final", ".pdf").
Proof. reflexivity. Qed.

Example splitext_hidden : OsPath.splitext "dir.d/.bashrc" = ("dir.d/.bashrc", "").
Proof. reflexivity. Qed.

Example splitext_dots : OsPath.splitext "...a.b" = ("...a", ".b").
Proof. reflexivity. Qed.

Example shorten_long :
  shorten_filename "0123456789012345678901234567890123456789extra.pdf" 40
  = "012345678901234567890123456789012345.pdf".
Proof. reflexivity. Qed.

Example retry_temperature_0 : retry_temperature 0 = 0.4%float.
Proof. reflexivity. Qed.

(** In binary64, [0.4 + 0.2] is one step above the double nearest to 0.6. *)
Example retry_temperature_1 : retry_temperature 1 = 0.6000000000000001%float.
Proof. reflexivity. Qed.

Example retry_temperature_2 : retry_temperature 2 = 0.8%float.
Proof. reflexivity. Qed.

Example is_recitation_by_name :
  is_recitation "Invalid operation: finish_reason is RECITATION" = true.
Proof. reflexivity. Qed.

Example is_recitation_by_code :
  is_recitation "The candidate stopped with finish_reason 4" = true.
Proof. reflexivity. Qed.

Example is_recitation_outage : is_recitation "503 Service Unavailable" = false.
Proof. reflexivity. Qed.

(** ** The retry policy *)

Lemma count_events_app p h1 h2 :
  count_events p (h1 ++ h2) = (count_events p h1 + count_events p h2)%nat.
Proof. induction h1 as [|ev h1 IH]; simpl; [reflexivity | rewrite IH; lia]. Qed.

Lemma generation_calls_escalation content attempt n :
  generation_calls (escalation_trace content attempt n) = n.
Proof.
  unfold generation_calls.
  revert attempt; induction n as [|n IH]; intros attempt; simpl; [reflexivity|].
  rewrite IH. reflexivity.
Qed.

(** Traces are compared with the appended events gathered to the right
    of the initial trace. *)
Ltac norm_trace :=
  repeat (progress (cbn [fst snd trace fs clock background_tasks log advance];
                    rewrite <- ?app_assoc; cbn [app])).

(** One iteration of the escalation loop. *)
Lemma escalate_S env content error_str max_retries remaining attempt w :
  escalate env content error_str max_retries (S remaining) attempt w =
  let ev := GenerateContent content (alternative_prompt attempt)
              (Some (retry_temperature attempt)) in
  match generate_content env (trace w) content (alternative_prompt attempt)
          (Some (retry_temperature attempt)) with
  | inr response => (inr (Some response), log ev w)
  | inl _ =>
      if attempt =? max_retries - 1
      then (inl (content_flagged error_str), log ev w)
      else escalate env content error_str max_retries remaining (attempt + 1)
             (log (Sleep 1) (advance 1 (log ev w)))
  end.
Proof.
  cbn [escalate]. unfold bind at 1. unfold try, model_generate, call.
  destruct (generate_content env (trace w) content _ _); [|reflexivity].
  destruct (attempt =? max_retries - 1); reflexivity.
Qed.

(** When every remaining escalation attempt fails, the loop ends in the
    terminal 422 raised by its last iteration, having made one call per
    iteration and slept between them. *)
Lemma escalate_exhausted env content error_str max_retries :
  forall (remaining : nat) (attempt : Z) (w : World),
    max_retries = attempt + Z.of_nat (S remaining) ->
    (forall k : nat, (k <= remaining)%nat ->
       exists e,
         generate_content env (trace w ++ escalation_trace content attempt k)
           content (alternative_prompt (attempt + Z.of_nat k))
           (Some (retry_temperature (attempt + Z.of_nat k))) = inl e) ->
    let out := escalate env content error_str max_retries (S remaining) attempt w in
    fst out = inl (content_flagged error_str)
    /\ trace (snd out)
       = trace w ++ escalation_trace content attempt remaining
           ++ [GenerateContent content
                 (alternative_prompt (attempt + Z.of_nat remaining))
                 (Some (retry_temperature (attempt + Z.of_nat remaining)))]
    /\ fs (snd out) = fs w.
Proof.
  induction remaining as [|remaining IH]; intros attempt w Hmax Hfail out;
    subst out; rewrite escalate_S; cbn zeta;
    destruct (Hfail O ltac:(lia)) as [e He];
    simpl in He; rewrite app_nil_r, Z.add_0_r in He; rewrite He.
  - replace (attempt =? max_retries - 1) with true by (symmetry; apply Z.eqb_eq; lia).
    cbn. rewrite Z.add_0_r. auto.
  - replace (attempt =? max_retries - 1) with false by (symmetry; apply Z.eqb_neq; lia).
    match goal with |- context [escalate _ _ _ _ _ _ ?w1] => set (w1' := w1) end.
    specialize (IH (attempt + 1) w1' ltac:(lia)).
    destruct IH as (Hres & Htr & Hfs).
    { intros k Hk. destruct (Hfail (S k) ltac:(lia)) as [e' He'].
      exists e'. subst w1'. cbn [trace log advance].
      rewrite <- !app_assoc. cbn [app escalation_trace] in He' |- *.
      replace (attempt + 1 + Z.of_nat k) with (attempt + Z.of_nat (S k)) by lia.
      exact He'. }
    split; [exact Hres|]. split; [|rewrite Hfs; reflexivity].
    rewrite Htr. subst w1'. cbn [trace log advance escalation_trace].
    rewrite <- !app_assoc. cbn [app].
    replace (attempt + 1 + Z.of_nat remaining) with (attempt + Z.of_nat (S remaining)) by lia.
    reflexivity.
Qed.

(** The two ways out of the first [except] clause. *)
Lemma generate_with_retry_refused env content prompt max_retries w e0 :
  generate_content env (trace w) content prompt None = inl e0 ->
  is_recitation (exn_str e0) = true ->
  generate_with_retry env content prompt max_retries w =
  match escalate env content (exn_str e0) max_retries (Z.to_nat max_retries) 0
          (log (GenerateContent content prompt None) w) with
  | (inl e, w') => (inl e, w')
  | (inr (Some response), w') => (inr response, w')
  | (inr None, w') => (inl e0, w')
  end.
Proof.
  intros Horig Hrec.
  unfold generate_with_retry, bind at 1, try, model_generate, call.
  rewrite Horig, Hrec. unfold bind.
  destruct (escalate _ _ _ _ _ _ _) as [[e|[r|]] w']; reflexivity.
Qed.

Lemma generate_with_retry_other env content prompt max_retries w e0 :
  generate_content env (trace w) content prompt None = inl e0 ->
  is_recitation (exn_str e0) = false ->
  generate_with_retry env content prompt max_retries w =
  (inl e0, log (GenerateContent content prompt None) w).
Proof.
  intros Horig Hrec.
  unfold generate_with_retry, bind at 1, try, model_generate, call.
  rewrite Horig, Hrec. reflexivity.
Qed.

(** C1. When the original call is refused on recitation grounds and the
    three escalation attempts fail too, [generate_with_retry] raises the
    terminal HTTP 422 whose detail ends with the text of the original
    error, after exactly four generation calls: the original one and the
    three escalations, with no fifth. *)
Theorem generate_with_retry_exhausted env content prompt w e0 :
  generate_content env (trace w) content prompt None = inl e0 ->
  is_recitation (exn_str e0) = true ->
  (forall k : nat, (k < 3)%nat ->
     exists e,
       generate_content env
         (trace w ++ GenerateContent content prompt None
                       :: escalation_trace content 0 k)
         content (alternative_prompt (Z.of_nat k))
         (Some (retry_temperature (Z.of_nat k))) = inl e) ->
  let out := generate_with_retry env content prompt 3 w in
  fst out
  = inl (HTTPException 422
           ("Content flagged as potentially copyrighted. Try using a different file or customizing the prompt. Original error: "
            +:+ exn_str e0) None)
  /\ trace (snd out)
     = trace w ++
       [GenerateContent content prompt None;
        GenerateContent content alternative_prompt_0 (Some (retry_temperature 0));
        Sleep 1;
        GenerateContent content alternative_prompt_1 (Some (retry_temperature 1));
        Sleep 1;
        GenerateContent content alternative_prompt_2 (Some (retry_temperature 2))]
  /\ generation_calls (trace (snd out)) = (generation_calls (trace w) + 4)%nat.
Proof.
  intros Horig Hrec Hfail out.
  pose proof (escalate_exhausted env content (exn_str e0) 3 2 0
                (log (GenerateContent content prompt None) w) eq_refl) as Hesc.
  destruct Hesc as (Hres & Htr & _).
  { intros k Hk. destruct (Hfail k ltac:(lia)) as [e He]. exists e.
    cbn [trace log]. rewrite <- app_assoc. exact He. }
  subst out. rewrite (generate_with_retry_refused _ _ _ _ _ _ Horig Hrec).
  change (Z.to_nat 3) with 3%nat.
  destruct (escalate _ _ _ _ _ _ _) as [[e|[r|]] w'] eqn:Heq;
    cbn in Hres; try discriminate. cbn [fst snd] in *.
  injection Hres as ->. split; [reflexivity|].
  assert (Htrace : trace w'
                   = trace w ++
                     [GenerateContent content prompt None;
                      GenerateContent content alternative_prompt_0 (Some (retry_temperature 0));
                      Sleep 1;
                      GenerateContent content alternative_prompt_1 (Some (retry_temperature 1));
                      Sleep 1;
                      GenerateContent content alternative_prompt_2 (Some (retry_temperature 2))]).
  { rewrite Htr. cbn [trace log]. rewrite <- app_assoc. reflexivity. }
  split; [exact Htrace|].
  rewrite Htrace. unfold generation_calls. rewrite count_events_app. reflexivity.
Qed.

Lemma generate_with_retry_exhausted_witness :
  let out := generate_with_retry refusing_env sample_file "Convert this PDF." 3 empty_world in
  fst out
  = inl (HTTPException 422
           ("Content flagged as potentially copyrighted. Try using a different file or customizing the prompt. Original error: "
            +:+ exn_str recitation_error) None)
  /\ trace (snd out)
     = trace empty_world ++
       [GenerateContent sample_file "Convert this PDF." None;
        GenerateContent sample_file alternative_prompt_0 (Some (retry_temperature 0));
        Sleep 1;
        GenerateContent sample_file alternative_prompt_1 (Some (retry_temperature 1));
        Sleep 1;
        GenerateContent sample_file alternative_prompt_2 (Some (retry_temperature 2))]
  /\ generation_calls (trace (snd out)) = (generation_calls (trace empty_world) + 4)%nat.
Proof.
  apply (generate_with_retry_exhausted refusing_env sample_file
           "Convert this PDF." empty_world recitation_error).
  - reflexivity.
  - vm_compute. reflexivity.
  - intros k _. exists recitation_error. reflexivity.
Defined.

(** C2. When the original call is refused on recitation grounds,
    escalation attempts 1 and 2 fail and attempt 3 succeeds,
    [generate_with_retry] returns the response of attempt 3; that attempt
    is made with the third alternative prompt (rephrase and restructure)
    at temperature 0.8, and four generation calls are made in all. *)
Theorem generate_with_retry_third_attempt env content prompt w e0 e1 e2 response :
  generate_content env (trace w) content prompt None = inl e0 ->
  is_recitation (exn_str e0) = true ->
  generate_content env
    (trace w ++ [GenerateContent content prompt None])
    content alternative_prompt_0 (Some (retry_temperature 0)) = inl e1 ->
  generate_content env
    (trace w ++ [GenerateContent content prompt None;
                 GenerateContent content alternative_prompt_0 (Some (retry_temperature 0));
                 Sleep 1])
    content alternative_prompt_1 (Some (retry_temperature 1)) = inl e2 ->
  generate_content env
    (trace w ++ [GenerateContent content prompt None;
                 GenerateContent content alternative_prompt_0 (Some (retry_temperature 0));
                 Sleep 1;
                 GenerateContent content alternative_prompt_1 (Some (retry_temperature 1));
                 Sleep 1])
    content alternative_prompt_2 (Some 0.8%float) = inr response ->
  let out := generate_with_retry env content prompt 3 w in
  fst out = inr response
  /\ trace (snd out)
     = trace w ++
       [GenerateContent content prompt None;
        GenerateContent content alternative_prompt_0 (Some (retry_temperature 0));
        Sleep 1;
        GenerateContent content alternative_prompt_1 (Some (retry_temperature 1));
        Sleep 1;
        GenerateContent content alternative_prompt_2 (Some 0.8%float)]
  /\ generation_calls (trace (snd out)) = (generation_calls (trace w) + 4)%nat.
Proof.
  intros Horig Hrec H1 H2 H3 out. subst out.
  rewrite (generate_with_retry_refused _ _ _ _ _ _ Horig Hrec).
  change (Z.to_nat 3) with 3%nat.
  rewrite escalate_S. cbn zeta. cbn [trace log]. change (alternative_prompt 0) with alternative_prompt_0.
  rewrite H1. change (0 =? 3 - 1) with false. cbv iota.
  rewrite escalate_S. cbn zeta. cbn [trace log advance].
  rewrite <- !app_assoc. cbn [app].
  change (0 + 1) with 1. change (alternative_prompt 1) with alternative_prompt_1.
  rewrite H2. change (1 =? 3 - 1) with false. cbv iota.
  rewrite escalate_S. cbn zeta. cbn [trace log advance].
  rewrite <- !app_assoc. cbn [app].
  change (1 + 1) with 2. change (alternative_prompt 2) with alternative_prompt_2.
  change (retry_temperature 2) with 0.8%float.
  rewrite H3. norm_trace.
  split; [reflexivity|]. split; [reflexivity|].
  unfold generation_calls. rewrite count_events_app. reflexivity.
Qed.

Lemma generate_with_retry_third_attempt_witness :
  let out := generate_with_retry (refusing_until 3) sample_file "Convert this PDF." 3 empty_world in
  fst out = inr {| text := inr "<html></html>" |}
  /\ trace (snd out)
     = trace empty_world ++
       [GenerateContent sample_file "Convert this PDF." None;
        GenerateContent sample_file alternative_prompt_0 (Some (retry_temperature 0));
        Sleep 1;
        GenerateContent sample_file alternative_prompt_1 (Some (retry_temperature 1));
        Sleep 1;
        GenerateContent sample_file alternative_prompt_2 (Some 0.8%float)]
  /\ generation_calls (trace (snd out)) = (generation_calls (trace empty_world) + 4)%nat.
Proof.
  apply (generate_with_retry_third_attempt (refusing_until 3) sample_file
           "Convert this PDF." empty_world
           recitation_error recitation_error recitation_error).
  - reflexivity.
  - vm_compute. reflexivity.
  - reflexivity.
  - reflexivity.
  - reflexivity.
Defined.

(** X25. When the text of the first failure passes neither half of the
    test at the head of the retry branch, that is, it holds no
    [RECITATION] and does not hold both [finish_reason] and a [4],
    [generate_with_retry] raises that very error and makes no escalation
    attempt: one generation call in all, whatever the retry budget. *)
Theorem generate_with_retry_no_escalation env content prompt max_retries w e0 :
  generate_content env (trace w) content prompt None = inl e0 ->
  is_recitation (exn_str e0) = false ->
  let out := generate_with_retry env content prompt max_retries w in
  fst out = inl e0
  /\ trace (snd out) = trace w ++ [GenerateContent content prompt None]
  /\ generation_calls (trace (snd out)) = (generation_calls (trace w) + 1)%nat.
Proof.
  intros Horig Hrec out. subst out.
  rewrite (generate_with_retry_other _ _ _ _ _ _ Horig Hrec).
  cbn [fst snd trace log]. split; [reflexivity|]. split; [reflexivity|].
  unfold generation_calls. rewrite count_events_app. reflexivity.
Qed.

Lemma generate_with_retry_no_escalation_witness :
  let out := generate_with_retry unavailable_env sample_file "Convert this PDF." 3 empty_world in
  fst out = inl (Error "503 Service Unavailable")
  /\ trace (snd out)
     = trace empty_world ++ [GenerateContent sample_file "Convert this PDF." None]
  /\ generation_calls (trace (snd out)) = (generation_calls (trace empty_world) + 1)%nat.
Proof.
  apply (generate_with_retry_no_escalation unavailable_env sample_file
           "Convert this PDF." 3 empty_world (Error "503 Service Unavailable")).
  - reflexivity.
  - vm_compute. reflexivity.
Defined.

(** C3, on a call the code can receive.  The first call fails because
    the candidate was stopped on safety grounds, which has nothing to do
    with recitation; the text of the error names the finish reason and
    holds a 4 in its count of tokens, and that is all the test looks for.
    The failure is not passed on: the escalation loop is entered.  With a
    model that answers the next call, [generate_with_retry] returns that
    answer, made from the first alternative prompt, after two generation
    calls; with a model that stops every candidate it makes four calls and
    raises the 422 that reports content flagged as copyrighted instead of
    the error it met. *)
Theorem safety_stop_escalates :
  is_recitation (exn_str safety_stop) = true
  /\ PyStr.contains "RECITATION" (exn_str safety_stop) = false
  /\ (let out := generate_with_retry stopped_once sample_file "Convert this PDF." 3
                   empty_world in
      fst out = inr {| text := inr "<html></html>" |}
      /\ trace (snd out)
         = [GenerateContent sample_file "Convert this PDF." None;
            GenerateContent sample_file alternative_prompt_0 (Some 0.4%float)]
      /\ generation_calls (trace (snd out)) = 2%nat)
  /\ (let out := generate_with_retry stopped_env sample_file "Convert this PDF." 3
                   empty_world in
      fst out = inl (content_flagged (exn_str safety_stop))
      /\ fst out <> inl safety_stop
      /\ generation_calls (trace (snd out)) = 4%nat).
Proof.
  split; [vm_compute; reflexivity|]. split; [vm_compute; reflexivity|].
  split; cbv zeta.
  - split; [vm_compute; reflexivity|]. split; vm_compute; reflexivity.
  - split; [vm_compute; reflexivity|]. split; [|vm_compute; reflexivity].
    vm_compute. discriminate.
Qed.

(** ** Tokens *)

Lemma timegm_add_seconds t s :
  Jose.timegm (t + s * 1000000) = Jose.timegm t + s.
Proof. unfold Jose.timegm. rewrite Z.div_add by lia. reflexivity. Qed.

Lemma timedelta_30_minutes :
  timedelta_minutes ACCESS_TOKEN_EXPIRE_MINUTES = 1800 * 1000000.
Proof. reflexivity. Qed.

(** The claims of a token minted for [api_key] at time [now]. *)
Lemma minted_claims_sub api_key expire :
  (Jose.to_json <$> <["exp" := VDatetime expire]> ({["sub" := VStr api_key]} : gmap string Value))
    !! "sub" = Some (VStr api_key).
Proof.
  rewrite lookup_fmap, lookup_insert_ne by discriminate.
  rewrite lookup_singleton_eq. reflexivity.
Qed.

Lemma minted_claims_exp (data : gmap string Value) expire :
  (Jose.to_json <$> <["exp" := VDatetime expire]> data) !! "exp"
  = Some (VInt (Jose.timegm expire)).
Proof. rewrite lookup_fmap, lookup_insert_eq. reflexivity. Qed.

Lemma create_access_token_30 data w :
  create_access_token data (Some (timedelta_minutes ACCESS_TOKEN_EXPIRE_MINUTES)) w
  = (inr (Jose.Signed
            (Jose.to_json <$> <["exp" := VDatetime (clock w + 1800 * 1000000)]> data)
            SECRET_KEY ALGORITHM), w).
Proof. reflexivity. Qed.

(** What [jwt.decode] can answer: a [JWTError], or the claims of a token
    signed with the key presented, not yet expired, whose subject, if it
    has one, is a string. *)
Lemma decode_cases now token key algorithms :
  (exists message, Jose.decode now token key algorithms = inl (JWTError message))
  \/ (exists claims algorithm,
        token = Jose.Signed claims key algorithm
        /\ Jose.decode now token key algorithms = inr claims
        /\ Jose.validate_exp now claims = inr tt
        /\ Jose.validate_sub claims = inr tt).
Proof.
  destruct token as [claims signing_key algorithm|raw]; cbn [Jose.decode];
    [|left; eauto].
  destruct (negb (existsb _ algorithms)); [left; eauto|].
  destruct (String.eqb signing_key key) eqn:Hkey; cbn [negb]; [|left; eauto].
  apply String.eqb_eq in Hkey as ->.
  destruct (Jose.validate_exp now claims) as [e|[]] eqn:Hexp.
  { left. unfold Jose.validate_exp in Hexp.
    destruct (claims !! "exp") as [[s|exp|t]|]; try destruct (_ <? _);
      inversion Hexp; eauto. }
  destruct (Jose.validate_sub claims) as [e|[]] eqn:Hsub.
  { left. unfold Jose.validate_sub in Hsub.
    destruct (claims !! "sub") as [[s|n|t]|]; inversion Hsub; eauto. }
  right. exists claims, algorithm. auto.
Qed.

(** The verifier has two outcomes only: the subject of the token, or the
    one 401; and it leaves the world as it found it. *)
Lemma get_current_api_key_outcomes token w :
  (exists api_key, get_current_api_key token w = (inr api_key, w))
  \/ get_current_api_key token w = (inl credentials_exception, w).
Proof.
  unfold get_current_api_key, bind, try, utcnow, lift.
  destruct (decode_cases (clock w) token SECRET_KEY [ALGORITHM])
    as [[message ->]|(claims & algorithm & _ & -> & _ & Hsub)].
  - right. reflexivity.
  - unfold Jose.validate_sub in Hsub.
    destruct (claims !! "sub") as [[s|n|t]|]; try discriminate.
    + left. exists s. reflexivity.
    + right. reflexivity.
Qed.

(** C5. A token issued for a credential, with the subject and the
    lifetime the [/token] endpoint gives it, verifies to that same
    credential when it is checked at once, and at any time whose second
    comes before the second of issue plus 1800. *)
Theorem token_round_trip (api_key : string) (w w2 : World) :
  Jose.timegm (clock w2) < Jose.timegm (clock w) + 1800 ->
  exists token w1,
    create_access_token {["sub" := VStr api_key]}
      (Some (timedelta_minutes ACCESS_TOKEN_EXPIRE_MINUTES)) w = (inr token, w1)
    /\ clock w1 = clock w
    /\ get_current_api_key token w2 = (inr api_key, w2).
Proof.
  intros Hfresh. eexists _, w. rewrite create_access_token_30.
  split; [reflexivity|]. split; [reflexivity|].
  unfold get_current_api_key, bind, try, utcnow, lift.
  cbn [Jose.decode]. change (existsb _ [ALGORITHM]) with true.
  change (String.eqb SECRET_KEY SECRET_KEY) with true. cbn [negb].
  unfold Jose.validate_exp, Jose.validate_sub.
  rewrite minted_claims_exp, minted_claims_sub, timegm_add_seconds.
  replace (_ <? _) with true by (symmetry; apply Z.ltb_lt; lia).
  reflexivity.
Qed.

(** Past its lifetime the same token is refused. *)
Lemma token_expires (api_key : string) (w w2 : World) :
  Jose.timegm (clock w) + 1800 < Jose.timegm (clock w2) ->
  exists token,
    fst (create_access_token {["sub" := VStr api_key]}
           (Some (timedelta_minutes ACCESS_TOKEN_EXPIRE_MINUTES)) w) = inr token
    /\ get_current_api_key token w2 = (inl credentials_exception, w2).
Proof.
  intros Hlate. eexists. rewrite create_access_token_30.
  split; [reflexivity|].
  unfold get_current_api_key, bind, try, utcnow, lift.
  cbn [Jose.decode]. change (existsb _ [ALGORITHM]) with true.
  change (String.eqb SECRET_KEY SECRET_KEY) with true. cbn [negb].
  unfold Jose.validate_exp.
  rewrite minted_claims_exp, timegm_add_seconds.
  replace (_ <? _) with false by (symmetry; apply Z.ltb_ge; lia).
  reflexivity.
Qed.

Lemma token_round_trip_witness :
  exists token w1,
    create_access_token {["sub" := VStr "AIza-example-key"]}
      (Some (timedelta_minutes ACCESS_TOKEN_EXPIRE_MINUTES)) empty_world = (inr token, w1)
    /\ clock w1 = clock empty_world
    /\ get_current_api_key token empty_world = (inr "AIza-example-key", empty_world).
Proof.
  apply (token_round_trip "AIza-example-key" empty_world empty_world).
  vm_compute. reflexivity.
Defined.

(** C6. A token that is invalid, whether it was signed with another
    secret, is malformed, has expired or carries no subject, makes
    [get_current_api_key] raise one and the same HTTP 401, with the same
    detail and headers whatever the cause, and nothing else happens. *)
Theorem get_current_api_key_uniform token w :
  Invalid (clock w) token ->
  get_current_api_key token w
  = (inl (HTTPException 401 "Could not validate credentials"
            (Some [("WWW-Authenticate", "Bearer")])), w).
Proof.
  intros Hinv.
  destruct (get_current_api_key_outcomes token w) as [[api_key Hok]|Hko];
    [exfalso|exact Hko].
  revert Hok. unfold get_current_api_key, bind, try, utcnow, lift.
  destruct (decode_cases (clock w) token SECRET_KEY [ALGORITHM])
    as [[message ->]|(claims & algorithm & Htok & -> & Hexp & Hsub)];
    [discriminate|].
  destruct Hinv as [c k a Hkey|raw|c k a exp Hlook Hle|c k a Hnone];
    try discriminate; injection Htok as -> -> ->.
  - congruence.
  - unfold Jose.validate_exp in Hexp. rewrite Hlook in Hexp.
    replace (_ <? _) with false in Hexp by (symmetry; apply Z.ltb_ge; lia).
    discriminate.
  - rewrite Hnone. discriminate.
Qed.

Lemma get_current_api_key_uniform_witness :
  get_current_api_key
    (Jose.Signed {["sub" := VStr "AIza-example-key"; "exp" := VInt 1]} SECRET_KEY ALGORITHM)
    (advance 1 empty_world)
  = (inl (HTTPException 401 "Could not validate credentials"
            (Some [("WWW-Authenticate", "Bearer")])), advance 1 empty_world).
Proof.
  apply get_current_api_key_uniform.
  apply (expired _ _ _ _ 1); [reflexivity | vm_compute; discriminate].
Defined.

(** C7. When the probe of the credential succeeds, [/token] answers with
    the token-type label [bearer] and a token signed with the server's
    secret under HS256, whose subject is the credential and whose expiry
    is the time of issue plus 30 minutes: 1800 seconds past the second of
    issue once encoded. *)
Theorem get_access_token_issues env (api_key : string) w :
  list_models env (trace w ++ [Configure api_key]) = inr tt ->
  exists claims w1,
    get_access_token env api_key w
    = (inr {| access_token := Jose.Signed claims SECRET_KEY "HS256";
              token_type := "bearer" |}, w1)
    /\ Jose.Signed claims SECRET_KEY "HS256"
       = Jose.encode
           (<["exp" := VDatetime (clock w + timedelta_minutes 30)]>
              {["sub" := VStr api_key]})
           "09d25e094faa6ca2556c818166b7a9563b93f7099f6f0f4caa6cf63b88e8d3e7" "HS256"
    /\ claims !! "sub" = Some (VStr api_key)
    /\ claims !! "exp" = Some (VInt (Jose.timegm (clock w) + 30 * 60))
    /\ dom claims = {["sub"; "exp"]}.
Proof.
  intros Hprobe. unfold get_access_token, bind at 1, try, bind at 1.
  unfold genai_configure, emit, call. cbn [trace log]. rewrite Hprobe.
  unfold bind. rewrite create_access_token_30.
  eexists _, _. split; [reflexivity|]. split; [reflexivity|].
  split; [apply minted_claims_sub|].
  split; [rewrite minted_claims_exp; norm_trace; rewrite timegm_add_seconds; reflexivity|].
  rewrite dom_fmap_L, dom_insert_L, dom_singleton_L. set_solver.
Qed.

Lemma get_access_token_issues_witness :
  exists claims w1,
    get_access_token obliging_env "AIza-example-key" empty_world
    = (inr {| access_token := Jose.Signed claims SECRET_KEY "HS256";
              token_type := "bearer" |}, w1)
    /\ Jose.Signed claims SECRET_KEY "HS256"
       = Jose.encode
           (<["exp" := VDatetime (clock empty_world + timedelta_minutes 30)]>
              {["sub" := VStr "AIza-example-key"]})
           "09d25e094faa6ca2556c818166b7a9563b93f7099f6f0f4caa6cf63b88e8d3e7" "HS256"
    /\ claims !! "sub" = Some (VStr "AIza-example-key")
    /\ claims !! "exp" = Some (VInt (Jose.timegm (clock empty_world) + 30 * 60))
    /\ dom claims = {["sub"; "exp"]}.
Proof.
  apply (get_access_token_issues obliging_env "AIza-example-key" empty_world).
  reflexivity.
Defined.

(** ** File names *)

Lemma length_take n s :
  String.length (PyStr.take n s) = Nat.min n (String.length s).
Proof.
  revert s; induction n as [|n IH]; intros [|c s]; simpl; try reflexivity.
  rewrite IH. reflexivity.
Qed.

Lemma length_append s1 s2 :
  String.length (s1 +:+ s2) = (String.length s1 + String.length s2)%nat.
Proof. induction s1 as [|c s1 IH]; simpl; [reflexivity | rewrite IH; reflexivity]. Qed.

Lemma take_drop n s : PyStr.take n s +:+ PyStr.drop n s = s.
Proof.
  revert s; induction n as [|n IH]; intros [|c s]; try reflexivity.
  change (String c (PyStr.take n s +:+ PyStr.drop n s) = String c s).
  f_equal. apply IH.
Qed.

Lemma slice_join s k : PyStr.slice_to s k +:+ PyStr.slice_from s k = s.
Proof. apply take_drop. Qed.

Lemma append_empty_r s : s +:+ "" = s.
Proof.
  induction s as [|c s IH]; [reflexivity|].
  change (String c (s +:+ "") = String c s). f_equal. exact IH.
Qed.

(** [splitext] cuts its argument in two and loses nothing. *)
Lemma splitext_join p :
  fst (OsPath.splitext p) +:+ snd (OsPath.splitext p) = p.
Proof.
  unfold OsPath.splitext.
  destruct (_ <? _); [destruct (OsPath.skip_leading_dots _ _ _ _)|]; cbn [fst snd];
    try apply slice_join; apply append_empty_r.
Qed.

Lemma len_slice_to_le s k : 0 <= k -> PyStr.len (PyStr.slice_to s k) <= k.
Proof.
  intros Hk. unfold PyStr.len, PyStr.slice_to, PyStr.bound.
  rewrite length_take. destruct (k <? 0) eqn:Hneg; lia.
Qed.

Lemma len_append s1 s2 : PyStr.len (s1 +:+ s2) = PyStr.len s1 + PyStr.len s2.
Proof. unfold PyStr.len. rewrite length_append. lia. Qed.

Lemma len_nonneg s : 0 <= PyStr.len s.
Proof. unfold PyStr.len. lia. Qed.

(** The shortened name fits the limit, whatever the limit (from 0 on). *)
Lemma shorten_filename_length filename max_length :
  0 <= max_length ->
  PyStr.len (shorten_filename filename max_length) <= max_length.
Proof.
  intros Hmax. unfold shorten_filename.
  destruct (PyStr.len filename <=? max_length) eqn:Hshort; [lia|].
  destruct (OsPath.splitext filename) as [name ext].
  destruct (max_length - PyStr.len ext <=? 0) eqn:Hext.
  - apply len_slice_to_le, Hmax.
  - rewrite len_append.
    pose proof (len_slice_to_le name (max_length - PyStr.len ext)). lia.
Qed.

Lemma shorten_filename_short filename max_length :
  PyStr.len filename <= max_length ->
  shorten_filename filename max_length = filename.
Proof.
  intros Hshort. unfold shorten_filename.
  replace (_ <=? _) with true by (symmetry; apply Z.leb_le; exact Hshort).
  reflexivity.
Qed.

(** A name that is too long keeps its extension when the extension
    leaves room for at least one character of the name; the result then
    fills the limit exactly. *)
Lemma shorten_filename_keeps_ext filename max_length :
  max_length < PyStr.len filename ->
  PyStr.len (snd (OsPath.splitext filename)) < max_length ->
  shorten_filename filename max_length
  = PyStr.slice_to (fst (OsPath.splitext filename))
      (max_length - PyStr.len (snd (OsPath.splitext filename)))
    +:+ snd (OsPath.splitext filename)
  /\ PyStr.len (shorten_filename filename max_length) = max_length.
Proof.
  intros Hlong Hext. unfold shorten_filename.
  replace (PyStr.len filename <=? max_length) with false
    by (symmetry; apply Z.leb_gt; exact Hlong).
  pose proof (splitext_join filename) as Hjoin.
  destruct (OsPath.splitext filename) as [name ext]. cbn [fst snd] in *.
  replace (_ <=? 0) with false by (symmetry; apply Z.leb_gt; lia).
  split; [reflexivity|].
  rewrite len_append. unfold PyStr.len, PyStr.slice_to, PyStr.bound in *.
  rewrite length_take. rewrite <- Hjoin, length_append in Hlong.
  destruct (_ <? 0) eqn:Hneg; lia.
Qed.

Section Emits.

Context (P : Event -> Prop).

Lemma emits_nothing {A} (m : M A) :
  (forall w, trace (snd (m w)) = trace w) -> emits P m.
Proof. intros H w. exists []. rewrite app_nil_r. auto. Qed.

Lemma emits_ret {A} (a : A) : emits P (ret a).
Proof. apply emits_nothing. reflexivity. Qed.

Lemma emits_raise {A} e : emits P (@raise A e).
Proof. apply emits_nothing. reflexivity. Qed.

Lemma emits_lift {A} (r : Exn + A) : emits P (lift r).
Proof. apply emits_nothing. reflexivity. Qed.

Lemma emits_utcnow : emits P utcnow.
Proof. apply emits_nothing. reflexivity. Qed.

Lemma emits_write_file path : emits P (write_file path).
Proof. apply emits_nothing. reflexivity. Qed.

Lemma emits_open_and_write path : emits P (open_and_write path).
Proof.
  apply emits_nothing. intros w. unfold open_and_write.
  destruct (open_error path); reflexivity.
Qed.

Lemma emits_os_path_exists path : emits P (os_path_exists path).
Proof. apply emits_nothing. reflexivity. Qed.

Lemma emits_os_remove path : emits P (os_remove path).
Proof.
  apply emits_nothing. intros w. unfold os_remove.
  destruct (bool_decide _); reflexivity.
Qed.

Lemma emits_add_task t : emits P (add_task t).
Proof. apply emits_nothing. reflexivity. Qed.

Lemma emits_emit ev : P ev -> emits P (emit ev).
Proof. intros H w. exists [ev]. auto. Qed.

Lemma emits_call {A} (answer : list Event -> Exn + A) ev :
  P ev -> emits P (call answer ev).
Proof. intros H w. exists [ev]. auto. Qed.

Lemma emits_sleep seconds : P (Sleep seconds) -> emits P (sleep seconds).
Proof. intros H w. exists [Sleep seconds]. auto. Qed.

Lemma emits_bind {A B} (m : M A) (k : A -> M B) :
  emits P m -> (forall a, emits P (k a)) -> emits P (bind m k).
Proof.
  intros Hm Hk w. unfold bind.
  destruct (Hm w) as (evs1 & Htr1 & H1).
  destruct (m w) as [[e|a] w1]; cbn [snd] in *; [eauto|].
  destruct (Hk a w1) as (evs2 & Htr2 & H2).
  exists (evs1 ++ evs2). rewrite Htr2, Htr1, app_assoc.
  split; [reflexivity | apply Forall_app; auto].
Qed.

Lemma emits_bind_ret {A B} (a : A) (k : A -> M B) :
  emits P (k a) -> emits P (bind (ret a) k).
Proof. intros H w. exact (H w). Qed.

Lemma emits_bind_raise {A B} e (k : A -> M B) : emits P (bind (raise e) k).
Proof. apply emits_nothing. reflexivity. Qed.

(** The same, when what the continuation may emit depends on how the
    first part went. *)
Lemma emits_bind_dep {A B} (m : M A) (k : A -> M B) :
  emits P m ->
  (forall a, (exists w w1, m w = (inr a, w1)) -> emits P (k a)) ->
  emits P (bind m k).
Proof.
  intros Hm Hk w. unfold bind.
  destruct (Hm w) as (evs1 & Htr1 & H1).
  destruct (m w) as [[e|a] w1] eqn:Hrun; cbn [snd] in *; [eauto|].
  destruct (Hk a (ex_intro _ w (ex_intro _ w1 Hrun)) w1) as (evs2 & Htr2 & H2).
  exists (evs1 ++ evs2). rewrite Htr2, Htr1, app_assoc.
  split; [reflexivity | apply Forall_app; auto].
Qed.

Lemma emits_try {A} (m : M A) : emits P m -> emits P (try m).
Proof.
  intros Hm w. unfold try. destruct (Hm w) as (evs & Htr & H).
  destruct (m w) as [r w1]. eauto.
Qed.

Lemma emits_finally {A} (m : M A) (f : M unit) :
  emits P m -> emits P f -> emits P (finally m f).
Proof.
  intros Hm Hf w. unfold finally.
  destruct (Hm w) as (evs1 & Htr1 & H1).
  destruct (m w) as [r w1]; cbn [snd] in *.
  destruct (Hf w1) as (evs2 & Htr2 & H2).
  exists (evs1 ++ evs2).
  destruct (f w1) as [[e|[]] w2]; cbn [snd] in *;
    rewrite Htr2, Htr1, app_assoc; (split; [reflexivity | apply Forall_app; auto]).
Qed.

End Emits.

Lemma emits_weaken (P Q : Event -> Prop) {A} (m : M A) :
  (forall ev, P ev -> Q ev) -> emits P m -> emits Q m.
Proof.
  intros HPQ Hm w. destruct (Hm w) as (evs & Htr & H).
  exists evs. split; [exact Htr | eapply Forall_impl; eauto].
Qed.

Lemma count_events_none p evs :
  Forall (fun ev => p ev = false) evs -> count_events p evs = O.
Proof. induction 1 as [|ev evs Hev _ IH]; simpl; [reflexivity | rewrite Hev, IH; reflexivity]. Qed.

Lemma emits_count p {A} (m : M A) w :
  emits (fun ev => p ev = false) m ->
  count_events p (trace (snd (m w))) = count_events p (trace w).
Proof.
  intros Hm. destruct (Hm w) as (evs & -> & H).
  rewrite count_events_app, (count_events_none _ _ H). lia.
Qed.

(** Taking a handler apart, one construct at a time. *)
Ltac emits_step :=
  lazymatch goal with
  | |- emits _ (bind (ret _) _) => apply emits_bind_ret
  | |- emits _ (bind (raise _) _) => apply emits_bind_raise
  | |- emits _ (bind _ _) => apply emits_bind; [|intros ?]
  | |- emits _ (try _) => apply emits_try
  | |- emits _ (finally _ _) => apply emits_finally
  | |- emits _ (ret _) => apply emits_ret
  | |- emits _ (raise _) => apply emits_raise
  | |- emits _ (lift _) => apply emits_lift
  | |- emits _ utcnow => apply emits_utcnow
  | |- emits _ (write_file _) => apply emits_write_file
  | |- emits _ (open_and_write _) => apply emits_open_and_write
  | |- emits _ (os_path_exists _) => apply emits_os_path_exists
  | |- emits _ (os_remove _) => apply emits_os_remove
  | |- emits _ (add_task _) => apply emits_add_task
  | |- emits _ (emit _) => apply emits_emit
  | |- emits _ (call _ _) => apply emits_call
  | |- emits _ (sleep _) => apply emits_sleep
  | |- emits _ (match ?x with _ => _ end) => destruct x
  end.

Ltac emits_auto := repeat emits_step.

Lemma emits_remove_if_exists P path : emits P (remove_if_exists path).
Proof. unfold remove_if_exists. emits_auto. Qed.

Lemma emits_remove_all P paths : emits P (remove_all paths).
Proof.
  induction paths as [|path rest IH]; cbn [remove_all]; emits_auto.
  - apply emits_remove_if_exists.
  - exact IH.
Qed.

Lemma emits_file_exists_in_api env display_name api_key :
  emits local_event (file_exists_in_api env display_name api_key).
Proof. unfold file_exists_in_api, genai_configure. emits_auto; split; reflexivity. Qed.

Lemma emits_save_upload env api_key file shortened_filename :
  emits local_event (save_upload env api_key file shortened_filename).
Proof.
  unfold save_upload. emits_auto; try (split; reflexivity).
  apply emits_file_exists_in_api.
Qed.

Lemma emits_save_uploads env api_key files :
  forall filenames temp_file_paths,
    emits local_event (save_uploads env api_key files filenames temp_file_paths).
Proof.
  induction files as [|file rest IH]; intros filenames temp_file_paths;
    cbn [save_uploads]; emits_auto.
  - apply emits_save_upload.
  - apply emits_remove_all.
  - apply IH.
Qed.

(** ** The pre-flight loop *)

Lemma existsb_eqb_elem_of (x : string) (l : list string) :
  x ∈ l -> existsb (String.eqb x) l = true.
Proof.
  intros Hin. apply existsb_exists. exists x.
  split; [apply list_elem_of_In, Hin | apply String.eqb_refl].
Qed.

(** The collision check runs the listing once and answers from it. *)
Lemma file_exists_in_api_run env display_name api_key w :
  file_exists_in_api env display_name api_key w
  = (inr match list_files env (trace w ++ [Configure api_key]) with
         | inr files_list => existsb (String.eqb display_name) files_list
         | inl _ => false
         end,
     log ListFiles (log (Configure api_key) w)).
Proof.
  unfold file_exists_in_api, bind, try, genai_configure, emit, call.
  cbn [trace log]. destruct (list_files env _); reflexivity.
Qed.

Lemma save_upload_collision env api_key file shortened_filename w :
  (forall h, exists names,
      list_files env h = inr names /\ shortened_filename ∈ names) ->
  save_upload env api_key file shortened_filename w
  = (inl (duplicate_name shortened_filename),
     log ListFiles (log (Configure api_key) w)).
Proof.
  intros Hlisted. unfold save_upload, bind.
  rewrite file_exists_in_api_run.
  destruct (Hlisted (trace w ++ [Configure api_key])) as (names & -> & Hin).
  rewrite (existsb_eqb_elem_of _ _ Hin). reflexivity.
Qed.

(** Each pass through the [try] of the first loop lists the files of the
    File API exactly once. *)
Lemma save_upload_lists_once env api_key file shortened_filename w :
  count_events is_list_files (trace (snd (save_upload env api_key file shortened_filename w)))
  = S (count_events is_list_files (trace w)).
Proof.
  unfold save_upload. unfold bind at 1. rewrite file_exists_in_api_run.
  match goal with |- context [if ?b then _ else _] => destruct b end.
  - cbn [raise snd trace log]. rewrite !count_events_app. simpl. lia.
  - rewrite emits_count.
    + cbn [trace log]. rewrite !count_events_app. simpl. lia.
    + emits_auto; reflexivity.
Qed.

Lemma remove_all_trace paths w : trace (snd (remove_all paths w)) = trace w.
Proof.
  destruct (emits_remove_all (fun _ => False) paths w) as (evs & Htr & Hnone).
  destruct evs as [|ev evs]; [rewrite Htr; apply app_nil_r|].
  inversion Hnone; contradiction.
Qed.

(** One turn of the first loop. *)
Lemma save_uploads_cons env api_key file rest filenames temp_file_paths w :
  save_uploads env api_key (file :: rest) filenames temp_file_paths w
  = match save_upload env api_key file (shorten_filename (filename file) 40) w with
    | (inr temp_file_path, w1) =>
        save_uploads env api_key rest
          (filenames ++ [shorten_filename (filename file) 40])
          (temp_file_paths ++ [temp_file_path]) w1
    | (inl e, w1) =>
        match remove_all temp_file_paths w1 with
        | (inl e', w2) => (inl e', w2)
        | (inr _, w2) =>
            (inl (HTTPException 500
                    ("Error processing " +:+ filename file +:+ ": " +:+ exn_str e)
                    None), w2)
        end
    end.
Proof.
  cbn [save_uploads]. unfold bind at 1, try.
  destruct (save_upload env api_key file _ w) as [[e|path] w1]; [|reflexivity].
  unfold bind. destruct (remove_all temp_file_paths w1) as [[e'|[]] w2]; reflexivity.
Qed.

(** A document whose shortened name is listed by the File API stops the
    first loop: the loop raises, and the documents after it are never
    checked. *)
Lemma save_uploads_collision env api_key file after :
  (forall h, exists names,
      list_files env h = inr names /\ shorten_filename (filename file) 40 ∈ names) ->
  forall before filenames temp_file_paths w,
    let out := save_uploads env api_key (before ++ file :: after)
                 filenames temp_file_paths w in
    (exists e, fst out = inl e)
    /\ (count_events is_list_files (trace (snd out))
        <= count_events is_list_files (trace w) + length before + 1)%nat.
Proof.
  intros Hlisted.
  induction before as [|doc before IH]; intros filenames temp_file_paths w out;
    subst out; cbn [app length]; rewrite save_uploads_cons.
  - rewrite (save_upload_collision _ _ _ _ _ Hlisted).
    pose proof (remove_all_trace temp_file_paths
                  (log ListFiles (log (Configure api_key) w))) as Htr.
    destruct (remove_all temp_file_paths _) as [[e|[]] w1]; cbn [fst snd] in *;
      (split; [eauto|]); rewrite Htr; cbn [trace log];
      rewrite !count_events_app; simpl; lia.
  - pose proof (save_upload_lists_once env api_key doc
                  (shorten_filename (filename doc) 40) w) as Hone.
    destruct (save_upload env api_key doc _ w) as [[e|path] w1]; cbn [snd] in Hone.
    + pose proof (remove_all_trace temp_file_paths w1) as Htr.
      destruct (remove_all temp_file_paths w1) as [[e'|[]] w2]; cbn [fst snd] in *;
        (split; [eauto|]); rewrite Htr; lia.
    + specialize (IH (filenames ++ [shorten_filename (filename doc) 40])
                     (temp_file_paths ++ [path]) w1).
      cbn zeta in IH. destruct IH as [Hfail Hcount]. split; [exact Hfail|]. lia.
Qed.

(** C4, as the code has it.  When the File API lists the shortened name
    of one of the documents, the request fails in the pre-flight loop:
    nothing is uploaded, no generation call is made, and the documents
    that come after the colliding one are not even checked.  Documents of
    one request are checked against the File API only, not against one
    another. *)
Theorem collision_aborts_before_upload env before file after prompt
    background return_html api_key w :
  (forall h, exists names,
      list_files env h = inr names /\ shorten_filename (filename file) 40 ∈ names) ->
  let out := convert_files env (before ++ file :: after) prompt background
               return_html api_key w in
  (exists e, fst out = inl e)
  /\ upload_calls (trace (snd out)) = upload_calls (trace w)
  /\ generation_calls (trace (snd out)) = generation_calls (trace w)
  /\ (count_events is_list_files (trace (snd out))
      <= count_events is_list_files (trace w) + length before + 1)%nat.
Proof.
  intros Hlisted out.
  destruct (save_uploads_collision env api_key file after Hlisted before [] [] w)
    as [[e He] Hcount].
  pose proof (emits_count is_upload (save_uploads env api_key (before ++ file :: after) [] []) w) as Hup.
  pose proof (emits_count is_generate (save_uploads env api_key (before ++ file :: after) [] []) w) as Hgen.
  assert (Hout : out = (inl e, snd (save_uploads env api_key (before ++ file :: after) [] [] w))).
  { subst out. unfold convert_files.
    destruct (before ++ file :: after) as [|f fs] eqn:Hfiles;
      [destruct before; discriminate|].
    unfold bind at 1.
    destruct (save_uploads env api_key (f :: fs) [] [] w) as [[e'|saved] w1];
      cbn [fst snd] in *; congruence. }
  rewrite Hout. cbn [fst snd]. split; [eauto|].
  split; [|split; [|exact Hcount]].
  - apply Hup. eapply emits_weaken; [|apply emits_save_uploads].
    intros ev [H _]; exact H.
  - apply Hgen. eapply emits_weaken; [|apply emits_save_uploads].
    intros ev [_ H]; exact H.
Qed.

Lemma collision_aborts_before_upload_witness :
  let out := convert_files (file_api ["b.pdf"])
               ([ {| filename := "a.pdf" |} ] ++ {| filename := "b.pdf" |}
                  :: [ {| filename := "c.pdf" |} ])
               "" false true "KEY" empty_world in
  (exists e, fst out = inl e)
  /\ upload_calls (trace (snd out)) = upload_calls (trace empty_world)
  /\ generation_calls (trace (snd out)) = generation_calls (trace empty_world)
  /\ (count_events is_list_files (trace (snd out))
      <= count_events is_list_files (trace empty_world) + length [ {| filename := "a.pdf" |} ] + 1)%nat.
Proof.
  apply (collision_aborts_before_upload (file_api ["b.pdf"])
           [ {| filename := "a.pdf" |} ] {| filename := "b.pdf" |}
           [ {| filename := "c.pdf" |} ] "" false true "KEY" empty_world).
  intros h. exists ("b.pdf" :: uploaded_names h). split; [reflexivity|].
  change (shorten_filename (filename {| filename := "b.pdf" |}) 40) with "b.pdf".
  apply list_elem_of_here.
Defined.

(** Two documents submitted together under one name, to a File API that
    holds no file of that name: both pass the pre-flight loop, both are
    uploaded, and the request succeeds. *)
Lemma same_name_twice_not_refused :
  ~ refused_as_duplicate (file_api [])
      [ {| filename := "a.pdf" |}; {| filename := "a.pdf" |} ]
      "" false true "KEY" empty_world.
Proof.
  unfold refused_as_duplicate. intros [(detail & headers & Hfail) _].
  vm_compute in Hfail. discriminate.
Qed.

Example same_name_twice_uploaded :
  let out := convert_files (file_api [])
               [ {| filename := "a.pdf" |}; {| filename := "a.pdf" |} ]
               "" false true "KEY" empty_world in
  (exists response, fst out = inr response
                    /\ filenames response = ["a.pdf"; "a.pdf"])
  /\ upload_calls (trace (snd out)) = 4%nat.
Proof. vm_compute. eauto. Qed.

(** A name the File API already holds is refused, but the 400 raised for
    it is caught by the loop's own [except Exception] and leaves as a 500. *)
Example collision_reported_as_500 :
  exists detail,
    fst (convert_files (file_api ["a.pdf"]) [ {| filename := "a.pdf" |} ]
           "" false true "KEY" empty_world)
    = inl (HTTPException 500 detail None).
Proof. vm_compute. eauto. Qed.

(** ** The processing loops *)

Lemma emits_escalate P env content error_str max_retries :
  (forall c p t, P (GenerateContent c p t)) -> P (Sleep 1) ->
  forall remaining attempt,
    emits P (escalate env content error_str max_retries remaining attempt).
Proof.
  intros Hgen Hsleep.
  induction remaining as [|remaining IH]; intros attempt; cbn [escalate];
    unfold model_generate; emits_auto; auto.
Qed.

Lemma emits_generate_with_retry P env content prompt max_retries :
  (forall c p t, P (GenerateContent c p t)) -> P (Sleep 1) ->
  emits P (generate_with_retry env content prompt max_retries).
Proof.
  intros Hgen Hsleep. unfold generate_with_retry, model_generate.
  emits_auto; auto. apply emits_escalate; auto.
Qed.

Lemma emits_generate_and_store P env prompt temp_file_path shortened_filename :
  P (GenaiUploadFile temp_file_path shortened_filename "application/pdf") ->
  (forall html_temp_path,
      P (GenaiUploadFile html_temp_path
           (fst (OsPath.splitext shortened_filename) +:+ ".html") "text/html")) ->
  (forall c p t, P (GenerateContent c p t)) -> P (Sleep 1) ->
  P (NamedTemporaryFile ".html") ->
  emits P (generate_and_store env prompt temp_file_path shortened_filename).
Proof.
  intros Hpdf Hhtml Hgen Hsleep Htmp.
  unfold generate_and_store, genai_upload_file, named_temporary_file.
  emits_auto; auto. apply emits_generate_with_retry; auto.
Qed.

(** The conditional removal never raises. *)
Lemma remove_if_exists_returns path w :
  fst (remove_if_exists path w) = inr tt.
Proof.
  unfold remove_if_exists, bind, os_path_exists, os_remove.
  destruct (bool_decide (path ∈ fs w)) eqn:Hex; [rewrite Hex|]; reflexivity.
Qed.

Lemma remove_if_exists_gone path w :
  path ∉ fs (snd (remove_if_exists path w)).
Proof.
  unfold remove_if_exists, bind, os_path_exists, os_remove.
  destruct (bool_decide (path ∈ fs w)) eqn:Hex.
  - rewrite Hex. cbn [snd fs set_fs].
    apply not_elem_of_difference. right. apply elem_of_singleton. reflexivity.
  - cbn [snd ret]. apply bool_decide_eq_false in Hex. exact Hex.
Qed.

(** One turn of the background loop on a document whose name is found.
    The outcome of the shared steps decides only whether a line is
    printed; the loop goes on either way, from the world the [finally]
    clause leaves. *)
Lemma process_each_cons env prompt filenames i temp_file_path rest bound name w :
  filenames !! i = Some name ->
  process_each env prompt filenames i (temp_file_path :: rest) bound w
  = let '(r, w1) := generate_and_store env prompt temp_file_path name w in
    let w2 := match r with
              | inr _ => w1
              | inl e => log (Print ("Error processing file " +:+ name +:+ ": "
                                     +:+ exn_str e)) w1
              end in
    process_each env prompt filenames (S i) rest (Some name)
      (snd (remove_if_exists temp_file_path w2)).
Proof.
  intros Hname. cbn [process_each]. rewrite Hname.
  unfold bind at 1, finally, bind at 1, try, index. rewrite Hname.
  unfold bind at 1. cbn [ret].
  destruct (generate_and_store env prompt temp_file_path name w) as [[e|r] w1];
    cbn [emit ret].
  - pose proof (remove_if_exists_returns temp_file_path
                  (log (Print ("Error processing file " +:+ name +:+ ": " +:+ exn_str e)) w1)) as Hrm.
    destruct (remove_if_exists temp_file_path _) as [[e'|[]] w3];
      cbn [fst snd] in *; [discriminate | reflexivity].
  - pose proof (remove_if_exists_returns temp_file_path w1) as Hrm.
    destruct (remove_if_exists temp_file_path w1) as [[e'|[]] w3];
      cbn [fst snd] in *; [discriminate | reflexivity].
Qed.

(** The background loop returns normally whatever happens to its
    documents, as long as every path has a name. *)
Lemma process_each_returns env prompt filenames :
  forall temp_file_paths i bound w,
    (i + length temp_file_paths <= length filenames)%nat ->
    fst (process_each env prompt filenames i temp_file_paths bound w) = inr tt.
Proof.
  induction temp_file_paths as [|path rest IH]; intros i bound w Hlen;
    [reflexivity|].
  cbn [length] in Hlen.
  destruct (lookup_lt_is_Some_2 filenames i ltac:(lia)) as [name Hname].
  rewrite (process_each_cons _ _ _ _ _ _ _ _ _ Hname).
  destruct (generate_and_store env prompt path name w) as [r w1].
  cbn zeta. apply IH. lia.
Qed.

Lemma emits_process_each P env prompt filenames :
  (forall ev, P ev) ->
  forall temp_file_paths i bound,
    emits P (process_each env prompt filenames i temp_file_paths bound).
Proof.
  intros HP.
  induction temp_file_paths as [|path rest IH]; intros i bound;
    cbn [process_each]; unfold index; emits_auto; auto.
  - apply emits_generate_and_store; auto.
  - apply emits_remove_if_exists.
Qed.

(** A document whose processing raises gets its line printed, right
    after the call that failed. *)
Lemma process_each_failure_logged env prompt filenames i path rest bound name e w w1 :
  filenames !! i = Some name ->
  generate_and_store env prompt path name w = (inl e, w1) ->
  exists later,
    trace (snd (process_each env prompt filenames i (path :: rest) bound w))
    = trace w1
      ++ Print ("Error processing file " +:+ name +:+ ": " +:+ exn_str e) :: later.
Proof.
  intros Hname Hfail.
  rewrite (process_each_cons _ _ _ _ _ _ _ _ _ Hname), Hfail. cbn zeta.
  match goal with |- context [process_each _ _ _ _ _ _ ?w2] => set (w3 := w2) end.
  destruct (emits_process_each (fun _ => True) env prompt filenames (fun _ => I)
              rest (S i) (Some name) w3) as (evs & -> & _).
  destruct (emits_remove_if_exists (fun _ => True) path
              (log (Print ("Error processing file " +:+ name +:+ ": " +:+ exn_str e)) w1))
    as (evs' & Htr & _).
  subst w3. rewrite Htr. cbn [trace log]. exists (evs' ++ evs).
  rewrite <- !app_assoc. reflexivity.
Qed.

(** The background loop on a list of paths is the loop on its first
    part followed by the loop on the rest. *)
Lemma process_each_app env prompt filenames :
  forall done rest i bound w,
    (i + length done <= length filenames)%nat ->
    exists bound',
      process_each env prompt filenames i (done ++ rest) bound w
      = process_each env prompt filenames (i + length done) rest bound'
          (snd (process_each env prompt filenames i done bound w)).
Proof.
  induction done as [|path done IH]; intros rest i bound w Hlen.
  - exists bound. cbn [app length process_each ret snd]. rewrite Nat.add_0_r.
    reflexivity.
  - cbn [length] in Hlen.
    destruct (lookup_lt_is_Some_2 filenames i ltac:(lia)) as [name Hname].
    change ((path :: done) ++ rest) with (path :: (done ++ rest)).
    rewrite !(process_each_cons _ _ _ _ _ _ _ _ _ Hname).
    destruct (generate_and_store env prompt path name w) as [r w1]. cbn zeta.
    cbn [length]. rewrite Nat.add_succ_r. apply IH. lia.
Qed.

(** What a task does with its document number [k] when the shared steps
    raise on it: the line for that document is printed next. *)
Lemma run_task_failure_logged env t k path name e w w3 :
  (length (task_temp_file_paths t) <= length (task_filenames t))%nat ->
  task_temp_file_paths t !! k = Some path ->
  task_filenames t !! k = Some name ->
  generate_and_store env (task_prompt t) path name (before_document env t k w)
  = (inl e, w3) ->
  exists later,
    trace (snd (run_task env t w))
    = trace w3
      ++ Print ("Error processing file " +:+ name +:+ ": " +:+ exn_str e) :: later.
Proof.
  intros Hlen Hpath Hname Hfail.
  unfold run_task, before_document, process_pdf_from_paths, bind, genai_configure,
    emit in *.
  pose proof (lookup_lt_Some _ _ _ Hpath) as Hk.
  pose proof (take_drop_middle _ _ _ Hpath) as Hsplit.
  destruct (process_each_app env (task_prompt t) (task_filenames t)
              (take k (task_temp_file_paths t))
              (path :: drop (S k) (task_temp_file_paths t)) 0 None
              (log (Configure (task_api_key t)) w)) as [bound' Happ].
  { rewrite length_take_le; lia. }
  rewrite Hsplit in Happ. rewrite Happ.
  rewrite length_take_le by lia. cbn [Nat.add].
  exact (process_each_failure_logged _ _ _ _ _ _ _ _ _ _ _ Hname Hfail).
Qed.

(** The result of a pre-flight loop that went through. *)
Lemma save_uploads_result env api_key files :
  forall filenames temp_file_paths w filenames' temp_file_paths' w',
    save_uploads env api_key files filenames temp_file_paths w
    = (inr (filenames', temp_file_paths'), w') ->
    filenames' = filenames ++ map (fun f => shorten_filename (filename f) 40) files
    /\ length temp_file_paths' = (length temp_file_paths + length files)%nat.
Proof.
  induction files as [|file rest IH]; intros fn tp w fn' tp' w' Hrun.
  - injection Hrun as <- <- <-. cbn. rewrite app_nil_r. split; [reflexivity | lia].
  - rewrite save_uploads_cons in Hrun.
    destruct (save_upload env api_key file _ w) as [[e|path] w1].
    + destruct (remove_all tp w1) as [[e'|[]] w2]; discriminate.
    + apply IH in Hrun as [-> ->]. rewrite <- app_assoc, length_app. cbn.
      split; [reflexivity | lia].
Qed.

(** C8. A request made in background mode that passes the pre-flight
    loop is answered with the shortened names of its N documents, in
    order, before any upload or generation call has been made: the work
    is only scheduled.  The scheduled task, whenever it is run and
    whatever the collaborators then do, returns normally; and when the
    processing of one of its documents raises, the trace of that run of
    the task holds, right after the call that failed, the printed line
    that names the document and the error, and the run goes on. *)
Theorem background_submission env files prompt return_html api_key w response w' :
  convert_files env files prompt true return_html api_key w = (inr response, w') ->
  filenames response = map (fun f => shorten_filename (filename f) 40) files
  /\ length (filenames response) = length files
  /\ html response = None /\ file_uris response = None
  /\ generation_calls (trace w') = generation_calls (trace w)
  /\ upload_calls (trace w') = upload_calls (trace w)
  /\ exists task,
       last (background_tasks w') = Some task
       /\ task_filenames task = filenames response
       /\ length (task_temp_file_paths task) = length files
       /\ forall env' w2,
            fst (run_task env' task w2) = inr tt
            /\ forall k path name e w3,
                 task_temp_file_paths task !! k = Some path ->
                 task_filenames task !! k = Some name ->
                 generate_and_store env' (task_prompt task) path name
                   (before_document env' task k w2) = (inl e, w3) ->
                 exists later,
                   trace (snd (run_task env' task w2))
                   = trace w3
                     ++ Print ("Error processing file " +:+ name +:+ ": "
                               +:+ exn_str e) :: later.
Proof.
  intros Hrun. unfold convert_files in Hrun.
  destruct files as [|file rest]; [discriminate|].
  unfold bind at 1 in Hrun.
  pose proof (emits_count is_upload
                (save_uploads env api_key (file :: rest) [] []) w) as Hup.
  pose proof (emits_count is_generate
                (save_uploads env api_key (file :: rest) [] []) w) as Hgen.
  destruct (save_uploads env api_key (file :: rest) [] [] w)
    as [[e|[names paths]] w1] eqn:Hsave; [discriminate|].
  apply save_uploads_result in Hsave as [Hnames Hpaths].
  cbn [app length] in Hnames, Hpaths.
  unfold bind, add_task, ret in Hrun. injection Hrun as <- <-.
  cbn [filenames html file_uris trace background_tasks snd] in *.
  split; [exact Hnames|]. split; [rewrite Hnames, length_map; reflexivity|].
  split; [reflexivity|]. split; [reflexivity|].
  split; [apply Hgen; eapply emits_weaken; [|apply emits_save_uploads];
          intros ev [_ H]; exact H|].
  split; [apply Hup; eapply emits_weaken; [|apply emits_save_uploads];
          intros ev [H _]; exact H|].
  eexists. split; [apply last_snoc|]. cbn [task_filenames task_temp_file_paths task_prompt].
  split; [reflexivity|]. split; [exact Hpaths|].
  assert (Hlen : (length paths <= length names)%nat)
    by (rewrite Hnames, length_map, Hpaths; cbn; lia).
  intros env' w2. split.
  - unfold run_task, process_pdf_from_paths, bind, genai_configure, emit.
    cbn [task_temp_file_paths task_filenames task_prompt].
    apply process_each_returns. cbn [Nat.add]. exact Hlen.
  - intros k path name e w3 Hpath Hname Hfail.
    apply (run_task_failure_logged env' _ k path name e w2 w3); assumption.
Qed.

Lemma background_submission_witness :
  exists response w' task,
    convert_files (file_api [])
      [ {| filename := "a.pdf" |}; {| filename := "b.pdf" |} ]
      "" true true "KEY" empty_world = (inr response, w')
    /\ filenames response = ["a.pdf"; "b.pdf"]
    /\ generation_calls (trace w') = O
    /\ last (background_tasks w') = Some task
    /\ fst (run_task unavailable_env task w') = inr tt
    /\ exists w3 later,
         generate_and_store unavailable_env "" "temp_7_b.pdf" "b.pdf"
           (before_document unavailable_env task 1 w')
         = (inl (Error "503 Service Unavailable"), w3)
         /\ trace (snd (run_task unavailable_env task w'))
            = trace w3
              ++ Print "Error processing file b.pdf: 503 Service Unavailable" :: later.
Proof.
  eexists _, _, _.
  match goal with
  | |- ?run = (inr ?r, ?w1) /\ _ =>
      assert (Hrun : run = (inr r, w1)) by (vm_compute; reflexivity)
  end.
  split; [exact Hrun|].
  destruct (background_submission _ _ _ _ _ _ _ _ Hrun)
    as (Hnames & _ & _ & _ & Hgen & _ & task & Hlast & _ & _ & Htask).
  vm_compute in Hlast. injection Hlast as <-.
  split; [exact Hnames|]. split; [exact Hgen|]. split; [vm_compute; reflexivity|].
  match goal with
  | |- fst (run_task _ _ ?w1) = _ /\ _ =>
      destruct (Htask unavailable_env w1) as [Hret Hlog]
  end.
  split; [exact Hret|].
  match goal with
  | |- exists w3 later, ?run = (?r, w3) /\ _ =>
      assert (Hfail : exists w3, run = (r, w3)) by (eexists; vm_compute; reflexivity)
  end.
  destruct Hfail as [w3 Hfail]. exists w3.
  destruct (Hlog 1%nat "temp_7_b.pdf" "b.pdf" _ _ eq_refl eq_refl Hfail)
    as [later Hlater].
  exists later. split; [exact Hfail | exact Hlater].
Defined.

(** ** Display names *)

Lemma local_event_names_uploads names ev :
  local_event ev -> names_uploads names ev.
Proof. intros [Hup _]. destruct ev; try exact I. discriminate. Qed.

Lemma emits_named_generate_and_store env prompt names path name :
  name ∈ names ->
  emits (names_uploads names) (generate_and_store env prompt path name).
Proof.
  intros Hin. apply emits_generate_and_store; cbn; eauto.
Qed.

Lemma emits_named_process_each env prompt names :
  forall temp_file_paths i bound,
    emits (names_uploads names) (process_each env prompt names i temp_file_paths bound).
Proof.
  induction temp_file_paths as [|path rest IH]; intros i bound;
    cbn [process_each]; [apply emits_ret|].
  unfold index. destruct (names !! i) as [name|] eqn:Hname.
  - apply list_elem_of_lookup_2 in Hname.
    emits_auto; try exact I; auto using emits_named_generate_and_store,
      emits_remove_if_exists.
  - emits_auto; try exact I; auto using emits_remove_if_exists.
Qed.

Lemma emits_named_convert_each env prompt return_html names :
  forall temp_file_paths i bound html_results file_uris,
    emits (names_uploads names)
      (convert_each env prompt return_html names i temp_file_paths bound
         html_results file_uris).
Proof.
  induction temp_file_paths as [|path rest IH];
    intros i bound html_results file_uris; cbn [convert_each]; [apply emits_ret|].
  unfold index. destruct (names !! i) as [name|] eqn:Hname.
  - apply list_elem_of_lookup_2 in Hname.
    emits_auto; try exact I; auto using emits_named_generate_and_store,
      emits_remove_if_exists.
  - emits_auto; try exact I; auto using emits_remove_if_exists.
Qed.

Lemma emits_named_run_task env t :
  emits (names_uploads (task_filenames t)) (run_task env t).
Proof.
  unfold run_task, process_pdf_from_paths, genai_configure.
  emits_auto; [exact I | apply emits_named_process_each].
Qed.

Lemma convert_files_filenames env files prompt background return_html api_key w response w' :
  convert_files env files prompt background return_html api_key w = (inr response, w') ->
  filenames response = map (fun f => shorten_filename (filename f) 40) files.
Proof.
  intros Hrun. unfold convert_files in Hrun.
  destruct files as [|file rest]; [discriminate|].
  unfold bind at 1 in Hrun.
  destruct (save_uploads env api_key (file :: rest) [] [] w)
    as [[e|[names paths]] w1] eqn:Hsave; [discriminate|].
  apply save_uploads_result in Hsave as [-> _].
  destruct background.
  - unfold bind, add_task, ret in Hrun. injection Hrun as <- <-. reflexivity.
  - unfold bind at 1, genai_configure, emit in Hrun. unfold bind at 1 in Hrun.
    destruct (convert_each _ _ _ _ _ _ _ _ _ _) as [[e|[html_results uris]] w2];
      [discriminate|].
    unfold ret in Hrun. injection Hrun as <- <-. reflexivity.
Qed.

Lemma emits_named_convert_files env files prompt background return_html api_key :
  emits (names_uploads (map (fun f => shorten_filename (filename f) 40) files))
    (convert_files env files prompt background return_html api_key).
Proof.
  unfold convert_files. destruct files as [|file rest]; [apply emits_raise|].
  set (names := map _ (file :: rest)).
  apply emits_bind_dep.
  - eapply emits_weaken; [apply local_event_names_uploads | apply emits_save_uploads].
  - intros [filenames paths] (w & w1 & Hsave).
    apply save_uploads_result in Hsave as [Hnames _]. cbn [app] in Hnames.
    fold names in Hnames. subst filenames. cbv iota.
    destruct background; unfold genai_configure; emits_auto; try exact I.
    apply emits_named_convert_each.
Qed.

(** The listing is searched for the shortened name: a File API that holds
    a file under the long name as submitted does not stop the request,
    one that holds a file under the shortened name does. *)
Example long_name_not_looked_up :
  let long := "0123456789012345678901234567890123456789extra.pdf" in
  (exists response,
      fst (convert_files (file_api [long]) [ {| filename := long |} ]
             "" true true "KEY" empty_world) = inr response)
  /\ (exists e,
      fst (convert_files (file_api [shorten_filename long 40]) [ {| filename := long |} ]
             "" true true "KEY" empty_world) = inl e).
Proof. vm_compute. eauto. Qed.

(** ** Temporary files *)

(** After its turn in either loop, the local copy of a document is gone. *)
Lemma finally_remove_gone {A} (m : M A) path w :
  path ∉ fs (snd (finally m (remove_if_exists path) w)).
Proof.
  unfold finally. destruct (m w) as [r w1].
  pose proof (remove_if_exists_gone path w1) as Hgone.
  destruct (remove_if_exists path w1) as [[e|[]] w2]; exact Hgone.
Qed.

(** C9, on a request the code can receive.  Two documents are submitted
    in background mode to a File API that refuses HTML uploads.  The
    task returns normally and the local copies of the two PDFs are gone,
    but the HTML file written for the first document is still on disk
    when the second document is uploaded, and both HTML files are left
    behind when the task ends: [os.remove(html_temp_path)] is reached
    only when the upload before it succeeds. *)
Theorem html_temp_file_left_behind :
  exists response w1 task,
    convert_files html_store_down
      [ {| filename := "a.pdf" |}; {| filename := "b.pdf" |} ]
      "" true true "KEY" empty_world = (inr response, w1)
    /\ last (background_tasks w1) = Some task
    /\ let out := run_task html_store_down task w1 in
       fst out = inr tt
       /\ elements (fs (snd out)) = ["/tmp/tmp11.html"; "/tmp/tmp16.html"]
       /\ exists before after,
            trace (snd out)
            = before
              ++ GenaiUploadFile "/tmp/tmp11.html" "a.html" "text/html"
              :: Print "Error processing file a.pdf: 503 Service Unavailable"
              :: GenaiUploadFile "temp_7_b.pdf" "b.pdf" "application/pdf"
              :: after.
Proof.
  eexists _, _, _. split; [vm_compute; reflexivity|].
  split; [vm_compute; reflexivity|].
  cbv zeta. split; [vm_compute; reflexivity|].
  split; [vm_compute; reflexivity|].
  eexists (_ :: _ :: _ :: _ :: _ :: _ :: _ :: _ :: _ :: _ :: _ :: _ :: []), _.
  vm_compute. reflexivity.
Qed.

(** The same File API met in synchronous mode: the request fails on the
    first document, whose HTML file stays on disk, and so does the local
    copy of the second document, which is never processed. *)
Example synchronous_failure_leaves_files :
  let out := convert_files html_store_down
               [ {| filename := "a.pdf" |}; {| filename := "b.pdf" |} ]
               "" false true "KEY" empty_world in
  fst out = inl (HTTPException 500 "Error processing a.pdf: 503 Service Unavailable" None)
  /\ elements (fs (snd out)) = ["/tmp/tmp11.html"; "temp_7_b.pdf"].
Proof. vm_compute. split; reflexivity. Qed.

(** * Further properties *)

(** ** Worlds a handler leaves alone *)

Section Keeps.

Context (R : World -> World -> Prop) `{!PreOrder R}.

Lemma keeps_same {A} (m : M A) : (forall w, snd (m w) = w) -> keeps R m.
Proof. intros H w. rewrite H. reflexivity. Qed.

Lemma keeps_ret {A} (a : A) : keeps R (ret a).
Proof. apply keeps_same. reflexivity. Qed.

Lemma keeps_raise {A} e : keeps R (@raise A e).
Proof. apply keeps_same. reflexivity. Qed.

Lemma keeps_lift {A} (r : Exn + A) : keeps R (lift r).
Proof. apply keeps_same. reflexivity. Qed.

Lemma keeps_utcnow : keeps R utcnow.
Proof. apply keeps_same. reflexivity. Qed.

Lemma keeps_os_path_exists path : keeps R (os_path_exists path).
Proof. apply keeps_same. reflexivity. Qed.

Lemma keeps_emit ev : (forall w, R w (log ev w)) -> keeps R (emit ev).
Proof. intros H w. apply H. Qed.

Lemma keeps_call {A} (answer : list Event -> Exn + A) ev :
  (forall w, R w (log ev w)) -> keeps R (call answer ev).
Proof. intros H w. apply H. Qed.

Lemma keeps_sleep seconds :
  (forall w, R w (log (Sleep seconds) (advance seconds w))) ->
  keeps R (sleep seconds).
Proof. intros H w. apply H. Qed.

Lemma keeps_bind {A B} (m : M A) (k : A -> M B) :
  keeps R m -> (forall a, keeps R (k a)) -> keeps R (bind m k).
Proof.
  intros Hm Hk w. unfold bind. specialize (Hm w).
  destruct (m w) as [[e|a] w1]; cbn [snd] in *; [exact Hm|].
  etransitivity; [exact Hm | apply Hk].
Qed.

Lemma keeps_bind_ret {A B} (a : A) (k : A -> M B) :
  keeps R (k a) -> keeps R (bind (ret a) k).
Proof. intros H w. exact (H w). Qed.

Lemma keeps_bind_raise {A B} e (k : A -> M B) : keeps R (bind (raise e) k).
Proof. apply keeps_same. reflexivity. Qed.

Lemma keeps_try {A} (m : M A) : keeps R m -> keeps R (try m).
Proof. intros Hm w. unfold try. specialize (Hm w). destruct (m w); exact Hm. Qed.

Lemma keeps_finally {A} (m : M A) (f : M unit) :
  keeps R m -> keeps R f -> keeps R (finally m f).
Proof.
  intros Hm Hf w. unfold finally. specialize (Hm w).
  destruct (m w) as [r w1]; cbn [snd] in *. specialize (Hf w1).
  destruct (f w1) as [[e|[]] w2]; cbn [snd] in *; etransitivity; eauto.
Qed.

End Keeps.

Ltac keeps_step :=
  lazymatch goal with
  | |- keeps _ (bind (ret _) _) => apply keeps_bind_ret
  | |- keeps _ (bind (raise _) _) => apply keeps_bind_raise; exact _
  | |- keeps _ (bind _ _) => apply keeps_bind; [exact _ .. | | intros ?]
  | |- keeps _ (try _) => apply keeps_try
  | |- keeps _ (finally _ _) => apply keeps_finally; [exact _ .. | | ]
  | |- keeps _ (ret _) => apply keeps_ret; exact _
  | |- keeps _ (raise _) => apply keeps_raise; exact _
  | |- keeps _ (lift _) => apply keeps_lift; exact _
  | |- keeps _ utcnow => apply keeps_utcnow; exact _
  | |- keeps _ (os_path_exists _) => apply keeps_os_path_exists; exact _
  | |- keeps _ (emit _) => apply keeps_emit; intros ?
  | |- keeps _ (call _ _) => apply keeps_call; intros ?
  | |- keeps _ (sleep _) => apply keeps_sleep; intros ?
  | |- keeps _ (match ?x with _ => _ end) => destruct x
  end.

Ltac keeps_auto := repeat keeps_step.

#[local] Instance same_disk_preorder : PreOrder same_disk.
Proof.
  split.
  - intros w. split; reflexivity.
  - intros w1 w2 w3 [Hfs12 Hbt12] [Hfs23 Hbt23]. split; congruence.
Qed.

#[local] Instance same_tasks_preorder : PreOrder same_tasks.
Proof.
  split.
  - intros w. reflexivity.
  - intros w1 w2 w3 H12 H23. unfold same_tasks in *. congruence.
Qed.

Lemma keeps_disk_escalate env content error_str max_retries :
  forall remaining attempt,
    keeps same_disk (escalate env content error_str max_retries remaining attempt).
Proof.
  induction remaining as [|remaining IH]; intros attempt; cbn [escalate];
    unfold model_generate; keeps_auto; try (split; reflexivity). apply IH.
Qed.

Lemma keeps_disk_generate_with_retry env content prompt max_retries :
  keeps same_disk (generate_with_retry env content prompt max_retries).
Proof.
  unfold generate_with_retry, model_generate.
  keeps_auto; try (split; reflexivity). apply keeps_disk_escalate.
Qed.

(** ** More on the retry policy *)

Lemma count_events_snoc p h ev :
  count_events p (h ++ [ev]) = (count_events p h + if p ev then 1 else 0)%nat.
Proof. rewrite count_events_app. simpl. lia. Qed.

(** What the escalation loop costs at most: one call per iteration, and a
    second of waiting after every iteration but the last. *)
Lemma escalate_budget env content error_str max_retries :
  forall remaining attempt w,
    max_retries = attempt + Z.of_nat remaining ->
    let out := escalate env content error_str max_retries remaining attempt w in
    (generation_calls (trace w) <= generation_calls (trace (snd out))
     <= generation_calls (trace w) + remaining)%nat
    /\ clock w <= clock (snd out)
       <= clock w + Z.of_nat (Nat.pred remaining) * 1000000.
Proof.
  unfold generation_calls.
  induction remaining as [|remaining IH]; intros attempt w Hmax; cbv zeta.
  - cbn. lia.
  - rewrite escalate_S. cbn zeta.
    destruct (generate_content env (trace w) content _ _) as [e|response].
    + destruct (attempt =? max_retries - 1) eqn:Hlast.
      * cbn [fst snd trace clock log]. rewrite count_events_snoc. cbn [is_generate]. lia.
      * apply Z.eqb_neq in Hlast.
        specialize (IH (attempt + 1)
                       (log (Sleep 1) (advance 1 (log (GenerateContent content
                          (alternative_prompt attempt)
                          (Some (retry_temperature attempt))) w)))
                       ltac:(lia)).
        cbn zeta in IH. destruct IH as [Hcalls Hclock].
        cbn [trace clock log advance] in Hcalls, Hclock.
        rewrite !count_events_snoc in Hcalls. cbn [is_generate] in Hcalls.
        destruct remaining as [|remaining]; [lia|].
        cbn [Nat.pred] in *. split; lia.
    + cbn [fst snd trace clock log]. rewrite count_events_snoc. cbn [is_generate]. lia.
Qed.

(** X1. Whatever the model answers, one run of the retry policy makes at
    least one generation call and at most one more than its retry budget,
    and waits no longer than a second per retry but the last. *)
Theorem generate_with_retry_budget env content prompt max_retries w :
  let out := generate_with_retry env content prompt max_retries w in
  (generation_calls (trace w) + 1 <= generation_calls (trace (snd out))
   <= generation_calls (trace w) + 1 + Z.to_nat max_retries)%nat
  /\ clock w <= clock (snd out)
     <= clock w + Z.max 0 (max_retries - 1) * 1000000.
Proof.
  intros out. subst out.
  destruct (generate_content env (trace w) content prompt None) as [e0|response] eqn:Horig.
  - destruct (is_recitation (exn_str e0)) eqn:Hrec.
    + rewrite (generate_with_retry_refused _ _ _ _ _ _ Horig Hrec).
      destruct (Z.le_gt_cases max_retries 0) as [Hnone|Hsome].
      * replace (Z.to_nat max_retries) with O by lia. cbn [escalate ret].
        cbn [fst snd trace clock log]. unfold generation_calls.
        rewrite count_events_snoc. cbn [is_generate]. lia.
      * pose proof (escalate_budget env content (exn_str e0) max_retries
                      (Z.to_nat max_retries) 0
                      (log (GenerateContent content prompt None) w)
                      ltac:(lia)) as Hbudget.
        cbn zeta in Hbudget. destruct Hbudget as [Hcalls Hclock].
        cbn [trace clock log] in Hcalls, Hclock.
        unfold generation_calls in *. rewrite count_events_snoc in Hcalls.
        cbn [is_generate] in Hcalls.
        destruct (escalate _ _ _ _ _ _ _) as [[e|[r|]] w']; cbn [fst snd] in *; lia.
    + rewrite (generate_with_retry_other _ _ _ _ _ _ Horig Hrec).
      cbn [fst snd trace clock log]. unfold generation_calls.
      rewrite count_events_snoc. cbn [is_generate]. lia.
  - unfold generate_with_retry, bind, try, model_generate, call. rewrite Horig.
    cbn [ret fst snd trace clock log]. unfold generation_calls.
    rewrite count_events_snoc. cbn [is_generate]. lia.
Qed.

Lemma emits_retry_escalate env content prompt error_str max_retries :
  forall remaining attempt,
    0 <= attempt -> attempt + Z.of_nat remaining <= max_retries ->
    emits (retry_event content prompt max_retries)
      (escalate env content error_str max_retries remaining attempt).
Proof.
  induction remaining as [|remaining IH]; intros attempt Hlow Hhigh;
    cbn [escalate]; unfold model_generate; emits_auto.
  - cbn. split; [reflexivity|]. right. exists attempt.
    split; [lia | split; reflexivity].
  - reflexivity.
  - apply IH; lia.
Qed.

(** X2. One run of the retry policy only calls the model, always on the
    document it was given, with the caller's prompt at the default
    temperature or with an alternative prompt at that attempt's
    temperature, and pauses a second at a time; it touches neither the
    local files nor the scheduled tasks. *)
Theorem generate_with_retry_events env content prompt max_retries w :
  let out := generate_with_retry env content prompt max_retries w in
  (exists evs, trace (snd out) = trace w ++ evs
               /\ Forall (retry_event content prompt max_retries) evs)
  /\ fs (snd out) = fs w
  /\ background_tasks (snd out) = background_tasks w.
Proof.
  intros out. subst out. split; [|apply keeps_disk_generate_with_retry].
  revert w. fold (emits (retry_event content prompt max_retries)
                    (generate_with_retry env content prompt max_retries)).
  unfold generate_with_retry, model_generate. emits_auto.
  - cbn. auto.
  - destruct (Z.le_gt_cases max_retries 0) as [Hnone|Hsome].
    + replace (Z.to_nat max_retries) with O by lia. apply emits_ret.
    + apply emits_retry_escalate; lia.
Qed.

(** The escalation loop raises nothing but the terminal 422. *)
Lemma escalate_raises env content error_str max_retries :
  forall remaining attempt w e,
    fst (escalate env content error_str max_retries remaining attempt w) = inl e ->
    e = content_flagged error_str.
Proof.
  induction remaining as [|remaining IH]; intros attempt w e; [discriminate|].
  rewrite escalate_S. cbn zeta.
  destruct (generate_content env (trace w) content _ _) as [e'|response];
    [|discriminate].
  destruct (attempt =? max_retries - 1); [|apply IH].
  cbn [fst]. congruence.
Qed.

(** X3. When the retry policy raises, its first call had failed, and what
    it raises is either that first error itself or, if that error was a
    recitation refusal, the 422 built from its text: the errors of the
    escalation attempts never reach the caller. *)
Theorem generate_with_retry_raises env content prompt max_retries w e :
  fst (generate_with_retry env content prompt max_retries w) = inl e ->
  exists e0,
    generate_content env (trace w) content prompt None = inl e0
    /\ (e = e0
        \/ (is_recitation (exn_str e0) = true
            /\ e = HTTPException 422
                     ("Content flagged as potentially copyrighted. Try using a different file or customizing the prompt. Original error: "
                      +:+ exn_str e0) None)).
Proof.
  intros Hraise.
  destruct (generate_content env (trace w) content prompt None) as [e0|response] eqn:Horig.
  - exists e0. split; [reflexivity|].
    destruct (is_recitation (exn_str e0)) eqn:Hrec.
    + rewrite (generate_with_retry_refused _ _ _ _ _ _ Horig Hrec) in Hraise.
      destruct (escalate _ _ _ _ _ _ _) as [[e'|[r|]] w'] eqn:Hesc;
        cbn [fst] in Hraise; try discriminate.
      * right. split; [reflexivity|]. injection Hraise as <-.
        apply (escalate_raises env content (exn_str e0) max_retries
                 (Z.to_nat max_retries) 0
                 (log (GenerateContent content prompt None) w)).
        rewrite Hesc. reflexivity.
      * left. congruence.
    + rewrite (generate_with_retry_other _ _ _ _ _ _ Horig Hrec) in Hraise.
      left. cbn [fst] in Hraise. congruence.
  - unfold generate_with_retry, bind, try, model_generate, call in Hraise.
    rewrite Horig in Hraise. discriminate.
Qed.

Lemma generate_with_retry_raises_witness :
  exists e0,
    generate_content refusing_env (trace empty_world) sample_file
      "Convert this PDF." None = inl e0
    /\ (content_flagged (exn_str recitation_error) = e0
        \/ (is_recitation (exn_str e0) = true
            /\ content_flagged (exn_str recitation_error)
               = HTTPException 422
                   ("Content flagged as potentially copyrighted. Try using a different file or customizing the prompt. Original error: "
                    +:+ exn_str e0) None)).
Proof.
  apply (generate_with_retry_raises refusing_env sample_file "Convert this PDF."
           3 empty_world).
  vm_compute. reflexivity.
Defined.

(** An escalation attempt that succeeds ends the loop at once. *)
Lemma escalate_succeeds env content error_str max_retries response :
  forall (k remaining : nat) (attempt : Z) (w : World),
    (k < remaining)%nat ->
    attempt + Z.of_nat k < max_retries ->
    (forall j : nat, (j < k)%nat ->
       exists e,
         generate_content env (trace w ++ escalation_trace content attempt j)
           content (alternative_prompt (attempt + Z.of_nat j))
           (Some (retry_temperature (attempt + Z.of_nat j))) = inl e) ->
    generate_content env (trace w ++ escalation_trace content attempt k)
      content (alternative_prompt (attempt + Z.of_nat k))
      (Some (retry_temperature (attempt + Z.of_nat k))) = inr response ->
    let out := escalate env content error_str max_retries remaining attempt w in
    fst out = inr (Some response)
    /\ trace (snd out)
       = trace w ++ escalation_trace content attempt k
           ++ [GenerateContent content
                 (alternative_prompt (attempt + Z.of_nat k))
                 (Some (retry_temperature (attempt + Z.of_nat k)))]
    /\ clock (snd out) = clock w + Z.of_nat k * 1000000.
Proof.
  induction k as [|k IH]; intros remaining attempt w Hrem Hmax Hfail Hok;
    (destruct remaining as [|remaining]; [lia|]); cbv zeta; rewrite escalate_S;
    cbn zeta.
  - cbn [escalation_trace] in Hok. rewrite app_nil_r, Z.add_0_r in Hok.
    rewrite Hok. cbn [fst snd trace clock log escalation_trace app].
    rewrite Z.add_0_r. split; [reflexivity|]. split; [reflexivity | lia].
  - destruct (Hfail O ltac:(lia)) as [e He].
    cbn [escalation_trace] in He. rewrite app_nil_r, Z.add_0_r in He. rewrite He.
    replace (attempt =? max_retries - 1) with false by (symmetry; apply Z.eqb_neq; lia).
    match goal with |- context [escalate _ _ _ _ _ _ ?w1] => set (w1' := w1) end.
    specialize (IH remaining (attempt + 1) w1' ltac:(lia) ltac:(lia)).
    destruct IH as (Hres & Htr & Hclock).
    { intros j Hj. destruct (Hfail (S j) ltac:(lia)) as [e' He']. exists e'.
      subst w1'. cbn [trace log advance]. rewrite <- !app_assoc.
      cbn [app escalation_trace] in He' |- *.
      replace (attempt + 1 + Z.of_nat j) with (attempt + Z.of_nat (S j)) by lia.
      exact He'. }
    { subst w1'. cbn [trace log advance]. rewrite <- !app_assoc.
      cbn [app escalation_trace] in Hok |- *.
      replace (attempt + 1 + Z.of_nat k) with (attempt + Z.of_nat (S k)) by lia.
      exact Hok. }
    split; [exact Hres|]. split.
    + rewrite Htr. subst w1'. cbn [trace log advance escalation_trace].
      rewrite <- !app_assoc. cbn [app].
      replace (attempt + 1 + Z.of_nat k) with (attempt + Z.of_nat (S k)) by lia.
      reflexivity.
    + rewrite Hclock. subst w1'. cbn [clock log advance]. lia.
Qed.

(** X4. When the first call is refused on recitation grounds and the
    escalation attempts before attempt [k] fail, an answer at attempt [k]
    (counted from 0, below the retry budget) is returned at once: after
    [k + 2] generation calls and [k] seconds of waiting, with no pause
    before the first escalation. *)
Theorem generate_with_retry_succeeds_at env content prompt max_retries
    (k : nat) w e0 response :
  Z.of_nat k < max_retries ->
  generate_content env (trace w) content prompt None = inl e0 ->
  is_recitation (exn_str e0) = true ->
  (forall j : nat, (j < k)%nat ->
     exists e,
       generate_content env
         (trace w ++ GenerateContent content prompt None
                       :: escalation_trace content 0 j)
         content (alternative_prompt (Z.of_nat j))
         (Some (retry_temperature (Z.of_nat j))) = inl e) ->
  generate_content env
    (trace w ++ GenerateContent content prompt None :: escalation_trace content 0 k)
    content (alternative_prompt (Z.of_nat k))
    (Some (retry_temperature (Z.of_nat k))) = inr response ->
  let out := generate_with_retry env content prompt max_retries w in
  fst out = inr response
  /\ trace (snd out)
     = trace w ++ GenerateContent content prompt None
         :: escalation_trace content 0 k
         ++ [GenerateContent content (alternative_prompt (Z.of_nat k))
               (Some (retry_temperature (Z.of_nat k)))]
  /\ generation_calls (trace (snd out)) = (generation_calls (trace w) + k + 2)%nat
  /\ clock (snd out) = clock w + Z.of_nat k * 1000000.
Proof.
  intros Hk Horig Hrec Hfail Hok out. subst out.
  rewrite (generate_with_retry_refused _ _ _ _ _ _ Horig Hrec).
  destruct (escalate_succeeds env content (exn_str e0) max_retries response
              k (Z.to_nat max_retries) 0
              (log (GenerateContent content prompt None) w))
    as (Hres & Htr & Hclock); try lia.
  { intros j Hj. destruct (Hfail j Hj) as [e He]. exists e.
    cbn [trace log]. rewrite <- app_assoc. exact He. }
  { cbn [trace log]. rewrite <- app_assoc. exact Hok. }
  destruct (escalate _ _ _ _ _ _ _) as [[e|[r|]] w']; cbn [fst snd] in *;
    try discriminate.
  injection Hres as ->. split; [reflexivity|].
  assert (Htrace : trace w'
                   = trace w ++ GenerateContent content prompt None
                       :: escalation_trace content 0 k
                       ++ [GenerateContent content (alternative_prompt (Z.of_nat k))
                             (Some (retry_temperature (Z.of_nat k)))]).
  { rewrite Htr. cbn [trace log]. rewrite <- app_assoc. reflexivity. }
  split; [exact Htrace|]. split; [|rewrite Hclock; reflexivity].
  rewrite Htrace. unfold generation_calls.
  rewrite count_events_app. cbn [count_events is_generate].
  rewrite count_events_app.
  pose proof (generation_calls_escalation content 0 k) as Hesc.
  unfold generation_calls in Hesc. rewrite Hesc. cbn. lia.
Qed.

Lemma generate_with_retry_succeeds_at_witness :
  let out := generate_with_retry (refusing_until 2) sample_file
               "Convert this PDF." 3 empty_world in
  fst out = inr {| text := inr "<html></html>" |}
  /\ trace (snd out)
     = trace empty_world ++ GenerateContent sample_file "Convert this PDF." None
         :: escalation_trace sample_file 0 1
         ++ [GenerateContent sample_file (alternative_prompt (Z.of_nat 1))
               (Some (retry_temperature (Z.of_nat 1)))]
  /\ generation_calls (trace (snd out))
     = (generation_calls (trace empty_world) + 1 + 2)%nat
  /\ clock (snd out) = clock empty_world + Z.of_nat 1 * 1000000.
Proof.
  apply (generate_with_retry_succeeds_at (refusing_until 2) sample_file
           "Convert this PDF." 3 1 empty_world recitation_error).
  - reflexivity.
  - reflexivity.
  - vm_compute. reflexivity.
  - intros j Hj. exists recitation_error.
    destruct j as [|j]; [reflexivity | lia].
  - reflexivity.
Defined.

(** ** More on tokens *)

(** A token for [api_key] that expires at [expire], checked at the time
    of [w2]. *)
Lemma minted_token_checked (api_key : string) (expire : Z) (w2 : World) :
  let token := Jose.encode (<["exp" := VDatetime expire]> {["sub" := VStr api_key]})
                 SECRET_KEY ALGORITHM in
  (Jose.timegm (clock w2) < Jose.timegm expire ->
   get_current_api_key token w2 = (inr api_key, w2))
  /\ (Jose.timegm expire < Jose.timegm (clock w2) ->
      get_current_api_key token w2 = (inl credentials_exception, w2)).
Proof.
  cbv zeta. unfold get_current_api_key, bind, try, utcnow, lift, Jose.encode.
  cbn [Jose.decode]. change (existsb _ [ALGORITHM]) with true.
  change (String.eqb SECRET_KEY SECRET_KEY) with true. cbn [negb].
  unfold Jose.validate_exp, Jose.validate_sub.
  rewrite minted_claims_exp, minted_claims_sub.
  split; intros Htime.
  - replace (_ <? _) with true by (symmetry; apply Z.ltb_lt; lia). reflexivity.
  - replace (_ <? _) with false by (symmetry; apply Z.ltb_ge; lia). reflexivity.
Qed.

(** X5. A lifetime given to [create_access_token] whose expiry is an
    instant a [datetime] can hold is honoured: the token verifies to its
    subject while the clock's second is before the second of issue plus
    the lifetime, and is refused with the 401 once it is past it.  A
    negative lifetime of a second or more gives a token that is refused
    from the start. *)
Theorem create_access_token_lifetime (api_key : string) (delta : Z) (w w2 : World) :
  delta <> 0 ->
  representable (clock w + delta) ->
  exists token,
    create_access_token {["sub" := VStr api_key]} (Some delta) w = (inr token, w)
    /\ (Jose.timegm (clock w2) < Jose.timegm (clock w + delta) ->
        get_current_api_key token w2 = (inr api_key, w2))
    /\ (Jose.timegm (clock w + delta) < Jose.timegm (clock w2) ->
        get_current_api_key token w2 = (inl credentials_exception, w2))
    /\ (delta <= -1000000 ->
        get_current_api_key token w = (inl credentials_exception, w)).
Proof.
  intros Hdelta _. eexists. split.
  { unfold create_access_token, bind, utcnow, ret.
    replace (delta =? 0) with false by (symmetry; apply Z.eqb_neq; exact Hdelta).
    reflexivity. }
  destruct (minted_token_checked api_key (clock w + delta) w2) as [Hok Hko].
  destruct (minted_token_checked api_key (clock w + delta) w) as [_ Hko'].
  split; [exact Hok|]. split; [exact Hko|].
  intros Hneg. apply Hko'. unfold Jose.timegm.
  replace (clock w + delta) with ((clock w + (delta + 1000000)) + (-1) * 1000000) by lia.
  rewrite Z.div_add by lia.
  pose proof (Z.div_le_mono (clock w + (delta + 1000000)) (clock w) 1000000
                ltac:(lia) ltac:(lia)).
  lia.
Qed.

Lemma create_access_token_lifetime_witness :
  exists token,
    create_access_token {["sub" := VStr "AIza-example-key"]} (Some 60000000) empty_world
    = (inr token, empty_world)
    /\ (Jose.timegm (clock empty_world) < Jose.timegm (clock empty_world + 60000000) ->
        get_current_api_key token empty_world = (inr "AIza-example-key", empty_world))
    /\ (Jose.timegm (clock empty_world + 60000000) < Jose.timegm (clock empty_world) ->
        get_current_api_key token empty_world = (inl credentials_exception, empty_world))
    /\ (60000000 <= -1000000 ->
        get_current_api_key token empty_world = (inl credentials_exception, empty_world)).
Proof.
  apply (create_access_token_lifetime "AIza-example-key" 60000000
           empty_world empty_world).
  - discriminate.
  - vm_compute. split; discriminate.
Defined.

(** X6. A lifetime that is left out, or given as a zero [timedelta], is
    read as the default: the token is the one issued for 30 minutes, so
    it still verifies a second short of half an hour later instead of
    being refused at once. *)
Theorem create_access_token_default_lifetime (api_key : string)
    (expires_delta : option Z) (w w2 : World) :
  expires_delta = None \/ expires_delta = Some 0 ->
  create_access_token {["sub" := VStr api_key]} expires_delta w
  = create_access_token {["sub" := VStr api_key]}
      (Some (timedelta_minutes ACCESS_TOKEN_EXPIRE_MINUTES)) w
  /\ exists token,
       create_access_token {["sub" := VStr api_key]} expires_delta w = (inr token, w)
       /\ (Jose.timegm (clock w2) < Jose.timegm (clock w) + 1800 ->
           get_current_api_key token w2 = (inr api_key, w2)).
Proof.
  intros [-> | ->]; (split; [reflexivity|]); eexists; (split; [reflexivity|]);
    intros Hfresh;
    apply (minted_token_checked api_key (clock w + 1800 * 1000000) w2);
    rewrite timegm_add_seconds; exact Hfresh.
Qed.

Lemma create_access_token_default_lifetime_witness :
  create_access_token {["sub" := VStr "AIza-example-key"]} (Some 0) empty_world
  = create_access_token {["sub" := VStr "AIza-example-key"]}
      (Some (timedelta_minutes ACCESS_TOKEN_EXPIRE_MINUTES)) empty_world
  /\ exists token,
       create_access_token {["sub" := VStr "AIza-example-key"]} (Some 0) empty_world
       = (inr token, empty_world)
       /\ (Jose.timegm (clock (advance 1799 empty_world))
           < Jose.timegm (clock empty_world) + 1800 ->
           get_current_api_key token (advance 1799 empty_world)
           = (inr "AIza-example-key", advance 1799 empty_world)).
Proof.
  apply (create_access_token_default_lifetime "AIza-example-key" (Some 0)
           empty_world (advance 1799 empty_world)).
  right. reflexivity.
Defined.

Lemma get_access_token_run env (api_key : string) w :
  get_access_token env api_key w
  = let w2 := log ListModels (log (Configure api_key) w) in
    match list_models env (trace w ++ [Configure api_key]) with
    | inl _ =>
        (inl (HTTPException 401 "Invalid API key"
                (Some [("WWW-Authenticate", "Bearer")])), w2)
    | inr _ =>
        (inr {| access_token :=
                  Jose.encode
                    (<["exp" := VDatetime (clock w + 1800 * 1000000)]>
                       {["sub" := VStr api_key]}) SECRET_KEY ALGORITHM;
                token_type := "bearer" |}, w2)
    end.
Proof.
  unfold get_access_token, bind at 1, try, bind at 1.
  unfold genai_configure, emit, call. cbn [trace log].
  destruct (list_models env (trace w ++ [Configure api_key])) as [e|[]];
    reflexivity.
Qed.

(** X7. [/token] tries the credential exactly once and has two outcomes
    only.  When the probe succeeds it answers with a bearer token; when
    the probe fails, for whatever reason, it answers with the one 401
    "Invalid API key", which carries nothing of the upstream error.  It
    touches neither the local files nor the scheduled tasks. *)
Theorem get_access_token_outcomes env (api_key : string) w :
  let out := get_access_token env api_key w in
  snd out = log ListModels (log (Configure api_key) w)
  /\ ((exists token,
          list_models env (trace w ++ [Configure api_key]) = inr tt
          /\ fst out = inr {| access_token := token; token_type := "bearer" |})
      \/ (exists e,
            list_models env (trace w ++ [Configure api_key]) = inl e
            /\ fst out = inl (HTTPException 401 "Invalid API key"
                                (Some [("WWW-Authenticate", "Bearer")])))).
Proof.
  cbv zeta. rewrite get_access_token_run. cbv zeta.
  destruct (list_models env (trace w ++ [Configure api_key])) as [e|[]].
  - split; [reflexivity|]. right. exists e. split; reflexivity.
  - split; [reflexivity|]. left. eexists. split; reflexivity.
Qed.

(** ** More on file names *)

Lemma len_take_le n s : (String.length (PyStr.take n s) <= String.length s)%nat.
Proof. rewrite length_take. lia. Qed.

(** X8. Shortening never makes a name longer, whatever the limit, and a
    name longer than a limit of 0 or more comes out at exactly the limit,
    whether or not its extension could be kept. *)
Theorem shorten_filename_cut filename max_length :
  PyStr.len (shorten_filename filename max_length) <= PyStr.len filename
  /\ (0 <= max_length < PyStr.len filename ->
      PyStr.len (shorten_filename filename max_length) = max_length).
Proof.
  unfold shorten_filename.
  destruct (PyStr.len filename <=? max_length) eqn:Hshort.
  { split; [lia|]. apply Z.leb_le in Hshort. lia. }
  apply Z.leb_gt in Hshort.
  pose proof (splitext_join filename) as Hjoin.
  destruct (OsPath.splitext filename) as [name ext]. cbn [fst snd] in Hjoin.
  assert (Hlen : PyStr.len filename = PyStr.len name + PyStr.len ext)
    by (rewrite <- Hjoin; apply len_append).
  destruct (max_length - PyStr.len ext <=? 0) eqn:Hext.
  - unfold PyStr.len, PyStr.slice_to, PyStr.bound in *. rewrite length_take.
    destruct (max_length <? 0) eqn:Hneg; lia.
  - apply Z.leb_gt in Hext. rewrite len_append.
    unfold PyStr.len, PyStr.slice_to, PyStr.bound in *. rewrite length_take.
    destruct (_ <? 0) eqn:Hneg; lia.
Qed.

(** X9. Shortening is idempotent: a name that has been shortened to a
    limit of 0 or more is left as it is when shortened to that limit
    again. *)
Theorem shorten_filename_idempotent filename max_length :
  0 <= max_length ->
  shorten_filename (shorten_filename filename max_length) max_length
  = shorten_filename filename max_length.
Proof.
  intros Hmax.
  pose proof (shorten_filename_length filename max_length Hmax) as Hfits.
  apply shorten_filename_short. exact Hfits.
Qed.

Lemma shorten_filename_idempotent_witness :
  shorten_filename
    (shorten_filename "0123456789012345678901234567890123456789extra.pdf" 40) 40
  = shorten_filename "0123456789012345678901234567890123456789extra.pdf" 40.
Proof.
  apply (shorten_filename_idempotent
           "0123456789012345678901234567890123456789extra.pdf" 40).
  lia.
Defined.

Lemma len_splitext_stem p : PyStr.len (fst (OsPath.splitext p)) <= PyStr.len p.
Proof.
  pose proof (splitext_join p) as Hjoin.
  rewrite <- Hjoin at 2. rewrite len_append.
  pose proof (len_nonneg (snd (OsPath.splitext p))). lia.
Qed.

(** X10. The display name under which the generated HTML is stored, the
    shortened name with its extension replaced by [.html], has at most 45
    characters; a name of 40 characters without an extension reaches that
    bound, so the 40-character limit does not hold for the HTML files. *)
Theorem html_filename_length filename :
  PyStr.len (fst (OsPath.splitext (shorten_filename filename 40)) +:+ ".html") <= 45
  /\ PyStr.len
       (fst (OsPath.splitext
               (shorten_filename "0123456789012345678901234567890123456789" 40))
        +:+ ".html") = 45.
Proof.
  split; [|reflexivity].
  rewrite len_append.
  pose proof (len_splitext_stem (shorten_filename filename 40)).
  pose proof (shorten_filename_length filename 40 ltac:(lia)).
  change (PyStr.len ".html") with 5. lia.
Qed.

(** ** More on the pre-flight loop *)

(** X11. The collision check never raises and always costs one listing.
    It answers [True] exactly when the listing went through and holds a
    file with that display name; a listing that fails counts as
    absence. *)
Theorem file_exists_in_api_answer env (display_name api_key : string) w :
  exists found,
    file_exists_in_api env display_name api_key w
    = (inr found, log ListFiles (log (Configure api_key) w))
    /\ (found = true
        <-> exists names,
              list_files env (trace w ++ [Configure api_key]) = inr names
              /\ display_name ∈ names).
Proof.
  rewrite file_exists_in_api_run. eexists. split; [reflexivity|].
  destruct (list_files env (trace w ++ [Configure api_key])) as [e|names].
  - split; [discriminate|]. intros (names & Hlist & _). discriminate.
  - split.
    + intros Hfound. exists names. split; [reflexivity|].
      apply existsb_exists in Hfound as (x & Hin & Heq).
      apply String.eqb_eq in Heq as ->. apply list_elem_of_In, Hin.
    + intros (names' & Hlist & Hin). injection Hlist as <-.
      apply existsb_eqb_elem_of, Hin.
Qed.

Lemma remove_if_exists_run path w :
  fst (remove_if_exists path w) = inr tt
  /\ fs (snd (remove_if_exists path w)) = fs w ∖ {[path]}
  /\ background_tasks (snd (remove_if_exists path w)) = background_tasks w
  /\ trace (snd (remove_if_exists path w)) = trace w.
Proof.
  unfold remove_if_exists, bind, os_path_exists, os_remove.
  destruct (bool_decide (path ∈ fs w)) eqn:Hex.
  - rewrite Hex. cbn. auto.
  - cbn. apply bool_decide_eq_false in Hex.
    split; [reflexivity|]. split; [|auto].
    apply set_eq. intros x. rewrite elem_of_difference, elem_of_singleton.
    split; [|tauto]. intros Hx. split; [exact Hx|]. congruence.
Qed.

Lemma remove_all_run paths :
  forall w,
    fst (remove_all paths w) = inr tt
    /\ fs (snd (remove_all paths w)) = fs w ∖ list_to_set paths
    /\ background_tasks (snd (remove_all paths w)) = background_tasks w.
Proof.
  induction paths as [|path rest IH]; intros w; cbn [remove_all].
  - cbn [ret fst snd]. split; [reflexivity|]. split; [|reflexivity].
    rewrite list_to_set_nil, difference_empty_L. reflexivity.
  - unfold bind.
    destruct (remove_if_exists_run path w) as (Hret & Hfs & Htasks & _).
    destruct (remove_if_exists path w) as [[e|[]] w1]; cbn [fst snd] in *;
      [discriminate|].
    destruct (IH w1) as (Hret' & Hfs' & Htasks').
    split; [exact Hret'|]. split; [|congruence].
    rewrite Hfs', Hfs. apply set_eq. intros x.
    rewrite !elem_of_difference, list_to_set_cons, elem_of_union, elem_of_singleton.
    tauto.
Qed.

(** Saving one document, step by step. *)
Lemma save_upload_run env api_key file shortened_filename w :
  save_upload env api_key file shortened_filename w
  = let w1 := log ListFiles (log (Configure api_key) w) in
    if match list_files env (trace w ++ [Configure api_key]) with
       | inr files_list => existsb (String.eqb shortened_filename) files_list
       | inl _ => false
       end
    then (inl (duplicate_name shortened_filename), w1)
    else
      match read_upload env (trace w1) (filename file) with
      | inl e => (inl e, log (ReadUpload (filename file)) w1)
      | inr _ =>
          let w2 := log Uuid4 (log (ReadUpload (filename file)) w1) in
          let path := "temp_" +:+ uuid4 env (trace w1 ++ [ReadUpload (filename file)])
                      +:+ "_" +:+ shortened_filename in
          match open_error path with
          | Some e => (inl e, w2)
          | None => (inr path, set_fs ({[path]} ∪ fs w) w2)
          end
      end.
Proof.
  unfold save_upload. unfold bind at 1. rewrite file_exists_in_api_run. cbv zeta.
  match goal with |- context [if ?b then _ else _] => destruct b end;
    [reflexivity|].
  unfold bind, call, open_and_write, write_file, ret.
  destruct (read_upload env _ (filename file)); [reflexivity|].
  cbn [trace log]. destruct (open_error _); reflexivity.
Qed.

(** What saving one document does to the disk. *)
Lemma save_upload_disk env api_key file w :
  let out := save_upload env api_key file (shorten_filename (filename file) 40) w in
  background_tasks (snd out) = background_tasks w
  /\ match fst out with
     | inr path => saved_as path file /\ fs (snd out) = {[path]} ∪ fs w
     | inl _ => fs (snd out) = fs w
     end.
Proof.
  cbv zeta. rewrite save_upload_run. cbv zeta.
  match goal with |- context [if ?b then _ else _] => destruct b end;
    [cbn; auto|].
  destruct (read_upload env _ (filename file)) as [e|contents]; cbn; [auto|].
  destruct (open_error _); cbn; [auto|].
  split; [reflexivity|]. split; [|reflexivity]. eexists. reflexivity.
Qed.

(** What the first loop does to the disk, and how it fails: a failure
    takes away every file the loop had saved; a success leaves one file
    per document. *)
Lemma save_uploads_disk env api_key files :
  forall filenames temp_file_paths w,
    let out := save_uploads env api_key files filenames temp_file_paths w in
    background_tasks (snd out) = background_tasks w
    /\ match fst out with
       | inl e =>
           fs (snd out) ⊆ fs w ∖ list_to_set temp_file_paths
           /\ exists file e', file ∈ files /\ e = preflight_error file e'
       | inr (_, temp_file_paths') =>
           exists new,
             temp_file_paths' = temp_file_paths ++ new
             /\ fs (snd out) = list_to_set new ∪ fs w
             /\ Forall2 saved_as new files
       end.
Proof.
  induction files as [|file rest IH]; intros filenames temp_file_paths w; cbv zeta.
  - cbn [save_uploads ret fst snd]. split; [reflexivity|]. exists [].
    rewrite app_nil_r. split; [reflexivity|]. split; [|constructor].
    rewrite list_to_set_nil, (left_id_L ∅ (∪)). reflexivity.
  - rewrite save_uploads_cons.
    pose proof (save_upload_disk env api_key file w) as Hone. cbv zeta in Hone.
    destruct (save_upload env api_key file _ w) as [[e|path] w1];
      cbn [fst snd] in Hone; destruct Hone as [Htasks Hfs].
    + destruct (remove_all_run temp_file_paths w1) as (Hret & Hfs' & Htasks').
      destruct (remove_all temp_file_paths w1) as [[e'|[]] w2]; cbn [fst snd] in *;
        [discriminate|].
      split; [congruence|]. split; [rewrite Hfs', Hfs; reflexivity|].
      exists file, e. split; [apply list_elem_of_here | reflexivity].
    + destruct Hfs as [Hsaved Hfs].
      specialize (IH (filenames ++ [shorten_filename (filename file) 40])
                     (temp_file_paths ++ [path]) w1).
      cbv zeta in IH. destruct IH as [Htasks' Hcases].
      split; [congruence|].
      destruct (save_uploads env api_key rest _ _ w1) as [[e|[fn' tp']] w2];
        cbn [fst snd] in *.
      * destruct Hcases as [Hsub (f & e' & Hin & ->)]. split.
        -- intros x Hx. apply Hsub in Hx. rewrite Hfs in Hx.
           rewrite list_to_set_app_L, list_to_set_cons, list_to_set_nil in Hx.
           rewrite ?elem_of_difference, ?elem_of_union, ?elem_of_singleton,
             ?elem_of_empty in Hx.
           rewrite elem_of_difference. tauto.
        -- exists f, e'. split; [apply list_elem_of_further, Hin | reflexivity].
      * destruct Hcases as (new & -> & Hfs2 & Hall).
        exists (path :: new). rewrite <- app_assoc. split; [reflexivity|].
        split; [|constructor; assumption].
        rewrite Hfs2, Hfs, list_to_set_cons. apply set_eq. intros x.
        rewrite !elem_of_union. tauto.
Qed.

(** ** Requests made in background mode *)

(** A background request is its pre-flight loop followed by the
    scheduling of one task. *)
Lemma convert_files_background_run env files prompt return_html api_key w :
  convert_files env files prompt true return_html api_key w
  = match files with
    | [] => (inl (HTTPException 400 "No files uploaded." None), w)
    | _ =>
        match save_uploads env api_key files [] [] w with
        | (inl e, w1) => (inl e, w1)
        | (inr (filenames, temp_file_paths), w1) =>
            (inr {| message := "Files submitted for background processing. HTML files will be available in the File API once processing is complete. Use /list_files/ to view all stored files.";
                    filenames := filenames; html := None; file_uris := None |},
             {| clock := clock w1; fs := fs w1; trace := trace w1;
                background_tasks :=
                  background_tasks w1
                  ++ [{| task_temp_file_paths := temp_file_paths;
                         task_filenames := filenames;
                         task_prompt := prompt;
                         task_api_key := api_key;
                         task_store_files := true |}] |})
        end
    end.
Proof.
  unfold convert_files. destruct files as [|file rest]; [reflexivity|].
  unfold bind at 1.
  destruct (save_uploads env api_key (file :: rest) [] [] w)
    as [[e|[filenames paths]] w1]; reflexivity.
Qed.

(** X12. A request made in background mode fails in two ways only: with
    a 400 when no file was sent, and otherwise with a 500 whose detail
    names one of the documents by the name it was submitted under, not by
    its shortened name, followed by the text of what went wrong with it.
    A name that the File API already holds is reported in this second
    way too. *)
Theorem background_request_errors env files prompt return_html api_key w e :
  fst (convert_files env files prompt true return_html api_key w) = inl e ->
  (files = [] /\ e = HTTPException 400 "No files uploaded." None)
  \/ (exists file e',
        file ∈ files
        /\ e = HTTPException 500
                 ("Error processing " +:+ filename file +:+ ": " +:+ exn_str e') None).
Proof.
  rewrite convert_files_background_run.
  destruct files as [|file rest].
  { intros Hfail. cbn [fst] in Hfail. injection Hfail as <-. left. auto. }
  intros Hfail. right.
  pose proof (save_uploads_disk env api_key (file :: rest) [] [] w) as Hdisk.
  cbv zeta in Hdisk. destruct Hdisk as [_ Hcases].
  destruct (save_uploads env api_key (file :: rest) [] [] w)
    as [[e0|[filenames paths]] w1]; cbn [fst snd] in *; [|discriminate].
  destruct Hcases as [_ (f & e' & Hin & ->)].
  exists f, e'. split; [exact Hin|]. injection Hfail as <-. reflexivity.
Qed.

Lemma background_request_errors_witness :
  (([ {| filename := "a.pdf" |} ] : list UploadFile) = []
   /\ preflight_error {| filename := "a.pdf" |} (duplicate_name "a.pdf")
      = HTTPException 400 "No files uploaded." None)
  \/ (exists file e',
        file ∈ [ {| filename := "a.pdf" |} ]
        /\ preflight_error {| filename := "a.pdf" |} (duplicate_name "a.pdf")
           = HTTPException 500
               ("Error processing " +:+ filename file +:+ ": " +:+ exn_str e') None).
Proof.
  apply (background_request_errors (file_api ["a.pdf"])
           [ {| filename := "a.pdf" |} ] "" true "KEY" empty_world).
  vm_compute. reflexivity.
Defined.

(** X13. A request made in background mode that fails leaves nothing
    behind: every local file it had written is removed again, no task is
    scheduled, and neither an upload nor a generation call has been
    made. *)
Theorem background_request_rejected_clean env files prompt return_html api_key w e :
  fst (convert_files env files prompt true return_html api_key w) = inl e ->
  let w' := snd (convert_files env files prompt true return_html api_key w) in
  fs w' ⊆ fs w
  /\ background_tasks w' = background_tasks w
  /\ upload_calls (trace w') = upload_calls (trace w)
  /\ generation_calls (trace w') = generation_calls (trace w).
Proof.
  rewrite convert_files_background_run.
  destruct files as [|file rest]; [cbn; auto|].
  intros Hfail.
  pose proof (save_uploads_disk env api_key (file :: rest) [] [] w) as Hdisk.
  pose proof (emits_count is_upload
                (save_uploads env api_key (file :: rest) [] []) w) as Hup.
  pose proof (emits_count is_generate
                (save_uploads env api_key (file :: rest) [] []) w) as Hgen.
  cbv zeta in Hdisk. destruct Hdisk as [Htasks Hcases].
  destruct (save_uploads env api_key (file :: rest) [] [] w)
    as [[e0|[filenames paths]] w1]; cbn [fst snd] in *; [|discriminate].
  destruct Hcases as [Hsub _].
  split; [intros x Hx; apply Hsub in Hx; apply elem_of_difference in Hx; tauto|].
  split; [exact Htasks|]. split.
  - apply Hup. eapply emits_weaken; [|apply emits_save_uploads].
    intros ev [H _]; exact H.
  - apply Hgen. eapply emits_weaken; [|apply emits_save_uploads].
    intros ev [_ H]; exact H.
Qed.

Lemma background_request_rejected_clean_witness :
  let w' := snd (convert_files (file_api ["b.pdf"])
                   [ {| filename := "a.pdf" |}; {| filename := "b.pdf" |} ]
                   "" true true "KEY" empty_world) in
  fs w' ⊆ fs empty_world
  /\ background_tasks w' = background_tasks empty_world
  /\ upload_calls (trace w') = upload_calls (trace empty_world)
  /\ generation_calls (trace w') = generation_calls (trace empty_world).
Proof.
  eapply (background_request_rejected_clean (file_api ["b.pdf"])
            [ {| filename := "a.pdf" |}; {| filename := "b.pdf" |} ]
            "" true "KEY" empty_world).
  vm_compute. reflexivity.
Defined.

(** X14. When a request made in background mode is accepted, every
    document has been saved: the task that is scheduled, after those
    already pending, holds one local path per document, each made of
    [temp_], a UUID and the document's shortened name, and these files,
    and no others, have been added to the disk.  The task carries the
    caller's prompt and credential. *)
Theorem background_request_accepted env files prompt return_html api_key w response w' :
  convert_files env files prompt true return_html api_key w = (inr response, w') ->
  exists task,
    background_tasks w' = background_tasks w ++ [task]
    /\ task_prompt task = prompt
    /\ task_api_key task = api_key
    /\ task_store_files task = true
    /\ Forall2 saved_as (task_temp_file_paths task) files
    /\ fs w' = list_to_set (task_temp_file_paths task) ∪ fs w.
Proof.
  rewrite convert_files_background_run.
  destruct files as [|file rest]; [discriminate|].
  pose proof (save_uploads_disk env api_key (file :: rest) [] [] w) as Hdisk.
  cbv zeta in Hdisk. destruct Hdisk as [Htasks Hcases].
  destruct (save_uploads env api_key (file :: rest) [] [] w)
    as [[e0|[filenames paths]] w1]; cbn [fst snd] in *; [discriminate|].
  intros Hrun. injection Hrun as <- <-.
  destruct Hcases as (new & Hnew & Hfs & Hsaved). cbn [app] in Hnew. subst new.
  eexists. cbn [background_tasks fs]. split; [rewrite Htasks; reflexivity|].
  cbn [task_prompt task_api_key task_store_files task_temp_file_paths].
  auto.
Qed.

Lemma background_request_accepted_witness :
  exists response w' task,
    convert_files (file_api [])
      [ {| filename := "a.pdf" |}; {| filename := "b.pdf" |} ]
      "Keep the tables." true true "KEY" empty_world = (inr response, w')
    /\ background_tasks w' = background_tasks empty_world ++ [task]
    /\ task_prompt task = "Keep the tables."
    /\ Forall2 saved_as (task_temp_file_paths task)
         [ {| filename := "a.pdf" |}; {| filename := "b.pdf" |} ].
Proof.
  eexists _, _. 
  match goal with
  | |- exists task, ?run = (inr ?r, ?w1) /\ _ =>
      assert (Hrun : run = (inr r, w1)) by (vm_compute; reflexivity)
  end.
  destruct (background_request_accepted _ _ _ _ _ _ _ _ Hrun)
    as (task & Htasks & Hprompt & _ & _ & Hsaved & _).
  exists task. auto.
Defined.

(** ** Requests processed synchronously *)

(** One turn of the synchronous loop on a document whose name is found. *)
Lemma convert_each_cons env prompt return_html filenames i temp_file_path rest
    bound html_results file_uris name w :
  filenames !! i = Some name ->
  convert_each env prompt return_html filenames i (temp_file_path :: rest) bound
    html_results file_uris w
  = let '(r, w1) := generate_and_store env prompt temp_file_path name w in
    let w2 := snd (remove_if_exists temp_file_path w1) in
    match r with
    | inr (html_content, html_uri) =>
        convert_each env prompt return_html filenames (S i) rest (Some name)
          (if return_html then html_results ++ [html_content] else html_results)
          (file_uris ++ [html_uri]) w2
    | inl (HTTPException status_code detail headers) =>
        (inl (HTTPException status_code detail headers), w2)
    | inl e =>
        (inl (HTTPException 500
                ("Error processing " +:+ name +:+ ": " +:+ exn_str e) None), w2)
    end.
Proof.
  intros Hname. cbn [convert_each]. rewrite Hname.
  unfold bind at 1, finally, bind at 1, try, index. rewrite Hname.
  unfold bind at 1. cbn [ret].
  destruct (generate_and_store env prompt temp_file_path name w) as [[e|[html_content html_uri]] w1].
  - pose proof (remove_if_exists_returns temp_file_path w1) as Hrm.
    destruct e; cbn [raise];
      destruct (remove_if_exists temp_file_path w1) as [[e'|[]] w3];
      cbn [fst snd] in *; try discriminate; reflexivity.
  - cbn [ret].
    pose proof (remove_if_exists_returns temp_file_path w1) as Hrm.
    destruct (remove_if_exists temp_file_path w1) as [[e'|[]] w3];
      cbn [fst snd] in *; [discriminate | reflexivity].
Qed.

(** X15. When the processing of a document raises in the synchronous
    loop, the loop stops there.  An [HTTPException], such as the 422 of
    the retry policy, leaves unchanged; any other error leaves as a 500
    that names the document by its shortened name.  The local copy of
    that document is removed, nothing else is called, and the local
    copies of the documents still waiting stay where they are. *)
Theorem convert_each_failure env prompt return_html filenames i path rest bound
    html_results file_uris name e w w1 :
  filenames !! i = Some name ->
  generate_and_store env prompt path name w = (inl e, w1) ->
  let out := convert_each env prompt return_html filenames i (path :: rest) bound
               html_results file_uris w in
  fst out
  = inl match e with
        | HTTPException status_code detail headers =>
            HTTPException status_code detail headers
        | _ => HTTPException 500
                 ("Error processing " +:+ name +:+ ": " +:+ exn_str e) None
        end
  /\ trace (snd out) = trace w1
  /\ fs (snd out) = fs w1 ∖ {[path]}.
Proof.
  intros Hname Hfail out. subst out.
  rewrite (convert_each_cons _ _ _ _ _ _ _ _ _ _ _ _ Hname), Hfail. cbv zeta.
  destruct (remove_if_exists_run path w1) as (_ & Hfs & _ & Htr).
  destruct e; cbn [fst snd]; auto.
Qed.

Lemma convert_each_failure_witness :
  let out := convert_each refusing_env "" true ["a.pdf"] 0 ["temp_3_a.pdf"] None
               [] [] empty_world in
  fst out
  = inl match content_flagged (exn_str recitation_error) with
        | HTTPException status_code detail headers =>
            HTTPException status_code detail headers
        | _ => HTTPException 500
                 ("Error processing " +:+ "a.pdf" +:+ ": "
                  +:+ exn_str (content_flagged (exn_str recitation_error))) None
        end
  /\ trace (snd out)
     = trace (snd (generate_and_store refusing_env "" "temp_3_a.pdf" "a.pdf" empty_world))
  /\ fs (snd out)
     = fs (snd (generate_and_store refusing_env "" "temp_3_a.pdf" "a.pdf" empty_world))
       ∖ {["temp_3_a.pdf"]}.
Proof.
  apply (convert_each_failure refusing_env "" true ["a.pdf"] 0 "temp_3_a.pdf" []
           None [] [] "a.pdf" (content_flagged (exn_str recitation_error))
           empty_world).
  - reflexivity.
  - vm_compute. reflexivity.
Defined.

Lemma generate_with_retry_disk env content prompt max_retries w :
  fs (snd (generate_with_retry env content prompt max_retries w)) = fs w
  /\ background_tasks (snd (generate_with_retry env content prompt max_retries w))
     = background_tasks w.
Proof. apply keeps_disk_generate_with_retry. Qed.

(** The shared steps, one after the other. *)
Lemma generate_and_store_run env prompt path name w :
  generate_and_store env prompt path name w
  = let w0 := log (GenaiUploadFile path name "application/pdf") w in
    match upload_file env (trace w) path name "application/pdf" with
    | inl e => (inl e, w0)
    | inr sample =>
        match generate_with_retry env sample (effective_prompt prompt) 3 w0 with
        | (inl e, w1) => (inl e, w1)
        | (inr response, w1) =>
            match text response with
            | inl e => (inl e, w1)
            | inr html_content =>
                let html_temp_path := temp_name env (trace w1) +:+ ".html" in
                let html_filename := fst (OsPath.splitext name) +:+ ".html" in
                let w2 := set_fs ({[html_temp_path]} ∪ fs w1)
                            (log (NamedTemporaryFile ".html") w1) in
                let w3 := log (GenaiUploadFile html_temp_path html_filename "text/html")
                            w2 in
                match upload_file env (trace w2) html_temp_path html_filename
                        "text/html" with
                | inl e => (inl e, w3)
                | inr html_file =>
                    (inr (html_content, uri html_file),
                     set_fs (fs w3 ∖ {[html_temp_path]}) w3)
                end
            end
        end
    end.
Proof.
  unfold generate_and_store, genai_upload_file, named_temporary_file.
  unfold bind at 1, call. cbv zeta.
  destruct (upload_file env (trace w) path name "application/pdf") as [e|sample];
    [reflexivity|].
  unfold bind at 1.
  destruct (generate_with_retry env sample (effective_prompt prompt) 3 _)
    as [[e|response] w1]; [reflexivity|].
  unfold bind at 1, lift. destruct (text response) as [e|html_content];
    [reflexivity|].
  unfold bind, write_file, ret, os_remove. cbn [fs set_fs log trace].
  match goal with
  | |- context [upload_file env ?h ?p ?d ?m] =>
      destruct (upload_file env h p d m) as [e|html_file]
  end; [reflexivity|].
  rewrite bool_decide_eq_true_2
    by (apply elem_of_union; left; apply elem_of_singleton; reflexivity).
  reflexivity.
Qed.

(** What the shared steps do to the disk.  On success the HTML file they
    wrote is gone again; on failure at most that one file is left. *)
Lemma generate_and_store_disk env prompt path name w :
  let out := generate_and_store env prompt path name w in
  background_tasks (snd out) = background_tasks w
  /\ match fst out with
     | inr _ => fs (snd out) ⊆ fs w
     | inl _ => fs (snd out) = fs w
                \/ exists stem, fs (snd out) = {[stem +:+ ".html"]} ∪ fs w
     end.
Proof.
  cbv zeta. rewrite generate_and_store_run. cbv zeta.
  destruct (upload_file env (trace w) path name "application/pdf") as [e|sample];
    [cbn; auto|].
  pose proof (generate_with_retry_disk env sample (effective_prompt prompt) 3
                (log (GenaiUploadFile path name "application/pdf") w)) as [Hfs Htasks].
  destruct (generate_with_retry env sample (effective_prompt prompt) 3 _)
    as [[e|response] w1]; cbn [fst snd fs background_tasks log] in *;
    [split; [exact Htasks | left; exact Hfs]|].
  destruct (text response) as [e|html_content];
    [cbn [fst snd]; split; [exact Htasks | left; exact Hfs]|].
  match goal with
  | |- context [upload_file env ?h ?p ?d ?m] =>
      destruct (upload_file env h p d m) as [e|html_file]
  end; cbn [fst snd fs background_tasks set_fs log].
  - split; [exact Htasks|]. right. eexists. rewrite Hfs. reflexivity.
  - split; [exact Htasks|]. rewrite Hfs. intros x.
    rewrite elem_of_difference, elem_of_union, elem_of_singleton. tauto.
Qed.

(** A synchronous loop that goes through returns one URI per document,
    one page per document when pages are asked for, and has removed the
    local copy of every document it was given. *)
Lemma convert_each_success env prompt return_html filenames :
  forall temp_file_paths i bound html_results file_uris w html_results' file_uris' w',
    (i + length temp_file_paths <= length filenames)%nat ->
    convert_each env prompt return_html filenames i temp_file_paths bound
      html_results file_uris w = (inr (html_results', file_uris'), w') ->
    length file_uris' = (length file_uris + length temp_file_paths)%nat
    /\ length html_results'
       = (length html_results + if return_html then length temp_file_paths else 0)%nat
    /\ fs w' ⊆ fs w ∖ list_to_set temp_file_paths
    /\ background_tasks w' = background_tasks w.
Proof.
  induction temp_file_paths as [|path rest IH];
    intros i bound html_results file_uris w html_results' file_uris' w' Hlen Hrun.
  - cbn [convert_each ret] in Hrun. injection Hrun as <- <- <-.
    cbn [length]. rewrite list_to_set_nil, difference_empty_L.
    split; [lia|]. split; [destruct return_html; lia|]. auto.
  - cbn [length] in Hlen.
    destruct (lookup_lt_is_Some_2 filenames i ltac:(lia)) as [name Hname].
    rewrite (convert_each_cons _ _ _ _ _ _ _ _ _ _ _ _ Hname) in Hrun.
    pose proof (generate_and_store_disk env prompt path name w) as Hdisk.
    cbv zeta in Hdisk. destruct Hdisk as [Htasks Hfs].
    destruct (generate_and_store env prompt path name w)
      as [[e|[html_content html_uri]] w1]; cbn [fst snd] in *.
    { destruct e; discriminate. }
    destruct (remove_if_exists_run path w1) as (_ & Hfs2 & Htasks2 & _).
    apply IH in Hrun as (Huris & Hpages & Hfs3 & Htasks3); [|lia].
    rewrite length_app in Huris. cbn [length] in *.
    split; [lia|]. split.
    + destruct return_html; [rewrite length_app in Hpages; cbn [length] in Hpages|];
        lia.
    + split; [|congruence].
      intros x Hx. apply Hfs3 in Hx. rewrite Hfs2 in Hx.
      rewrite list_to_set_cons.
      rewrite ?elem_of_difference, ?elem_of_union, ?elem_of_singleton in *.
      destruct Hx as [[Hx Hne] Hrest]. apply Hfs in Hx. tauto.
Qed.

(** A synchronous request is its pre-flight loop followed by the
    processing loop. *)
Lemma convert_files_synchronous_run env file rest prompt return_html api_key w :
  convert_files env (file :: rest) prompt false return_html api_key w
  = match save_uploads env api_key (file :: rest) [] [] w with
    | (inl e, w1) => (inl e, w1)
    | (inr (filenames, temp_file_paths), w1) =>
        match convert_each env prompt return_html filenames 0 temp_file_paths
                (last filenames) [] [] (log (Configure api_key) w1) with
        | (inl e, w2) => (inl e, w2)
        | (inr (html_results, file_uris), w2) =>
            (inr {| message := "Files processed successfully. HTML files are available in the File API.";
                    filenames := filenames;
                    html := if return_html then Some html_results else None;
                    file_uris := Some file_uris |}, w2)
        end
    end.
Proof.
  unfold convert_files. unfold bind at 1.
  destruct (save_uploads env api_key (file :: rest) [] [] w)
    as [[e|[filenames paths]] w1]; [reflexivity|].
  unfold bind at 1, genai_configure, emit. unfold bind at 1.
  destruct (convert_each _ _ _ _ _ _ _ _ _ _) as [[e|[html_results uris]] w2];
    reflexivity.
Qed.

(** X16. A synchronous request that succeeds answers with one file URI
    per document, and with one page of HTML per document when
    [return_html] is set and with no [html] at all when it is not. *)
Theorem synchronous_response_shape env files prompt return_html api_key w response w' :
  convert_files env files prompt false return_html api_key w = (inr response, w') ->
  (exists uris, file_uris response = Some uris /\ length uris = length files)
  /\ (if return_html
      then exists pages, html response = Some pages /\ length pages = length files
      else html response = None)
  /\ length (filenames response) = length files.
Proof.
  destruct files as [|file rest]; [discriminate|].
  rewrite convert_files_synchronous_run.
  destruct (save_uploads env api_key (file :: rest) [] [] w)
    as [[e|[names paths]] w1] eqn:Hsave; [discriminate|].
  apply save_uploads_result in Hsave as [Hnames Hpaths].
  cbn [app length] in Hnames, Hpaths.
  destruct (convert_each _ _ _ _ _ _ _ _ _ _) as [[e|[pages uris]] w2] eqn:Hloop;
    [discriminate|].
  intros Hrun. injection Hrun as <- <-. cbn [file_uris html filenames].
  apply convert_each_success in Hloop as (Huris & Hpages & _);
    [|rewrite Hnames, length_map, Hpaths; cbn; lia].
  cbn [length] in *.
  split; [exists uris; split; [reflexivity | lia]|].
  split; [|rewrite Hnames, length_map; reflexivity].
  destruct return_html; [|reflexivity].
  exists pages. split; [reflexivity | lia].
Qed.

Lemma synchronous_response_shape_witness :
  exists response w',
    convert_files (file_api [])
      [ {| filename := "a.pdf" |}; {| filename := "b.pdf" |} ]
      "" false false "KEY" empty_world = (inr response, w')
    /\ (exists uris, file_uris response = Some uris /\ length uris = 2%nat)
    /\ html response = None.
Proof.
  eexists _, _.
  match goal with
  | |- ?run = (inr ?r, ?w1) /\ _ =>
      assert (Hrun : run = (inr r, w1)) by (vm_compute; reflexivity)
  end.
  split; [exact Hrun|].
  destruct (synchronous_response_shape _ _ _ _ _ _ _ _ Hrun) as (Huris & Hpages & _).
  split; [exact Huris | exact Hpages].
Defined.

(** X17. A synchronous request that succeeds leaves no temporary file
    behind: every file on the disk afterwards was there before, and no
    task has been scheduled. *)
Theorem synchronous_success_clean env files prompt return_html api_key w response w' :
  convert_files env files prompt false return_html api_key w = (inr response, w') ->
  fs w' ⊆ fs w /\ background_tasks w' = background_tasks w.
Proof.
  destruct files as [|file rest]; [discriminate|].
  rewrite convert_files_synchronous_run.
  pose proof (save_uploads_disk env api_key (file :: rest) [] [] w) as Hdisk.
  cbv zeta in Hdisk. destruct Hdisk as [Htasks Hcases].
  destruct (save_uploads env api_key (file :: rest) [] [] w)
    as [[e|[names paths]] w1] eqn:Hsave; cbn [fst snd] in *; [discriminate|].
  apply save_uploads_result in Hsave as [Hnames Hpaths].
  cbn [app length] in Hnames, Hpaths.
  destruct Hcases as (new & Hnew & Hfs & _). cbn [app] in Hnew. subst new.
  destruct (convert_each _ _ _ _ _ _ _ _ _ _) as [[e|[pages uris]] w2] eqn:Hloop;
    [discriminate|].
  intros Hrun. injection Hrun as _ <-.
  apply convert_each_success in Hloop as (_ & _ & Hsub & Htasks2);
    [|rewrite Hnames, length_map, Hpaths; cbn; lia].
  cbn [fs background_tasks log] in *. split; [|congruence].
  intros x Hx. apply Hsub in Hx. rewrite Hfs in Hx.
  rewrite elem_of_difference, elem_of_union in Hx. tauto.
Qed.

Lemma synchronous_success_clean_witness :
  exists response w',
    convert_files (file_api [])
      [ {| filename := "a.pdf" |}; {| filename := "b.pdf" |} ]
      "" false true "KEY" empty_world = (inr response, w')
    /\ fs w' ⊆ fs empty_world
    /\ background_tasks w' = background_tasks empty_world.
Proof.
  eexists _, _.
  match goal with
  | |- ?run = (inr ?r, ?w1) /\ _ =>
      assert (Hrun : run = (inr r, w1)) by (vm_compute; reflexivity)
  end.
  split; [exact Hrun|].
  exact (synchronous_success_clean _ _ _ _ _ _ _ _ Hrun).
Defined.

(** ** How many calls a request can make *)

Section AtMost.

Context (p : Event -> bool).

Lemma at_most_emits {A} (m : M A) :
  emits (fun ev => p ev = false) m -> at_most p 0 m.
Proof. intros Hm w. rewrite (emits_count p m w Hm). lia. Qed.

Lemma at_most_weaken {A} (n n' : nat) (m : M A) :
  (n <= n')%nat -> at_most p n m -> at_most p n' m.
Proof. intros Hle Hm w. specialize (Hm w). lia. Qed.

Lemma at_most_call {A} (answer : list Event -> Exn + A) ev :
  at_most p 1 (call answer ev).
Proof.
  intros w. cbn [call snd trace log]. rewrite count_events_snoc.
  destruct (p ev); lia.
Qed.

Lemma at_most_bind {A B} (n1 n2 : nat) (m : M A) (k : A -> M B) :
  at_most p n1 m -> (forall a, at_most p n2 (k a)) -> at_most p (n1 + n2) (bind m k).
Proof.
  intros Hm Hk w. unfold bind. specialize (Hm w).
  destruct (m w) as [[e|a] w1]; cbn [snd] in *; [lia|].
  specialize (Hk a w1). lia.
Qed.

Lemma at_most_try {A} (n : nat) (m : M A) : at_most p n m -> at_most p n (try m).
Proof. intros Hm w. unfold try. specialize (Hm w). destruct (m w); exact Hm. Qed.

Lemma at_most_finally {A} (n1 n2 : nat) (m : M A) (f : M unit) :
  at_most p n1 m -> at_most p n2 f -> at_most p (n1 + n2) (finally m f).
Proof.
  intros Hm Hf w. unfold finally. specialize (Hm w).
  destruct (m w) as [r w1]; cbn [snd] in *. specialize (Hf w1).
  destruct (f w1) as [[e|[]] w2]; cbn [snd] in *; lia.
Qed.

End AtMost.

(** The retry policy with its budget of 3 makes at most 4 generation
    calls. *)
Lemma at_most_generate_with_retry env content prompt :
  at_most is_generate 4 (generate_with_retry env content prompt 3).
Proof.
  intros w.
  destruct (generate_content env (trace w) content prompt None)
    as [e0|response] eqn:Horig.
  - destruct (is_recitation (exn_str e0)) eqn:Hrec.
    + rewrite (generate_with_retry_refused _ _ _ _ _ _ Horig Hrec).
      pose proof (escalate_budget env content (exn_str e0) 3 3 0
                    (log (GenerateContent content prompt None) w) eq_refl) as Hbudget.
      cbv zeta in Hbudget. destruct Hbudget as [Hcalls _].
      unfold generation_calls in Hcalls. cbn [trace log] in Hcalls.
      rewrite count_events_snoc in Hcalls. cbn [is_generate] in Hcalls.
      change (Z.to_nat 3) with 3%nat.
      destruct (escalate _ _ _ _ _ _ _) as [[e|[r|]] w']; cbn [fst snd] in *; lia.
    + rewrite (generate_with_retry_other _ _ _ _ _ _ Horig Hrec).
      cbn [snd trace log]. rewrite count_events_snoc. cbn [is_generate]. lia.
  - unfold generate_with_retry, bind, try, model_generate, call. rewrite Horig.
    cbn [ret snd trace log]. rewrite count_events_snoc. cbn [is_generate]. lia.
Qed.

Lemma emits_no_upload_generate_with_retry env content prompt max_retries :
  emits (fun ev => is_upload ev = false)
    (generate_with_retry env content prompt max_retries).
Proof. apply emits_generate_with_retry; reflexivity. Qed.

(** The shared steps upload twice at most, call the model four times at
    most, and never list the files of the File API. *)
Lemma at_most_upload_generate_and_store env prompt path name :
  at_most is_upload 2 (generate_and_store env prompt path name).
Proof.
  unfold generate_and_store, genai_upload_file, named_temporary_file.
  apply (at_most_bind _ 1 1); [apply at_most_call|]. intros sample.
  apply (at_most_bind _ 0 1);
    [apply at_most_emits, emits_no_upload_generate_with_retry|].
  intros response.
  apply (at_most_bind _ 0 1); [apply at_most_emits; emits_auto|].
  intros html_content.
  apply (at_most_bind _ 0 1); [apply at_most_emits; emits_auto; reflexivity|].
  intros html_temp_path.
  apply (at_most_bind _ 1 0); [apply at_most_call|]. intros html_file.
  apply at_most_emits. emits_auto.
Qed.

Lemma at_most_generate_generate_and_store env prompt path name :
  at_most is_generate 4 (generate_and_store env prompt path name).
Proof.
  unfold generate_and_store, genai_upload_file, named_temporary_file.
  apply (at_most_bind _ 0 4); [apply at_most_emits; emits_auto; reflexivity|].
  intros sample.
  apply (at_most_bind _ 4 0); [apply at_most_generate_with_retry|].
  intros response. apply at_most_emits. emits_auto; reflexivity.
Qed.

Lemma emits_no_listing_generate_and_store env prompt path name :
  emits (fun ev => is_list_files ev = false)
    (generate_and_store env prompt path name).
Proof. apply emits_generate_and_store; reflexivity. Qed.

(** Either loop costs, per document, what the shared steps cost. *)
Lemma at_most_convert_each p n env prompt return_html filenames :
  (forall path name, at_most p n (generate_and_store env prompt path name)) ->
  forall temp_file_paths i bound html_results file_uris,
    at_most p (n * length temp_file_paths)
      (convert_each env prompt return_html filenames i temp_file_paths bound
         html_results file_uris).
Proof.
  intros Hstep.
  induction temp_file_paths as [|path rest IH];
    intros i bound html_results file_uris; cbn [convert_each length].
  - intros w. cbn [ret snd]. lia.
  - replace (n * S (length rest))%nat with (n + n * length rest)%nat by lia.
    apply at_most_bind.
    + replace n with ((n + 0) + 0)%nat by lia.
      apply at_most_finally; [|apply at_most_emits, emits_remove_if_exists].
      apply at_most_bind.
      * apply at_most_try. unfold index.
        destruct (filenames !! i) as [name|].
        -- intros w. exact (Hstep path name w).
        -- apply at_most_weaken with (n := O); [lia|].
           apply at_most_emits, emits_bind_raise.
      * intros r. apply at_most_emits. emits_auto.
    + intros [html_content html_uri]. apply IH.
Qed.

Lemma at_most_process_each p n env prompt filenames :
  (forall line, p (Print line) = false) ->
  (forall path name, at_most p n (generate_and_store env prompt path name)) ->
  forall temp_file_paths i bound,
    at_most p (n * length temp_file_paths)
      (process_each env prompt filenames i temp_file_paths bound).
Proof.
  intros Hprint Hstep.
  induction temp_file_paths as [|path rest IH]; intros i bound;
    cbn [process_each length].
  - intros w. cbn [ret snd]. lia.
  - replace (n * S (length rest))%nat with (n + n * length rest)%nat by lia.
    apply at_most_bind; [|intros []; apply IH].
    replace n with ((n + 0) + 0)%nat by lia.
    apply at_most_finally; [|apply at_most_emits, emits_remove_if_exists].
    apply at_most_bind.
    + apply at_most_try. unfold index.
      destruct (filenames !! i) as [name|].
      * intros w. exact (Hstep path name w).
      * apply at_most_weaken with (n := O); [lia|].
        apply at_most_emits, emits_bind_raise.
    + intros r. apply at_most_emits. emits_auto. apply Hprint.
Qed.

(** The first loop lists the files of the File API once per document at
    most. *)
Lemma at_most_listing_save_uploads env api_key files :
  forall filenames temp_file_paths,
    at_most is_list_files (length files)
      (save_uploads env api_key files filenames temp_file_paths).
Proof.
  induction files as [|file rest IH]; intros filenames temp_file_paths w.
  - cbn. lia.
  - rewrite save_uploads_cons. cbn [length].
    pose proof (save_upload_lists_once env api_key file
                  (shorten_filename (filename file) 40) w) as Hone.
    destruct (save_upload env api_key file _ w) as [[e|path] w1]; cbn [snd] in Hone.
    + pose proof (remove_all_trace temp_file_paths w1) as Htr.
      destruct (remove_all temp_file_paths w1) as [[e'|[]] w2]; cbn [snd] in *;
        rewrite Htr; lia.
    + specialize (IH (filenames ++ [shorten_filename (filename file) 40])
                     (temp_file_paths ++ [path]) w1). lia.
Qed.

Lemma save_uploads_quiet env api_key files filenames temp_file_paths w :
  let w1 := snd (save_uploads env api_key files filenames temp_file_paths w) in
  upload_calls (trace w1) = upload_calls (trace w)
  /\ generation_calls (trace w1) = generation_calls (trace w).
Proof.
  cbv zeta. split.
  - apply (emits_count is_upload). eapply emits_weaken; [|apply emits_save_uploads].
    intros ev [H _]; exact H.
  - apply (emits_count is_generate). eapply emits_weaken; [|apply emits_save_uploads].
    intros ev [_ H]; exact H.
Qed.

(** X18. What a request costs at most, however it ends and whatever the
    collaborators do: for N documents, no more than 2N uploads to the
    File API, 4N generation calls and N listings.  The task that a
    background request schedules stays within the same bounds for its
    uploads and generation calls, and never lists the files. *)
Theorem request_call_budget env files prompt background return_html api_key w :
  let out := convert_files env files prompt background return_html api_key w in
  ((upload_calls (trace (snd out)) <= upload_calls (trace w) + 2 * length files)%nat
   /\ (generation_calls (trace (snd out))
       <= generation_calls (trace w) + 4 * length files)%nat
   /\ (count_events is_list_files (trace (snd out))
       <= count_events is_list_files (trace w) + length files)%nat)
  /\ (forall env' task w2,
        let done := run_task env' task w2 in
        (upload_calls (trace (snd done))
         <= upload_calls (trace w2) + 2 * length (task_temp_file_paths task))%nat
        /\ (generation_calls (trace (snd done))
            <= generation_calls (trace w2) + 4 * length (task_temp_file_paths task))%nat
        /\ count_events is_list_files (trace (snd done))
           = count_events is_list_files (trace w2)).
Proof.
  cbv zeta. split.
  - destruct files as [|file rest]; [cbn; lia|].
    pose proof (save_uploads_quiet env api_key (file :: rest) [] [] w) as [Hup Hgen].
    pose proof (at_most_listing_save_uploads env api_key (file :: rest) [] [] w) as Hlist.
    destruct background.
    + rewrite convert_files_background_run.
      destruct (save_uploads env api_key (file :: rest) [] [] w)
        as [[e|[names paths]] w1]; cbn [fst snd trace] in *; lia.
    + rewrite convert_files_synchronous_run.
      destruct (save_uploads env api_key (file :: rest) [] [] w)
        as [[e|[names paths]] w1] eqn:Hsave; cbn [fst snd] in *; [lia|].
      apply save_uploads_result in Hsave as [_ Hpaths]. cbn [length] in Hpaths.
      pose proof (at_most_convert_each is_upload 2 env prompt return_html names
                    (at_most_upload_generate_and_store env prompt)
                    paths 0 (last names) [] [] (log (Configure api_key) w1)) as Hup2.
      pose proof (at_most_convert_each is_generate 4 env prompt return_html names
                    (at_most_generate_generate_and_store env prompt)
                    paths 0 (last names) [] [] (log (Configure api_key) w1)) as Hgen2.
      pose proof (at_most_convert_each is_list_files 0 env prompt return_html names
                    (fun path name =>
                       at_most_emits _ _
                         (emits_no_listing_generate_and_store env prompt path name))
                    paths 0 (last names) [] [] (log (Configure api_key) w1)) as Hlist2.
      unfold upload_calls, generation_calls in *.
      cbn [trace log] in Hup2, Hgen2, Hlist2.
      rewrite count_events_snoc in Hup2, Hgen2, Hlist2.
      cbn [is_upload is_generate is_list_files] in Hup2, Hgen2, Hlist2.
      rewrite Hpaths in Hup2, Hgen2. cbn [length] in *.
      destruct (convert_each _ _ _ _ _ _ _ _ _ _) as [[e|[pages uris]] w2];
        cbn [fst snd] in *; lia.
  - intros env' task w2.
    unfold run_task, process_pdf_from_paths, bind, genai_configure, emit.
    pose proof (at_most_process_each is_upload 2 env' (task_prompt task)
                  (task_filenames task) (fun _ => eq_refl)
                  (at_most_upload_generate_and_store env' (task_prompt task))
                  (task_temp_file_paths task) 0 None
                  (log (Configure (task_api_key task)) w2)) as Hup.
    pose proof (at_most_process_each is_generate 4 env' (task_prompt task)
                  (task_filenames task) (fun _ => eq_refl)
                  (at_most_generate_generate_and_store env' (task_prompt task))
                  (task_temp_file_paths task) 0 None
                  (log (Configure (task_api_key task)) w2)) as Hgen.
    pose proof (emits_count is_list_files
                  (process_each env' (task_prompt task) (task_filenames task) 0
                     (task_temp_file_paths task) None)
                  (log (Configure (task_api_key task)) w2)) as Hlist.
    unfold upload_calls, generation_calls in *.
    cbn [trace log] in Hup, Hgen, Hlist.
    rewrite count_events_snoc in Hup, Hgen, Hlist.
    cbn [is_upload is_generate is_list_files] in Hup, Hgen, Hlist.
    rewrite Hlist; [lia|].
    clear. generalize 0%nat, (@None string).
    induction (task_temp_file_paths task) as [|path rest IH]; intros i bound;
      cbn [process_each]; [apply emits_ret|].
    unfold index. destruct (task_filenames task !! i) as [name|].
    + emits_auto; try reflexivity; auto using emits_remove_if_exists,
        emits_no_listing_generate_and_store.
    + emits_auto; try reflexivity; auto using emits_remove_if_exists.
Qed.

(** ** What the model is asked *)

Lemma emits_retry_generate_with_retry env content prompt max_retries :
  emits (retry_event content prompt max_retries)
    (generate_with_retry env content prompt max_retries).
Proof.
  unfold generate_with_retry, model_generate. emits_auto.
  - cbn. auto.
  - destruct (Z.le_gt_cases max_retries 0) as [Hnone|Hsome].
    + replace (Z.to_nat max_retries) with O by lia. apply emits_ret.
    + apply emits_retry_escalate; lia.
Qed.

Lemma retry_event_asks_with content prompt ev :
  retry_event content (effective_prompt prompt) 3 ev -> asks_with prompt ev.
Proof. destruct ev; cbn; tauto. Qed.

Lemma emits_asks_generate_and_store env prompt path name :
  emits (asks_with prompt) (generate_and_store env prompt path name).
Proof.
  unfold generate_and_store, genai_upload_file, named_temporary_file.
  emits_auto; try exact I.
  eapply emits_weaken; [|apply emits_retry_generate_with_retry].
  apply retry_event_asks_with.
Qed.

Lemma emits_asks_convert_each env prompt return_html filenames :
  forall temp_file_paths i bound html_results file_uris,
    emits (asks_with prompt)
      (convert_each env prompt return_html filenames i temp_file_paths bound
         html_results file_uris).
Proof.
  induction temp_file_paths as [|path rest IH];
    intros i bound html_results file_uris; cbn [convert_each]; [apply emits_ret|].
  unfold index. destruct (filenames !! i) as [name|];
    emits_auto; try exact I;
    auto using emits_asks_generate_and_store, emits_remove_if_exists.
Qed.

Lemma emits_asks_process_each env prompt filenames :
  forall temp_file_paths i bound,
    emits (asks_with prompt)
      (process_each env prompt filenames i temp_file_paths bound).
Proof.
  induction temp_file_paths as [|path rest IH]; intros i bound;
    cbn [process_each]; [apply emits_ret|].
  unfold index. destruct (filenames !! i) as [name|];
    emits_auto; try exact I;
    auto using emits_asks_generate_and_store, emits_remove_if_exists.
Qed.

(** X19. The instruction a caller sends is what the model is first asked
    for each document, at the default temperature, and the built-in
    instruction stands in for an empty one.  Every other generation call
    of the request, and of the task it schedules, uses one of the three
    fixed alternative prompts at that attempt's temperature: a custom
    instruction does not survive a recitation refusal. *)
Theorem request_prompts env files prompt background return_html api_key w :
  effective_prompt "" = default_prompt
  /\ (prompt <> "" -> effective_prompt prompt = prompt)
  /\ (exists evs,
        trace (snd (convert_files env files prompt background return_html api_key w))
        = trace w ++ evs
        /\ Forall (asks_with prompt) evs)
  /\ (forall env' task w2,
        task_prompt task = prompt ->
        exists evs, trace (snd (run_task env' task w2)) = trace w2 ++ evs
                    /\ Forall (asks_with prompt) evs).
Proof.
  split; [reflexivity|]. split.
  { intros Hne. unfold effective_prompt.
    destruct (String.eqb prompt "") eqn:Heq; [|reflexivity].
    apply String.eqb_eq in Heq. contradiction. }
  split.
  - revert w. fold (emits (asks_with prompt)
                      (convert_files env files prompt background return_html api_key)).
    unfold convert_files. destruct files as [|file rest]; [apply emits_raise|].
    apply emits_bind.
    + eapply emits_weaken; [|apply emits_save_uploads].
      intros ev [_ Hgen]. destruct ev; try exact I. discriminate.
    + intros [filenames paths]. destruct background; unfold genai_configure;
        emits_auto; try exact I. apply emits_asks_convert_each.
  - intros env' task w2 <-. revert w2.
    fold (emits (asks_with (task_prompt task)) (run_task env' task)).
    unfold run_task, process_pdf_from_paths, genai_configure.
    emits_auto; [exact I | apply emits_asks_process_each].
Qed.

(** ** The background task and the disk *)

(** The first turn of the background loop when no name is found for the
    document: nothing is called, and the loop goes on only if a name was
    bound before. *)
Lemma process_each_cons_unnamed env prompt filenames i temp_file_path rest bound w :
  filenames !! i = None ->
  process_each env prompt filenames i (temp_file_path :: rest) bound w
  = match bound with
    | Some name =>
        process_each env prompt filenames (S i) rest bound
          (snd (remove_if_exists temp_file_path
                  (log (Print ("Error processing file " +:+ name +:+ ": "
                               +:+ "list index out of range")) w)))
    | None =>
        (inl (unbound_local "shortened_filename"),
         snd (remove_if_exists temp_file_path w))
    end.
Proof.
  intros Hname. cbn [process_each]. rewrite Hname.
  unfold bind at 1, finally, bind at 1, try, index. rewrite Hname.
  unfold bind at 1. cbn [raise].
  destruct bound as [name|]; cbn [emit raise exn_str].
  - pose proof (remove_if_exists_returns temp_file_path
                  (log (Print ("Error processing file " +:+ name +:+ ": "
                               +:+ "list index out of range")) w)) as Hrm.
    destruct (remove_if_exists temp_file_path _) as [[e'|[]] w3];
      cbn [fst snd] in *; [discriminate | reflexivity].
  - pose proof (remove_if_exists_returns temp_file_path w) as Hrm.
    destruct (remove_if_exists temp_file_path w) as [[e'|[]] w3];
      cbn [fst snd] in *; [discriminate | reflexivity].
Qed.

(** X20. In the background loop the local copy of a document is gone by
    the time the next document begins, whether its processing succeeded
    or raised: the rest of the loop starts from a world in which that
    file does not exist. *)
Theorem process_each_removes_copy env prompt filenames i path rest bound name w :
  filenames !! i = Some name ->
  exists w2,
    (path ∉ fs w2)
    /\ process_each env prompt filenames i (path :: rest) bound w
       = process_each env prompt filenames (S i) rest (Some name) w2.
Proof.
  intros Hname. rewrite (process_each_cons _ _ _ _ _ _ _ _ _ Hname).
  destruct (generate_and_store env prompt path name w) as [r w1]. cbv zeta.
  eexists. split; [|reflexivity]. apply remove_if_exists_gone.
Qed.

Lemma process_each_removes_copy_witness :
  exists w2,
    ("temp_3_a.pdf" ∉ fs w2)
    /\ process_each html_store_down "" ["a.pdf"; "b.pdf"] 0
         ["temp_3_a.pdf"; "temp_7_b.pdf"] None empty_world
       = process_each html_store_down "" ["a.pdf"; "b.pdf"] 1
           ["temp_7_b.pdf"] (Some "a.pdf") w2.
Proof.
  apply (process_each_removes_copy html_store_down "" ["a.pdf"; "b.pdf"] 0
           "temp_3_a.pdf" ["temp_7_b.pdf"] None "a.pdf" empty_world).
  reflexivity.
Defined.

(** X21. What the background task can leave on the disk: besides the
    files that were there when it started, at most one file per
    document, each of them a [.html] temporary file. *)
Theorem process_each_leftovers env prompt filenames :
  forall temp_file_paths i bound w,
    exists leftovers,
      (length leftovers <= length temp_file_paths)%nat
      /\ Forall (fun p => exists stem, p = stem +:+ ".html") leftovers
      /\ fs (snd (process_each env prompt filenames i temp_file_paths bound w))
         ⊆ fs w ∪ list_to_set leftovers.
Proof.
  induction temp_file_paths as [|path rest IH]; intros i bound w.
  - exists []. cbn [process_each ret snd length]. split; [lia|]. split; [constructor|].
    apply union_subseteq_l.
  - destruct (filenames !! i) as [name|] eqn:Hname.
    + rewrite (process_each_cons _ _ _ _ _ _ _ _ _ Hname).
      pose proof (generate_and_store_disk env prompt path name w) as Hdisk.
      cbv zeta in Hdisk. destruct Hdisk as [_ Hfs].
      destruct (generate_and_store env prompt path name w) as [r w1].
      cbn [fst snd] in Hfs. cbv zeta.
      match goal with |- context [process_each _ _ _ _ _ _ ?w2] => set (w3 := w2) end.
      destruct (IH (S i) (Some name) w3) as (rest_left & Hlen & Hhtml & Hsub).
      assert (Hw3 : fs w3 ⊆ fs w1).
      { subst w3. destruct r as [e|r];
          match goal with
          | |- fs (snd (remove_if_exists ?p ?w0)) ⊆ _ =>
              destruct (remove_if_exists_run p w0) as (_ & -> & _)
          end; cbn [fs log]; apply subseteq_difference_l; reflexivity. }
      destruct r as [e|r].
      * destruct Hfs as [Hsame | [stem Hone]].
        -- exists rest_left. cbn [length]. split; [lia|]. split; [exact Hhtml|].
           intros x Hx. apply Hsub in Hx. apply elem_of_union in Hx as [Hx|Hx];
             apply elem_of_union; [left; rewrite <- Hsame; apply Hw3, Hx | right; exact Hx].
        -- exists ((stem +:+ ".html") :: rest_left). cbn [length].
           split; [lia|]. split; [constructor; eauto|].
           intros x Hx. apply Hsub in Hx. rewrite list_to_set_cons.
           apply elem_of_union in Hx as [Hx|Hx].
           ++ apply Hw3 in Hx. rewrite Hone in Hx.
              rewrite ?elem_of_union in *. tauto.
           ++ rewrite ?elem_of_union. tauto.
      * exists rest_left. cbn [length]. split; [lia|]. split; [exact Hhtml|].
        intros x Hx. apply Hsub in Hx. apply elem_of_union in Hx as [Hx|Hx];
          apply elem_of_union; [left; apply Hfs, Hw3, Hx | right; exact Hx].
    + rewrite (process_each_cons_unnamed _ _ _ _ _ _ _ _ Hname).
      destruct bound as [name|].
      * match goal with |- context [process_each _ _ _ _ _ _ ?w2] => set (w3 := w2) end.
        destruct (IH (S i) (Some name) w3) as (rest_left & Hlen & Hhtml & Hsub).
        exists rest_left. cbn [length]. split; [lia|]. split; [exact Hhtml|].
        intros x Hx. apply Hsub in Hx. apply elem_of_union in Hx as [Hx|Hx];
          apply elem_of_union; [left | right; exact Hx].
        subst w3.
        match type of Hx with
        | _ ∈ fs (snd (remove_if_exists ?p ?w0)) =>
            destruct (remove_if_exists_run p w0) as (_ & Hrm & _)
        end.
        rewrite Hrm in Hx. cbn [fs log] in Hx.
        apply elem_of_difference in Hx. tauto.
      * exists []. cbn [length snd]. split; [lia|]. split; [constructor|].
        destruct (remove_if_exists_run path w) as (_ & -> & _).
        intros x Hx. apply elem_of_difference in Hx. apply elem_of_union. tauto.
Qed.

(** ** More on the verifier and the pre-flight loop *)

(** X22. The verifier answers with a credential only for a token that was
    signed with the server's secret under HS256, whose subject is that
    credential, and whose expiry, if it has one, is not behind the
    clock; and verifying changes nothing. *)
Theorem get_current_api_key_sound token w (api_key : string) w' :
  get_current_api_key token w = (inr api_key, w') ->
  w' = w
  /\ exists claims,
       token = Jose.Signed claims SECRET_KEY "HS256"
       /\ claims !! "sub" = Some (VStr api_key)
       /\ (claims !! "exp" = None
           \/ exists exp, claims !! "exp" = Some (VInt exp)
                          /\ Jose.timegm (clock w) <= exp).
Proof.
  unfold get_current_api_key, bind, try, utcnow, lift.
  destruct token as [claims key algorithm|raw]; cbn [Jose.decode]; [|discriminate].
  destruct (existsb (String.eqb algorithm) [ALGORITHM]) eqn:Halg;
    cbn [negb]; [|discriminate].
  destruct (String.eqb key SECRET_KEY) eqn:Hkey; cbn [negb]; [|discriminate].
  apply String.eqb_eq in Hkey as ->.
  cbn [existsb] in Halg. rewrite orb_false_r in Halg.
  apply String.eqb_eq in Halg as ->.
  unfold Jose.validate_exp, Jose.validate_sub.
  destruct (claims !! "exp") as [[s|exp|t]|] eqn:Hexp; try discriminate.
  - destruct (Jose.timegm (clock w) <? exp) eqn:Hfresh; [|discriminate].
    apply Z.ltb_lt in Hfresh.
    destruct (claims !! "sub") as [[s|n|t]|] eqn:Hsub; try discriminate;
      rewrite ?Hsub; cbn [TokenData ret raise]; try discriminate.
    intros Hrun. injection Hrun as <- <-. split; [reflexivity|].
    exists claims. split; [reflexivity|]. split; [exact Hsub|].
    right. exists exp. split; [exact Hexp | lia].
  - destruct (claims !! "sub") as [[s|n|t]|] eqn:Hsub; try discriminate;
      rewrite ?Hsub; cbn [TokenData ret raise]; try discriminate.
    intros Hrun. injection Hrun as <- <-. split; [reflexivity|].
    exists claims. auto.
Qed.

Lemma get_current_api_key_sound_witness :
  exists token,
    fst (create_access_token {["sub" := VStr "AIza-example-key"]} None empty_world)
    = inr token
    /\ exists claims,
         token = Jose.Signed claims SECRET_KEY "HS256"
         /\ claims !! "sub" = Some (VStr "AIza-example-key").
Proof.
  eexists. split; [reflexivity|].
  destruct (get_current_api_key_sound
              (Jose.encode (<["exp" := VDatetime (clock empty_world + 1800 * 1000000)]>
                              {["sub" := VStr "AIza-example-key"]})
                 SECRET_KEY ALGORITHM)
              empty_world "AIza-example-key" empty_world)
    as (_ & claims & Htoken & Hsub & _).
  { apply minted_token_checked. vm_compute. reflexivity. }
  exists claims. split; [exact Htoken | exact Hsub].
Defined.

(** X23. [create_access_token] signs what it is given: the token carries
    every claim of [data] but [exp], which is always set to the expiry
    the function computes, over any [exp] the caller may have put
    there. *)
Theorem create_access_token_claims (data : gmap string Value)
    (expires_delta : option Z) (w : World) :
  exists claims expire,
    create_access_token data expires_delta w
    = (inr (Jose.Signed claims SECRET_KEY "HS256"), w)
    /\ expire = clock w + match expires_delta with
                          | Some delta => if delta =? 0 then 1800000000 else delta
                          | None => 1800000000
                          end
    /\ claims !! "exp" = Some (VInt (Jose.timegm expire))
    /\ (forall k, k <> "exp" -> claims !! k = Jose.to_json <$> data !! k).
Proof.
  exists (Jose.to_json <$>
            <["exp" := VDatetime
                         (clock w + match expires_delta with
                                    | Some delta => if delta =? 0 then 1800000000 else delta
                                    | None => 1800000000
                                    end)]> data),
         (clock w + match expires_delta with
                    | Some delta => if delta =? 0 then 1800000000 else delta
                    | None => 1800000000
                    end).
  split.
  { unfold create_access_token, bind, utcnow, ret, Jose.encode.
    destruct expires_delta as [delta|]; [|reflexivity].
    destruct (delta =? 0); reflexivity. }
  split; [reflexivity|]. split; [apply minted_claims_exp|].
  intros k Hk. rewrite lookup_fmap, lookup_insert_ne by congruence. reflexivity.
Qed.

(** A character occurs in a concatenation when it occurs in one of the
    two parts. *)
Lemma contains_char_app c s1 s2 :
  PyStr.contains (String c EmptyString) (s1 +:+ s2)
  = PyStr.contains (String c EmptyString) s1
    || PyStr.contains (String c EmptyString) s2.
Proof.
  induction s1 as [|a s1 IH]; [reflexivity|].
  change (String a s1 +:+ s2) with (String a (s1 +:+ s2)).
  cbn [PyStr.contains String.prefix]. destruct (ascii_dec c a); [|exact IH].
  destruct s1, s2; reflexivity.
Qed.

(** The path of a saved upload can be opened when its two variable parts
    are plain. *)
Lemma open_error_plain u name :
  plain u -> plain name -> open_error ("temp_" +:+ u +:+ "_" +:+ name) = None.
Proof.
  intros [Hu0 Hu1] [Hn0 Hn1]. unfold open_error.
  rewrite !contains_char_app, Hu0, Hu1, Hn0, Hn1. reflexivity.
Qed.

Lemma plain_strokes n : plain (strokes n).
Proof.
  induction n as [|n [IH0 IH1]]; [split; reflexivity|].
  split; cbn [strokes PyStr.contains String.prefix];
    match goal with |- context [ascii_dec ?a ?b] => destruct (ascii_dec a b) end;
    try discriminate; assumption.
Qed.

(** The first loop goes through when no document's shortened name is
    found in a listing, every document can be read, and every path it
    saves under can be opened. *)
Lemma save_uploads_accepts env api_key files :
  (forall file h names,
      file ∈ files -> list_files env h = inr names ->
      shorten_filename (filename file) 40 ∉ names) ->
  (forall file h, file ∈ files -> exists contents,
        read_upload env h (filename file) = inr contents) ->
  (forall h, plain (uuid4 env h)) ->
  (forall file, file ∈ files -> plain (shorten_filename (filename file) 40)) ->
  forall filenames temp_file_paths w,
    exists saved, fst (save_uploads env api_key files filenames temp_file_paths w)
                  = inr saved.
Proof.
  induction files as [|file rest IH];
    intros Hfree Hread Huuid Hplain filenames temp_file_paths w.
  - eexists. reflexivity.
  - rewrite save_uploads_cons, save_upload_run. cbv zeta.
    assert (Hnot : match list_files env (trace w ++ [Configure api_key]) with
                   | inr files_list =>
                       existsb (String.eqb (shorten_filename (filename file) 40)) files_list
                   | inl _ => false
                   end = false).
    { destruct (list_files env _) as [e|names] eqn:Hlist; [reflexivity|].
      apply not_true_is_false. intros Hfound.
      apply existsb_exists in Hfound as (x & Hin & Heq).
      apply String.eqb_eq in Heq as <-.
      apply (Hfree file _ names (list_elem_of_here _ _) Hlist).
      apply list_elem_of_In, Hin. }
    rewrite Hnot.
    destruct (Hread file (trace (log ListFiles (log (Configure api_key) w)))
                (list_elem_of_here _ _)) as [contents ->].
    rewrite open_error_plain by (auto using list_elem_of_here).
    apply IH; [| |exact Huuid|].
    + intros f h names Hin. apply Hfree. apply list_elem_of_further, Hin.
    + intros f h Hin. apply Hread. apply list_elem_of_further, Hin.
    + intros f Hin. apply Hplain. apply list_elem_of_further, Hin.
Qed.

(** X24. The pre-flight check rests on the listing alone.  A request of
    at least one document, whose documents can all be read and whose
    shortened names, like the UUIDs they are saved under, hold neither a
    separator nor a NUL character, is accepted in background mode
    whenever no listing that goes through holds one of the shortened
    names: in particular when the listing fails every time, and when two
    of its documents share a name. *)
Theorem background_request_accepts env files prompt return_html api_key w :
  files <> [] ->
  (forall file h names,
      file ∈ files -> list_files env h = inr names ->
      shorten_filename (filename file) 40 ∉ names) ->
  (forall file h, file ∈ files -> exists contents,
        read_upload env h (filename file) = inr contents) ->
  (forall h, plain (uuid4 env h)) ->
  (forall file, file ∈ files -> plain (shorten_filename (filename file) 40)) ->
  exists response,
    fst (convert_files env files prompt true return_html api_key w) = inr response
    /\ filenames response = map (fun f => shorten_filename (filename f) 40) files.
Proof.
  intros Hsome Hfree Hread Huuid Hplain.
  destruct (save_uploads_accepts env api_key files Hfree Hread Huuid Hplain [] [] w)
    as [[names paths] Hsaved].
  rewrite convert_files_background_run.
  destruct files as [|file rest]; [contradiction|].
  destruct (save_uploads env api_key (file :: rest) [] [] w) as [r w1] eqn:Hrun.
  cbn [fst] in Hsaved. subst r.
  apply save_uploads_result in Hrun as [Hnames _].
  eexists. split; [reflexivity|]. exact Hnames.
Qed.

Lemma background_request_accepts_witness :
  exists response,
    fst (convert_files listing_down
           [ {| filename := "a.pdf" |}; {| filename := "a.pdf" |} ]
           "" true true "KEY" empty_world) = inr response
    /\ filenames response
       = map (fun f => shorten_filename (filename f) 40)
           [ {| filename := "a.pdf" |}; {| filename := "a.pdf" |} ].
Proof.
  apply background_request_accepts.
  - discriminate.
  - intros file h names _ Hlist. discriminate.
  - intros file h _. eexists. reflexivity.
  - intros h. apply plain_strokes.
  - intros file Hin.
    apply elem_of_cons in Hin as [->|Hin];
      [|apply elem_of_cons in Hin as [->|Hin]; [|inversion Hin]];
      split; vm_compute; reflexivity.
Defined.

(** ** The names files are uploaded under *)

Lemma uploads_of_app mime_type h1 h2 :
  uploads_of mime_type (h1 ++ h2) = uploads_of mime_type h1 ++ uploads_of mime_type h2.
Proof.
  induction h1 as [|ev h1 IH]; [reflexivity|].
  destruct ev; cbn [app uploads_of]; try exact IH.
  destruct (String.eqb _ _); [cbn [app]; f_equal|]; exact IH.
Qed.

Lemma uploads_of_none mime_type evs :
  Forall (fun ev => is_upload ev = false) evs -> uploads_of mime_type evs = [].
Proof.
  induction 1 as [|ev evs Hev _ IH]; [reflexivity|].
  destruct ev; try discriminate; exact IH.
Qed.

(** The shared steps upload the PDF under the name they are given, and
    the HTML, when they get that far, under that name with its extension
    replaced. *)
Lemma generate_and_store_uploads env prompt path name w :
  exists evs,
    trace (snd (generate_and_store env prompt path name w)) = trace w ++ evs
    /\ uploads_of "application/pdf" evs = [name]
    /\ match fst (generate_and_store env prompt path name w) with
       | inr _ => uploads_of "text/html" evs = [html_name name]
       | inl _ => uploads_of "text/html" evs = []
                  \/ uploads_of "text/html" evs = [html_name name]
       end.
Proof.
  rewrite generate_and_store_run. cbv zeta.
  destruct (upload_file env (trace w) path name "application/pdf") as [e|sample].
  { eexists [_]. cbn [fst snd trace log]. split; [reflexivity|].
    split; [reflexivity | left; reflexivity]. }
  destruct (emits_no_upload_generate_with_retry env sample (effective_prompt prompt) 3
              (log (GenaiUploadFile path name "application/pdf") w))
    as (evs1 & Htr1 & Hno).
  destruct (generate_with_retry env sample (effective_prompt prompt) 3 _)
    as [[e|response] w1]; cbn [fst snd trace log] in *.
  { exists (GenaiUploadFile path name "application/pdf" :: evs1).
    rewrite Htr1, <- app_assoc. split; [reflexivity|].
    cbn [uploads_of String.eqb]. rewrite !(uploads_of_none _ _ Hno).
    split; [reflexivity | left; reflexivity]. }
  destruct (text response) as [e|html_content]; cbn [fst snd].
  { exists (GenaiUploadFile path name "application/pdf" :: evs1).
    rewrite Htr1, <- app_assoc. split; [reflexivity|].
    change (uploads_of "application/pdf" (GenaiUploadFile path name "application/pdf" :: evs1))
      with (name :: uploads_of "application/pdf" evs1).
    change (uploads_of "text/html" (GenaiUploadFile path name "application/pdf" :: evs1))
      with (uploads_of "text/html" evs1).
    rewrite !(uploads_of_none _ _ Hno).
    split; [reflexivity | left; reflexivity]. }
  assert (Happ : forall l,
             trace w1 ++ l
             = trace w ++ GenaiUploadFile path name "application/pdf" :: evs1 ++ l)
    by (intros l; rewrite Htr1, <- !app_assoc; reflexivity).
  assert (Hpdf : forall tmp,
             uploads_of "application/pdf"
               (GenaiUploadFile path name "application/pdf" :: evs1
                ++ [NamedTemporaryFile ".html";
                    GenaiUploadFile tmp (html_name name) "text/html"]) = [name]).
  { intros tmp.
    change (uploads_of "application/pdf" (?ev :: ?l))
      with (name :: uploads_of "application/pdf" l).
    rewrite uploads_of_app, (uploads_of_none _ _ Hno). reflexivity. }
  assert (Hhtml : forall tmp,
             uploads_of "text/html"
               (GenaiUploadFile path name "application/pdf" :: evs1
                ++ [NamedTemporaryFile ".html";
                    GenaiUploadFile tmp (html_name name) "text/html"])
             = [html_name name]).
  { intros tmp.
    change (uploads_of "text/html" (GenaiUploadFile path name "application/pdf" :: ?l))
      with (uploads_of "text/html" l).
    rewrite uploads_of_app, (uploads_of_none _ _ Hno). reflexivity. }
  fold (html_name name).
  eexists (_ :: evs1 ++ [_; _]).
  match goal with
  | |- context [upload_file env ?h ?p ?d ?m] =>
      destruct (upload_file env h p d m) as [e|html_file]
  end; cbn [fst snd trace log set_fs];
    (split; [rewrite <- app_assoc; apply Happ|]); (split; [apply Hpdf|]); auto.
Qed.

(** The synchronous loop uploads the PDFs under the names of its
    documents, in order and as far as it gets, and the HTML files under
    their HTML names; a loop that goes through has uploaded them all. *)
Lemma convert_each_uploads env prompt return_html filenames :
  forall temp_file_paths i bound html_results file_uris w,
    (i + length temp_file_paths <= length filenames)%nat ->
    let out := convert_each env prompt return_html filenames i temp_file_paths bound
                 html_results file_uris w in
    let names := take (length temp_file_paths) (drop i filenames) in
    exists evs,
      trace (snd out) = trace w ++ evs
      /\ uploads_of "application/pdf" evs `prefix_of` names
      /\ uploads_of "text/html" evs `prefix_of` map html_name names
      /\ (forall r, fst out = inr r ->
          uploads_of "application/pdf" evs = names
          /\ uploads_of "text/html" evs = map html_name names).
Proof.
  induction temp_file_paths as [|path rest IH];
    intros i bound html_results file_uris w Hlen; cbv zeta.
  - exists []. cbn [convert_each ret snd length take map uploads_of].
    rewrite app_nil_r. split; [reflexivity|]. repeat split; apply prefix_nil.
  - cbn [length] in Hlen.
    destruct (lookup_lt_is_Some_2 filenames i ltac:(lia)) as [name Hname].
    rewrite (convert_each_cons _ _ _ _ _ _ _ _ _ _ _ _ Hname).
    rewrite (drop_S _ _ _ Hname). cbn [length take map].
    destruct (generate_and_store_uploads env prompt path name w)
      as (evs1 & Htr1 & Hpdf1 & Hhtml1).
    destruct (generate_and_store env prompt path name w) as [[e|[page html_uri]] w1];
      cbn [fst snd] in *.
    + destruct (remove_if_exists_run path w1) as (_ & _ & _ & Htr2).
      exists evs1.
      assert (Hshape : uploads_of "application/pdf" evs1
                       `prefix_of` name :: take (length rest) (drop (S i) filenames)
                       /\ uploads_of "text/html" evs1
                          `prefix_of` html_name name
                                      :: map html_name
                                           (take (length rest) (drop (S i) filenames))).
      { rewrite Hpdf1. split; [apply prefix_cons, prefix_nil|].
        destruct Hhtml1 as [-> | ->]; [apply prefix_nil | apply prefix_cons, prefix_nil]. }
      destruct Hshape as [Hp Hh].
      destruct e; cbn [fst snd]; rewrite Htr2, Htr1;
        (split; [reflexivity|]); (split; [exact Hp|]); (split; [exact Hh|]);
        intros r Hr; discriminate.
    + destruct (remove_if_exists_run path w1) as (_ & _ & _ & Htr2).
      destruct (IH (S i) (Some name)
                  (if return_html then html_results ++ [page] else html_results)
                  (file_uris ++ [html_uri]) (snd (remove_if_exists path w1))
                  ltac:(lia)) as (evs2 & Htr & Hp & Hh & Hall).
      exists (evs1 ++ evs2). rewrite Htr, Htr2, Htr1, <- app_assoc.
      split; [reflexivity|]. rewrite !uploads_of_app, Hpdf1, Hhtml1. cbn [app].
      split; [apply prefix_cons, Hp|]. split; [apply prefix_cons, Hh|].
      intros r Hr. destruct (Hall r Hr) as [-> ->]. split; reflexivity.
Qed.

(** The background loop uploads every PDF, under the names of its
    documents and in order, and the HTML files of the documents it could
    convert. *)
Lemma process_each_uploads env prompt filenames :
  forall temp_file_paths i bound w,
    (i + length temp_file_paths <= length filenames)%nat ->
    let names := take (length temp_file_paths) (drop i filenames) in
    exists evs,
      trace (snd (process_each env prompt filenames i temp_file_paths bound w))
      = trace w ++ evs
      /\ uploads_of "application/pdf" evs = names
      /\ uploads_of "text/html" evs `sublist_of` map html_name names.
Proof.
  induction temp_file_paths as [|path rest IH]; intros i bound w Hlen; cbv zeta.
  - exists []. cbn [process_each ret snd length take map uploads_of].
    rewrite app_nil_r. split; [reflexivity|]. split; [reflexivity | constructor].
  - cbn [length] in Hlen.
    destruct (lookup_lt_is_Some_2 filenames i ltac:(lia)) as [name Hname].
    rewrite (process_each_cons _ _ _ _ _ _ _ _ _ Hname).
    rewrite (drop_S _ _ _ Hname). cbn [length take map].
    destruct (generate_and_store_uploads env prompt path name w)
      as (evs1 & Htr1 & Hpdf1 & Hhtml1).
    destruct (generate_and_store env prompt path name w) as [r w1];
      cbn [fst snd] in *. cbn zeta.
    match goal with
    | |- context [remove_if_exists path ?w2] =>
        destruct (remove_if_exists_run path w2) as (_ & _ & _ & Htr2);
        destruct (IH (S i) (Some name) (snd (remove_if_exists path w2)) ltac:(lia))
          as (evs2 & Htr & Hp & Hh)
    end.
    rewrite Htr, Htr2.
    destruct r as [e|r]; cbn [trace log].
    + exists (evs1 ++ Print ("Error processing file " +:+ name +:+ ": " +:+ exn_str e)
                   :: evs2).
      rewrite Htr1, <- !app_assoc. split; [reflexivity|].
      rewrite !uploads_of_app, Hpdf1. cbn [uploads_of app]. rewrite Hp.
      split; [reflexivity|].
      destruct Hhtml1 as [-> | ->]; cbn [app];
        [apply sublist_cons, Hh | apply sublist_skip, Hh].
    + exists (evs1 ++ evs2). rewrite Htr1, <- !app_assoc. split; [reflexivity|].
      rewrite !uploads_of_app, Hpdf1, Hhtml1, Hp. cbn [app].
      split; [reflexivity | apply sublist_skip, Hh].
Qed.

Lemma uploads_of_local mime_type evs :
  Forall local_event evs -> uploads_of mime_type evs = [].
Proof.
  intros Hall. apply uploads_of_none. eapply Forall_impl; [exact Hall|].
  intros ev [Hup _]. exact Hup.
Qed.

(** What a request uploads itself: nothing in the pre-flight loop and in
    background mode, and in synchronous mode the PDFs under the shortened
    names, in order, each followed by its HTML. *)
Lemma convert_files_upload_names env files prompt background return_html api_key w :
  let names := map (fun f => shorten_filename (filename f) 40) files in
  let out := convert_files env files prompt background return_html api_key w in
  exists evs,
    trace (snd out) = trace w ++ evs
    /\ uploads_of "application/pdf" evs `prefix_of` names
    /\ uploads_of "text/html" evs `prefix_of` map html_name names
    /\ (forall response, fst out = inr response -> background = false ->
        uploads_of "application/pdf" evs = names
        /\ uploads_of "text/html" evs = map html_name names).
Proof.
  cbv zeta. destruct files as [|file rest].
  { exists []. cbn [convert_files raise fst snd map uploads_of].
    rewrite app_nil_r. split; [reflexivity|]. repeat split; try apply prefix_nil;
      discriminate. }
  set (names := map _ (file :: rest)).
  destruct (emits_save_uploads env api_key (file :: rest) [] [] w)
    as (evs0 & Htr0 & Hlocal).
  destruct background.
  - rewrite convert_files_background_run.
    destruct (save_uploads env api_key (file :: rest) [] [] w)
      as [[e|[names' paths]] w1]; cbn [fst snd trace] in *;
      exists evs0; rewrite !(uploads_of_local _ _ Hlocal);
      (split; [exact Htr0|]); repeat split; try apply prefix_nil; discriminate.
  - rewrite convert_files_synchronous_run.
    destruct (save_uploads env api_key (file :: rest) [] [] w)
      as [[e|[names' paths]] w1] eqn:Hsave; cbn [fst snd trace] in *.
    { exists evs0. rewrite !(uploads_of_local _ _ Hlocal).
      split; [exact Htr0|]. repeat split; try apply prefix_nil; discriminate. }
    apply save_uploads_result in Hsave as [Hnames Hpaths].
    cbn [app length] in Hnames, Hpaths. fold names in Hnames. subst names'.
    assert (Hlen : length paths = length names)
      by (subst names; rewrite length_map, Hpaths; reflexivity).
    destruct (convert_each_uploads env prompt return_html names paths 0 (last names)
                [] [] (log (Configure api_key) w1) ltac:(cbn [Nat.add]; lia))
      as (evs1 & Htr1 & Hp & Hh & Hall).
    cbv zeta in *. cbn [drop] in *. rewrite (take_ge names) in * by lia.
    exists (evs0 ++ Configure api_key :: evs1).
    rewrite !uploads_of_app, !(uploads_of_local _ _ Hlocal). cbn [app uploads_of].
    assert (Htr : forall r w2,
               convert_each env prompt return_html names 0 paths (last names) [] []
                 (log (Configure api_key) w1) = (r, w2) ->
               trace w2 = trace w ++ evs0 ++ Configure api_key :: evs1).
    { intros r w2 Hrun. rewrite Hrun in Htr1. cbn [snd trace log] in Htr1.
      rewrite Htr1, Htr0, <- !app_assoc. reflexivity. }
    destruct (convert_each _ _ _ _ _ _ _ _ _ _) as [[e|[pages uris]] w2];
      cbn [fst snd] in *; (split; [eapply Htr; reflexivity|]);
      (split; [exact Hp|]); (split; [exact Hh|]).
    + intros response Hr. discriminate.
    + intros response _ _. apply (Hall _ eq_refl).
Qed.

(** What a scheduled task uploads, whatever the collaborators do: every
    PDF under the name that goes with its path, in order. *)
Lemma run_task_uploads env t w :
  length (task_temp_file_paths t) = length (task_filenames t) ->
  exists evs,
    trace (snd (run_task env t w)) = trace w ++ evs
    /\ uploads_of "application/pdf" evs = task_filenames t
    /\ uploads_of "text/html" evs `sublist_of` map html_name (task_filenames t).
Proof.
  intros Hlen. unfold run_task, process_pdf_from_paths, bind, genai_configure, emit.
  destruct (process_each_uploads env (task_prompt t) (task_filenames t)
              (task_temp_file_paths t) 0 None (log (Configure (task_api_key t)) w)
              ltac:(cbn [Nat.add]; lia)) as (evs & Htr & Hp & Hh).
  cbv zeta in *. cbn [drop] in *.
  rewrite (take_ge (task_filenames t)) in * by lia.
  exists (Configure (task_api_key t) :: evs). rewrite Htr. cbn [trace log uploads_of].
  rewrite <- app_assoc. auto.
Qed.

(** The HTML made from a document is uploaded under a name that is not
    the shortened name of any document of the request: the name below is
    40 characters long and has no extension, and its HTML goes under a
    name of 45 characters. *)
Lemma html_upload_under_another_name :
  ~ uploads_under_shortened_names obliging_env
      [ {| filename := "minutes-of-the-annual-general-meeting-23" |} ]
      "" false true "KEY" empty_world.
Proof.
  intros (evs & Htr & Hall). vm_compute in Htr. subst evs.
  rewrite Forall_forall in Hall.
  destruct (Hall (GenaiUploadFile "/tmp/tmp7.html"
                    "minutes-of-the-annual-general-meeting-23.html" "text/html"))
    as (file & Hin & Hname).
  { apply list_elem_of_In. vm_compute. tauto. }
  apply list_elem_of_singleton in Hin as ->. vm_compute in Hname. discriminate.
Qed.

Example html_upload_name_length :
  PyStr.len (html_name (shorten_filename "minutes-of-the-annual-general-meeting-23" 40))
  = 45.
Proof. reflexivity. Qed.

(** C10, as the code has it.  [shorten_filename(filename, 40)] never
    returns more than 40 characters; it returns a name of at most 40
    characters as it is; and it cuts a longer name whose extension, dot
    included, is shorter than 40 characters so that the result still
    ends with that extension.  In [convert_files] the shortened names,
    not the submitted ones, are the filenames of the response; the names
    under which the PDFs are uploaded, one upload per document in the
    order of submission, by the request itself in synchronous mode and by
    the task it schedules in background mode; and the names looked up in
    the listing of the File API: a listing that holds the shortened name
    of a document stops the request, and in background mode a request
    that can be read and saved is accepted when no listing holds a
    shortened name, whatever else is listed.  The HTML made from a
    document is uploaded under another name, the shortened name with its
    extension replaced by [.html]. *)
Theorem shortened_name_is_display_name :
  (forall filename,
      PyStr.len (shorten_filename filename 40) <= 40
      /\ (PyStr.len filename <= 40 -> shorten_filename filename 40 = filename)
      /\ (40 < PyStr.len filename ->
          PyStr.len (snd (OsPath.splitext filename)) < 40 ->
          shorten_filename filename 40
          = PyStr.slice_to (fst (OsPath.splitext filename))
              (40 - PyStr.len (snd (OsPath.splitext filename)))
            +:+ snd (OsPath.splitext filename)))
  /\ (forall env files prompt background return_html api_key w,
        let names := map (fun f => shorten_filename (filename f) 40) files in
        let out := convert_files env files prompt background return_html api_key w in
        (forall response, fst out = inr response -> filenames response = names)
        /\ (exists evs,
              trace (snd out) = trace w ++ evs
              /\ Forall (names_uploads names) evs
              /\ uploads_of "application/pdf" evs `prefix_of` names
              /\ uploads_of "text/html" evs `prefix_of` map html_name names
              /\ (forall response, fst out = inr response -> background = false ->
                  uploads_of "application/pdf" evs = names
                  /\ uploads_of "text/html" evs = map html_name names))
        /\ (forall response, fst out = inr response -> background = true ->
            exists task,
              last (background_tasks (snd out)) = Some task
              /\ task_filenames task = names
              /\ forall env' w2, exists evs,
                   trace (snd (run_task env' task w2)) = trace w2 ++ evs
                   /\ Forall (names_uploads names) evs
                   /\ uploads_of "application/pdf" evs = names
                   /\ uploads_of "text/html" evs `sublist_of` map html_name names)
        /\ (forall file, file ∈ files ->
            (forall h, exists listed,
                list_files env h = inr listed
                /\ shorten_filename (filename file) 40 ∈ listed) ->
            exists e, fst out = inl e)
        /\ (files <> [] -> background = true ->
            (forall file h, file ∈ files -> exists contents,
                  read_upload env h (filename file) = inr contents) ->
            (forall h, plain (uuid4 env h)) ->
            (forall file, file ∈ files -> plain (shorten_filename (filename file) 40)) ->
            (forall file h listed,
                file ∈ files -> list_files env h = inr listed ->
                shorten_filename (filename file) 40 ∉ listed) ->
            exists response, fst out = inr response)).
Proof.
  split.
  { intros filename. split; [apply shorten_filename_length; lia|].
    split; [apply shorten_filename_short|].
    intros Hlong Hext. apply shorten_filename_keeps_ext; assumption. }
  intros env files prompt background return_html api_key w names out.
  split; [|split; [|split; [|split]]].
  - intros response Hok. subst out names.
    destruct (convert_files _ _ _ _ _ _ w) as [r w'] eqn:Hrun. cbn [fst] in Hok.
    subst r. exact (convert_files_filenames _ _ _ _ _ _ _ _ _ Hrun).
  - destruct (convert_files_upload_names env files prompt background return_html
                api_key w) as (evs & Htr & Hp & Hh & Hall).
    destruct (emits_named_convert_files env files prompt background return_html
                api_key w) as (evs' & Htr' & Hnamed).
    fold out in Htr, Htr', Hall. rewrite Htr in Htr'.
    apply app_inv_head in Htr' as <-. exists evs. auto.
  - intros response Hok ->. subst out.
    destruct (convert_files _ _ _ _ _ _ w) as [r w'] eqn:Hrun. cbn [fst snd] in *.
    subst r. pose proof (convert_files_filenames _ _ _ _ _ _ _ _ _ Hrun) as Hnames.
    rewrite convert_files_background_run in Hrun.
    destruct files as [|file rest]; [discriminate|].
    destruct (save_uploads env api_key (file :: rest) [] [] w)
      as [[e|[names' paths]] w1] eqn:Hsave; [discriminate|].
    apply save_uploads_result in Hsave as [Hnames' Hpaths].
    cbn [app length] in Hnames', Hpaths. fold names in Hnames'. subst names'.
    injection Hrun as <- <-. cbn [background_tasks filenames] in *.
    eexists. split; [apply last_snoc|]. cbn [task_filenames].
    split; [reflexivity|]. intros env' w2.
    match goal with
    | |- context [run_task env' ?t w2] =>
        destruct (run_task_uploads env' t w2) as (evs & Htr & Hp & Hh);
        [cbn [task_temp_file_paths task_filenames]; subst names;
         rewrite length_map, Hpaths; reflexivity|];
        destruct (emits_named_run_task env' t w2) as (evs' & Htr' & Hnamed)
    end.
    cbn [task_filenames] in *. rewrite Htr in Htr'.
    apply app_inv_head in Htr' as <-. exists evs. auto.
  - intros file Hin Hlisted. subst out.
    apply list_elem_of_split in Hin as (before & after & ->).
    destruct (save_uploads_collision env api_key file after Hlisted before [] [] w)
      as [[e He] _].
    unfold convert_files.
    destruct (before ++ file :: after) as [|f fs] eqn:Hfiles;
      [destruct before; discriminate|].
    unfold bind at 1.
    destruct (save_uploads env api_key (f :: fs) [] [] w) as [[e'|saved] w1];
      cbn [fst] in *; [eauto | discriminate].
  - intros Hsome -> Hread Huuid Hplain Hfree. subst out.
    destruct (save_uploads_accepts env api_key files
                ltac:(intros f h l Hf Hl; exact (Hfree f h l Hf Hl))
                Hread Huuid Hplain [] [] w) as [[names' paths] Hsaved].
    rewrite convert_files_background_run.
    destruct files as [|file rest]; [contradiction|].
    destruct (save_uploads env api_key (file :: rest) [] [] w) as [r w1].
    cbn [fst] in Hsaved. subst r. eexists. reflexivity.
Qed.

Lemma shortened_name_is_display_name_witness :
  let long := "0123456789012345678901234567890123456789extra.pdf" in
  let short := "012345678901234567890123456789012345.pdf" in
  let files := [ {| filename := long |} ] in
  shorten_filename long 40 = short
  /\ (exists response,
        fst (convert_files (fixed_listing [long]) files "" true true "KEY" empty_world)
        = inr response
        /\ filenames response = [short])
  /\ (exists evs,
        trace (snd (convert_files (fixed_listing [long]) files "" false true "KEY"
                      empty_world))
        = trace empty_world ++ evs
        /\ uploads_of "application/pdf" evs = [short]
        /\ uploads_of "text/html" evs = ["012345678901234567890123456789012345.html"]).
Proof.
  intros long short files.
  destruct shortened_name_is_display_name as [Hpure Hrequest].
  split; [|split].
  - destruct (Hpure long) as (_ & _ & Hext).
    rewrite Hext by (vm_compute; reflexivity). reflexivity.
  - destruct (Hrequest (fixed_listing [long]) files "" true true "KEY" empty_world)
      as (Hnames & _ & _ & _ & Haccept).
    destruct Haccept as [response Hok].
    + discriminate.
    + reflexivity.
    + intros file h _. eexists. reflexivity.
    + intros h. apply plain_strokes.
    + intros file Hin. apply list_elem_of_singleton in Hin as ->.
      split; vm_compute; reflexivity.
    + intros file h listed Hin Hlist. apply list_elem_of_singleton in Hin as ->.
      injection Hlist as <-. intros Hfound.
      apply list_elem_of_singleton in Hfound. vm_compute in Hfound. discriminate.
    + exists response. split; [exact Hok | exact (Hnames response Hok)].
  - destruct (Hrequest (fixed_listing [long]) files "" false true "KEY" empty_world)
      as (_ & (evs & Htr & _ & _ & _ & Hall) & _).
    assert (Hok : exists response,
               fst (convert_files (fixed_listing [long]) files "" false true "KEY"
                      empty_world) = inr response)
      by (eexists; vm_compute; reflexivity).
    destruct Hok as [response Hok]. exists evs. split; [exact Htr|].
    exact (Hall response Hok eq_refl).
Defined.
